(** * Eluna Lua engine core: a shallow embedding of LuaEngine.cpp / LuaEngine.h

    The engine is C++ around a Lua interpreter.  The embedding keeps the
    engine's own code (the members of [class Eluna] and the static helpers
    of LuaEngine.cpp) as Rocq functions over an explicit engine state, and
    keeps the Lua C API as a small model of what each API function does to
    the value stack, the registry and the globals.

    Conventions:
    - C integers are [Z]; where the source increments a fixed-width counter
      the wrap-around is written out;
    - a [double] is an IEEE-754 value, [spec_float] of the Standard Library;
    - [std::unordered_map] is a [gmap];
    - a [longjmp] out of the C code ([lua_error], [luaL_error],
      [luaL_argerror]) is the result [LuaError]; a failed [ASSERT], a null
      dereference or undefined behaviour is the result [Fault]. *)

From Stdlib Require Import ZArith QArith_base Floats.SpecFloat Lia.
From stdpp Require Import gmap strings list fin_maps pretty.

Set Warnings "-register-all".
Local Close Scope Q_scope.
Local Open Scope Z_scope.

(* ===================================================================== *)
(** * C numbers *)
(* ===================================================================== *)

Module CNum.

(** [double]: the values of an IEEE-754 binary64. *)
Definition double : Type := spec_float.

(** The real value of a double, or which special value it is. *)
Variant dclass : Type :=
  | DNaN
  | DNegInf
  | DPosInf
  | DFin (q : Q).

Definition pow2_pos (e : Z) : positive := Z.to_pos (2 ^ e).

Definition classify (d : double) : dclass :=
  match d with
  | S754_nan => DNaN
  | S754_infinity true => DNegInf
  | S754_infinity false => DPosInf
  | S754_zero _ => DFin (Qmake 0 1)
  | S754_finite s m e =>
      let n := if s then Z.neg m else Z.pos m in
      if 0 <=? e then DFin (Qmake (n * 2 ^ e) 1)
      else DFin (Qmake n (pow2_pos (- e)))
  end.

(** [d > (double) b] and [d < (double) b] for an integer [b] that a double
    holds exactly (every bound used below is at most 32 bits wide).
    A comparison with NaN is false. *)
Definition dgt_int (d : double) (b : Z) : bool :=
  match classify d with
  | DNaN => false
  | DNegInf => false
  | DPosInf => true
  | DFin q => b * Z.pos (Qden q) <? Qnum q
  end.

Definition dlt_int (d : double) (b : Z) : bool :=
  match classify d with
  | DNaN => false
  | DNegInf => true
  | DPosInf => false
  | DFin q => Qnum q <? b * Z.pos (Qden q)
  end.

(** Truncation toward zero, the integral part a C conversion keeps. *)
Definition Qtrunc (q : Q) : Z := Z.quot (Qnum q) (Z.pos (Qden q)).

Definition SCHAR_MIN : Z := -128.
Definition SCHAR_MAX : Z := 127.
Definition UCHAR_MAX : Z := 255.
Definition SHRT_MIN : Z := -32768.
Definition SHRT_MAX : Z := 32767.
Definition USHRT_MAX : Z := 65535.
Definition INT_MIN : Z := -2147483648.
Definition INT_MAX : Z := 2147483647.
Definition UINT_MAX : Z := 4294967295.

(** [static_cast<int>(value)] and [static_cast<unsigned int>(value)]:
    the truncated value when the destination type holds it; the
    behaviour is undefined otherwise ([None]), NaN and the infinities
    included. *)
Definition static_cast_int (d : double) : option Z :=
  match classify d with
  | DFin q =>
      let t := Qtrunc q in
      if (INT_MIN <=? t) && (t <=? INT_MAX) then Some t else None
  | _ => None
  end.

Definition static_cast_uint (d : double) : option Z :=
  match classify d with
  | DFin q =>
      let t := Qtrunc q in
      if (0 <=? t) && (t <=? UINT_MAX) then Some t else None
  | _ => None
  end.

(** Integral conversions between integer types: reduction modulo 2^w,
    read back as signed or unsigned. *)
Definition wrap_unsigned (w : Z) (n : Z) : Z := n mod 2 ^ w.
Definition wrap_signed (w : Z) (n : Z) : Z :=
  (n + 2 ^ (w - 1)) mod 2 ^ w - 2 ^ (w - 1).

(** The double holding the integer [n] (exact for |n| < 2^53). *)
Definition of_Z (n : Z) : double :=
  match n with
  | Z0 => S754_zero false
  | Zpos p => S754_finite false p 0
  | Zneg p => S754_finite true p 0
  end.

End CNum.
Export CNum.

(** ** C strings

    A [const char*] is read up to its first NUL.  A counted string (a
    [std::string], a Lua string) may hold NULs; [c_str s] is what a C
    function sees of it through [std::string::c_str()] or through the
    pointer that [lua_tostring] returns. *)
Fixpoint c_str (s : string) : string :=
  match s with
  | EmptyString => EmptyString
  | String c rest =>
      if Ascii.eqb c Ascii.zero then EmptyString else String c (c_str rest)
  end.

(* ===================================================================== *)
(** * Hooks.h: registration types and event families *)
(* ===================================================================== *)

Module Hooks.

(** [enum RegisterTypes].  [Eluna::Register] receives the underlying
    integer; an integer that is none of the enumerators matches no
    [case] label and is [REGTYPE_UNKNOWN]. *)
Variant RegisterTypes : Type :=
  | REGTYPE_SERVER
  | REGTYPE_PLAYER
  | REGTYPE_GUILD
  | REGTYPE_GROUP
  | REGTYPE_VEHICLE
  | REGTYPE_BG
  | REGTYPE_PACKET
  | REGTYPE_CREATURE
  | REGTYPE_CREATURE_GOSSIP
  | REGTYPE_GAMEOBJECT
  | REGTYPE_GAMEOBJECT_GOSSIP
  | REGTYPE_SPELL
  | REGTYPE_ITEM
  | REGTYPE_ITEM_GOSSIP
  | REGTYPE_PLAYER_GOSSIP
  | REGTYPE_MAP
  | REGTYPE_INSTANCE
  | REGTYPE_CREATURE_UNIQUE
  | REGTYPE_UNKNOWN (raw : Z).

#[export] Instance RegisterTypes_eq_dec : EqDecision RegisterTypes.
Proof. solve_decision. Defined.

Definition RegisterTypes_code (r : RegisterTypes) : nat + Z :=
  match r with
  | REGTYPE_SERVER => inl 0%nat
  | REGTYPE_PLAYER => inl 1%nat
  | REGTYPE_GUILD => inl 2%nat
  | REGTYPE_GROUP => inl 3%nat
  | REGTYPE_VEHICLE => inl 4%nat
  | REGTYPE_BG => inl 5%nat
  | REGTYPE_PACKET => inl 6%nat
  | REGTYPE_CREATURE => inl 7%nat
  | REGTYPE_CREATURE_GOSSIP => inl 8%nat
  | REGTYPE_GAMEOBJECT => inl 9%nat
  | REGTYPE_GAMEOBJECT_GOSSIP => inl 10%nat
  | REGTYPE_SPELL => inl 11%nat
  | REGTYPE_ITEM => inl 12%nat
  | REGTYPE_ITEM_GOSSIP => inl 13%nat
  | REGTYPE_PLAYER_GOSSIP => inl 14%nat
  | REGTYPE_MAP => inl 15%nat
  | REGTYPE_INSTANCE => inl 16%nat
  | REGTYPE_CREATURE_UNIQUE => inl 17%nat
  | REGTYPE_UNKNOWN raw => inr raw
  end.

Definition RegisterTypes_decode (c : nat + Z) : RegisterTypes :=
  match c with
  | inl 0%nat => REGTYPE_SERVER
  | inl 1%nat => REGTYPE_PLAYER
  | inl 2%nat => REGTYPE_GUILD
  | inl 3%nat => REGTYPE_GROUP
  | inl 4%nat => REGTYPE_VEHICLE
  | inl 5%nat => REGTYPE_BG
  | inl 6%nat => REGTYPE_PACKET
  | inl 7%nat => REGTYPE_CREATURE
  | inl 8%nat => REGTYPE_CREATURE_GOSSIP
  | inl 9%nat => REGTYPE_GAMEOBJECT
  | inl 10%nat => REGTYPE_GAMEOBJECT_GOSSIP
  | inl 11%nat => REGTYPE_SPELL
  | inl 12%nat => REGTYPE_ITEM
  | inl 13%nat => REGTYPE_ITEM_GOSSIP
  | inl 14%nat => REGTYPE_PLAYER_GOSSIP
  | inl 15%nat => REGTYPE_MAP
  | inl 16%nat => REGTYPE_INSTANCE
  | inl _ => REGTYPE_CREATURE_UNIQUE
  | inr raw => REGTYPE_UNKNOWN raw
  end.

#[export] Instance RegisterTypes_countable : Countable RegisterTypes.
Proof.
  apply (inj_countable' RegisterTypes_code RegisterTypes_decode).
  intros r. destruct r; reflexivity.
Defined.

(** The event enumerations, one per family of hooks. *)
Variant EventFamily : Type :=
  | ServerEvents
  | PlayerEvents
  | GuildEvents
  | GroupEvents
  | VehicleEvents
  | BGEvents
  | PacketEvents
  | CreatureEvents
  | GossipEvents
  | GameObjectEvents
  | SpellEvents
  | ItemEvents
  | InstanceEvents.

#[export] Instance EventFamily_eq_dec : EqDecision EventFamily.
Proof. solve_decision. Defined.

(** The [*_EVENT_COUNT] enumerators that close each event enumeration.
    Hooks.h is not among the sources, so their values are a parameter. *)
Record EventCounts : Type := mkEventCounts {
  SERVER_EVENT_COUNT : Z;
  PLAYER_EVENT_COUNT : Z;
  GUILD_EVENT_COUNT : Z;
  GROUP_EVENT_COUNT : Z;
  VEHICLE_EVENT_COUNT : Z;
  BG_EVENT_COUNT : Z;
  PACKET_EVENT_COUNT : Z;
  CREATURE_EVENT_COUNT : Z;
  GOSSIP_EVENT_COUNT : Z;
  GAMEOBJECT_EVENT_COUNT : Z;
  SPELL_EVENT_COUNT : Z;
  ITEM_EVENT_COUNT : Z;
  INSTANCE_EVENT_COUNT : Z
}.

End Hooks.
Export Hooks.

(* ===================================================================== *)
(** * Host objects and script-visible values *)
(* ===================================================================== *)

(** The host's object type tag, [Object::GetTypeId()].  The engine names
    four tags; every other tag of the host's enumeration takes the
    [default:] arm of a switch and is [TYPEID_OTHER]. *)
Variant TypeID : Type :=
  | TYPEID_UNIT
  | TYPEID_PLAYER
  | TYPEID_GAMEOBJECT
  | TYPEID_CORPSE
  | TYPEID_OTHER (tag : Z).

(** A host entity as the engine sees it: its type tag and its identity. *)
Record Object : Type := mkObject {
  GetTypeId : TypeID;
  GetGUID : Z
}.

(** What a wrapper userdata refers to: a host entity, or a boxed value. *)
Variant ObjRef : Type :=
  | RefObject (o : Object)
  | RefUInt64 (n : Z)
  | RefInt64 (n : Z)
  | RefGuid (raw : Z).

(** [ElunaObject]: the userdata behind every wrapper.  It carries the
    wrapper's type name and the callstack id it was stamped with
    (LuaEngine.h: 0 always belongs to the call stack, 1 never does). *)
Record ElunaObject : Type := mkElunaObject {
  GetTypeName : string;
  GetObj : ObjRef;
  obj_callstackid : Z
}.

(** Light userdata are plain addresses; the engine stores two kinds. *)
Variant Pointer : Type :=
  | PtrEluna
  | PtrBindingMap (regtype : RegisterTypes)
  | PtrRaw (addr : Z).

(** The C functions of LuaEngine.cpp that are pushed as Lua values. *)
Variant CFunction : Type :=
  | CF_StackTrace
  | CF_PrecompiledLoader
  | CF_cancelBinding.

Inductive LuaValue : Type :=
  | LNil
  | LBoolean (b : bool)
  | LNumber (d : double)
  | LString (s : string)
  | LTable (id : Z)
  | LFunction (id : Z)
  | LCClosure (f : CFunction) (upvalues : list LuaValue)
  | LUserdata (o : ElunaObject)
  | LLightUserdata (p : Pointer).

(** How a C call ends. *)
Inductive Result (A : Type) : Type :=
  | Ok (a : A)
  | LuaError (e : LuaValue)
  | Fault (why : string).
Arguments Ok {A} a.
Arguments LuaError {A} e.
Arguments Fault {A} why.

(* ===================================================================== *)
(** * The Lua C API, as far as the engine uses it *)
(* ===================================================================== *)

Module Lua.

(** What the interpreter computes and the engine does not look into. *)
Record Library : Type := mkLibrary {
  (** string-to-number coercion of [lua_tonumber] *)
  str2number : string -> option double;
  (** number-to-string coercion of [lua_tostring] *)
  number2str : double -> string;
  (** the single result of [lua_call(L, nargs, 1)] on a function *)
  call1 : LuaValue -> list LuaValue -> LuaValue;
  (** [luaL_getmetafield(L, obj, event)]: the field [event] of the
      value's metatable; nil when the value has no metatable or the
      metatable has no such field *)
  metafield : LuaValue -> string -> LuaValue;
  (** how the [lua_call(L, 1, 1)] of a metamethod on a value ends: with
      its result, or with the error it raises (a metamethod that calls
      back into the engine is outside the model) *)
  callmeta : LuaValue -> LuaValue -> Result LuaValue;
  (** the text of ["%p"] for [lua_topointer] of a value *)
  pointer2str : LuaValue -> string
}.

Record lua_State : Type := mkState {
  (** the value stack of the running C function, index 1 first *)
  stack : list LuaValue;
  (** the integer keys of the registry table ([luaL_ref]) *)
  registry : gmap positive LuaValue;
  globals : gmap string LuaValue;
  (** string-keyed fields of the tables, by table identity *)
  fields : gmap (Z * string) LuaValue;
  (** full collections forced through [lua_gc] *)
  gc_cycles : nat;
  (** the table of loaded modules that [require] keeps
      ([package.loaded], the registry's [_LOADED]) *)
  package_loaded : gmap string LuaValue
}.

Definition set_stack (s : list LuaValue) (L : lua_State) : lua_State :=
  mkState s (registry L) (globals L) (fields L) (gc_cycles L)
    (package_loaded L).
Definition set_registry (r : gmap positive LuaValue) (L : lua_State)
  : lua_State :=
  mkState (stack L) r (globals L) (fields L) (gc_cycles L)
    (package_loaded L).
Definition set_globals (g : gmap string LuaValue) (L : lua_State)
  : lua_State :=
  mkState (stack L) (registry L) g (fields L) (gc_cycles L)
    (package_loaded L).
Definition set_package_loaded (m : gmap string LuaValue) (L : lua_State)
  : lua_State :=
  mkState (stack L) (registry L) (globals L) (fields L) (gc_cycles L) m.

Definition lua_gettop (L : lua_State) : Z := Z.of_nat (length (stack L)).

(** The value at an index of the current frame: 1 .. top from the
    bottom, -1 .. -top from the top.  [None] is "no value" (LUA_TNONE),
    as for an index above the top; an index that is not acceptable reads
    as no value too.  Pseudo-indices are not modelled. *)
Definition index2value (L : lua_State) (idx : Z) : option LuaValue :=
  if 0 <? idx then stack L !! Z.to_nat (idx - 1)
  else if (idx <? 0) && (- idx <=? lua_gettop L)
       then stack L !! Z.to_nat (lua_gettop L + idx)
       else None.

Definition lua_isnoneornil (L : lua_State) (idx : Z) : bool :=
  match index2value L idx with
  | None | Some LNil => true
  | Some _ => false
  end.

Definition is_function (v : LuaValue) : bool :=
  match v with LFunction _ | LCClosure _ _ => true | _ => false end.
Definition is_table (v : LuaValue) : bool :=
  match v with LTable _ => true | _ => false end.
(** [lua_isstring]: a string, or a number (always convertible). *)
Definition is_string (v : LuaValue) : bool :=
  match v with LString _ | LNumber _ => true | _ => false end.

Definition lua_isfunction (L : lua_State) (idx : Z) : bool :=
  match index2value L idx with Some v => is_function v | None => false end.
Definition lua_istable (L : lua_State) (idx : Z) : bool :=
  match index2value L idx with Some v => is_table v | None => false end.
Definition lua_islightuserdata (L : lua_State) (idx : Z) : bool :=
  match index2value L idx with
  | Some (LLightUserdata _) => true
  | _ => false
  end.

(** [lua_touserdata]: the block address of a full userdata (all of the
    engine's are [ElunaObject]s); NULL for any other value.  The light
    userdata case is never reached in CHECKTYPE and is left NULL. *)
Definition lua_touserdata (L : lua_State) (idx : Z) : option ElunaObject :=
  match index2value L idx with
  | Some (LUserdata o) => Some o
  | _ => None
  end.

(** [luaL_typename(L, idx)] *)
Definition luaL_typename (L : lua_State) (idx : Z) : string :=
  match index2value L idx with
  | None => "no value"
  | Some LNil => "nil"
  | Some (LBoolean _) => "boolean"
  | Some (LNumber _) => "number"
  | Some (LString _) => "string"
  | Some (LTable _) => "table"
  | Some (LFunction _) | Some (LCClosure _ _) => "function"
  | Some (LUserdata _) | Some (LLightUserdata _) => "userdata"
  end.

Definition lua_toboolean (L : lua_State) (idx : Z) : bool :=
  match index2value L idx with
  | None | Some LNil | Some (LBoolean false) => false
  | Some _ => true
  end.

(** [lua_tostring]: NULL ([None]) unless a string or a number. *)
Definition tostring (lib : Library) (v : LuaValue) : option string :=
  match v with
  | LString s => Some s
  | LNumber d => Some (number2str lib d)
  | _ => None
  end.

(** The message of [luaL_argerror(L, narg, extramsg)].  The real text
    also names the running function, which only the interpreter's debug
    information knows; the argument number and [extramsg] are kept. *)
Definition argerror_message (narg : Z) (extramsg : string) : LuaValue :=
  LString ("bad argument #" +:+ pretty narg +:+ " (" +:+ extramsg +:+ ")").

Definition luaL_argerror {A} (narg : Z) (extramsg : string) : Result A :=
  LuaError (argerror_message narg extramsg).

(** [luaL_error(L, fmt, ...)] with the message already formatted. *)
Definition luaL_error {A} (msg : string) : Result A :=
  LuaError (LString msg).

(** [luaL_checknumber]: the number at [narg], a string that reads as a
    number included; a type error otherwise. *)
Definition luaL_checknumber (lib : Library) (L : lua_State) (narg : Z)
  : Result double :=
  match index2value L narg with
  | Some (LNumber d) => Ok d
  | Some (LString s) =>
      match str2number lib s with
      | Some d => Ok d
      | None => luaL_argerror narg ("number expected, got string")
      end
  | _ => luaL_argerror narg ("number expected, got " +:+ luaL_typename L narg)
  end.

Definition luaL_checkstring (lib : Library) (L : lua_State) (narg : Z)
  : Result string :=
  match index2value L narg with
  | Some v =>
      match tostring lib v with
      | Some s => Ok s
      | None =>
          luaL_argerror narg ("string expected, got " +:+ luaL_typename L narg)
      end
  | None => luaL_argerror narg "string expected, got no value"
  end.

(** Stack editing. *)
Definition push (v : LuaValue) (L : lua_State) : lua_State :=
  set_stack (stack L ++ [v]) L.

(** [lua_settop(L, idx)]: a non-negative [idx] is the new top, the stack
    is cut or filled with nil; a negative [idx] counts from the top and
    must not reach below the frame (outside the API's contract, [None]). *)
Definition lua_settop (idx : Z) (L : lua_State) : option lua_State :=
  if 0 <=? idx then
    Some (set_stack
            (take (Z.to_nat idx) (stack L ++ replicate (Z.to_nat idx) LNil)) L)
  else if - (idx + 1) <=? lua_gettop L then
    Some (set_stack (take (Z.to_nat (lua_gettop L + idx + 1)) (stack L)) L)
  else None.

(** [#define lua_pop(L, n) lua_settop(L, -(n)-1)] *)
Definition lua_pop (n : Z) (L : lua_State) : option lua_State :=
  lua_settop (- n - 1) L.

(** [lua_pushvalue(L, idx)]: a copy of the value at [idx] on top. *)
Definition lua_pushvalue (idx : Z) (L : lua_State) : option lua_State :=
  match index2value L idx with
  | Some v => Some (push v L)
  | None => None
  end.

(** [lua_insert(L, idx)], 1 <= idx <= top: the top value moves to
    [idx], the values from [idx] up shift one place. *)
Definition lua_insert (idx : Z) (L : lua_State) : option lua_State :=
  match last (stack L) with
  | Some v =>
      if (1 <=? idx) && (idx <=? lua_gettop L) then
        let below := removelast (stack L) in
        let i := Z.to_nat (idx - 1) in
        Some (set_stack (take i below ++ v :: drop i below) L)
      else None
  | None => None
  end.

(** [lua_remove(L, idx)], 1 <= idx <= top. *)
Definition lua_remove (idx : Z) (L : lua_State) : option lua_State :=
  if (1 <=? idx) && (idx <=? lua_gettop L) then
    let i := Z.to_nat (idx - 1) in
    Some (set_stack (take i (stack L) ++ drop (S i) (stack L)) L)
  else None.

Definition lua_getglobal (name : string) (L : lua_State) : lua_State :=
  push (default LNil (globals L !! name)) L.

(** [lua_getfield(L, -1, k)] on the table on top; a raw read, the
    engine's tables of interest carry no metatable. *)
Definition getfield (L : lua_State) (t : LuaValue) (k : string) : LuaValue :=
  match t with
  | LTable id => default LNil (fields L !! (id, k))
  | _ => LNil
  end.

(** [luaL_ref(L, LUA_REGISTRYINDEX)] pops the top value and files it
    under a key that no live reference uses; a nil value is not filed
    and yields LUA_REFNIL. *)
Definition LUA_REFNIL : Z := -1.
Definition LUA_NOREF : Z := -2.

Definition luaL_ref (L : lua_State) : option (Z * lua_State) :=
  match last (stack L) with
  | None => None
  | Some LNil => Some (LUA_REFNIL, set_stack (removelast (stack L)) L)
  | Some v =>
      let r : positive := fresh (dom (registry L)) in
      Some (Z.pos r,
            set_registry (<[r := v]> (registry L))
                         (set_stack (removelast (stack L)) L))
  end.

(** [luaL_unref]: releases a reference; LUA_NOREF and LUA_REFNIL (any
    negative value) are ignored. *)
Definition luaL_unref (ref : Z) (L : lua_State) : lua_State :=
  match ref with
  | Z.pos r => set_registry (delete r (registry L)) L
  | _ => L
  end.

(** [lua_rawgeti(L, LUA_REGISTRYINDEX, ref)] *)
Definition registry_get (L : lua_State) (ref : Z) : LuaValue :=
  match ref with
  | Z.pos r => default LNil (registry L !! r)
  | _ => LNil
  end.

(** [lua_gc(L, LUA_GCCOLLECT, 0)] *)
Definition lua_gc_collect (L : lua_State) : lua_State :=
  mkState (stack L) (registry L) (globals L) (fields L) (S (gc_cycles L))
    (package_loaded L).

(** How [lua_pcall] leaves the results of a call: exactly [nresults]
    values, padded with nil or truncated; all of them for LUA_MULTRET. *)
Definition LUA_MULTRET : Z := -1.

Definition adjust_results (nresults : Z) (vs : list LuaValue)
  : list LuaValue :=
  if nresults <? 0 then vs
  else take (Z.to_nat nresults) (vs ++ replicate (Z.to_nat nresults) LNil).

(** [lua_pushstring(L, s)]: [s] is a [const char*], the Lua string is
    its text up to the first NUL; a null [s] pushes nil. *)
Definition lua_pushstring (s : option string) (L : lua_State) : lua_State :=
  push (match s with Some str => LString (c_str str) | None => LNil end) L.

(** [lua_tostring(L, idx)] on a stack index: NULL unless a string or a
    number; a number is converted to a string in place.  The result
    points to the whole Lua string; who reads it as a C string sees
    [c_str] of it. *)
Definition lua_tostring (lib : Library) (idx : Z) (L : lua_State)
  : option string * lua_State :=
  match index2value L idx with
  | Some (LString s) => (Some s, L)
  | Some (LNumber d) =>
      let s := number2str lib d in
      let i := if 0 <? idx then Z.to_nat (idx - 1)
               else Z.to_nat (lua_gettop L + idx) in
      (Some s, set_stack (<[i := LString s]> (stack L)) L)
  | _ => (None, L)
  end.

(** The values a C function hands back when it returns [n]: the top [n]
    values of its stack. *)
Definition c_results (n : Z) (L : lua_State) : list LuaValue :=
  drop (length (stack L) - Z.to_nat n) (stack L).

(** What [lua_toboolean] makes of a value. *)
Definition truthy (v : LuaValue) : bool :=
  match v with
  | LNil | LBoolean false => false
  | _ => true
  end.

(** The text [luaL_tolstring] gives a value that has no [__tostring]
    metamethod: a number as [lua_tostring] writes it, a string as it
    is, [true], [false], [nil], and for any other value its kind (the
    [__name] of its metatable if that is a string, its type name
    otherwise) and its address.  [lua_topointer] is NULL for a value
    that is no object, as for no value at all. *)
Definition plain_text (lib : Library) (L : lua_State) (idx : Z) : string :=
  match index2value L idx with
  | Some (LNumber d) => number2str lib d
  | Some (LString s) => s
  | Some (LBoolean b) => if b then "true" else "false"
  | Some LNil => "nil"
  | Some v =>
      let kind := match metafield lib v "__name" with
                  | LString name => name
                  | _ => luaL_typename L idx
                  end in
      kind +:+ ": " +:+ pointer2str lib v
  | None => luaL_typename L idx +:+ ": " +:+ pointer2str lib LNil
  end.

(** [luaL_tolstring(L, idx, NULL)]: the value at [idx] as a string,
    which is pushed and returned.  If the value's metatable has a
    [__tostring] field, that metamethod is called on the value
    ([luaL_callmeta]: an unprotected [lua_call(L, 1, 1)]) and its
    result is the text; a result that is no string (or number) raises
    an error, and so does the metamethod when it fails. *)
Definition luaL_tolstring (lib : Library) (idx : Z) (L : lua_State)
  : Result string * lua_State :=
  let plain := (Ok (plain_text lib L idx),
                push (LString (plain_text lib L idx)) L) in
  match index2value L idx with
  | None => plain
  | Some v =>
      match metafield lib v "__tostring" with
      | LNil => plain
      | metamethod =>
          match callmeta lib metamethod v with
          | Ok r =>
              match tostring lib r with
              | Some text => (Ok text, push (LString text) L)
              | None =>
                  (luaL_error "'__tostring' must return a string", push r L)
              end
          | LuaError e => (LuaError e, L)
          | Fault w => (Fault w, L)
          end
      end
  end.

End Lua.
Export Lua.

(* ===================================================================== *)
(** * BindingMap.h: event keys and binding stores *)
(* ===================================================================== *)

(** The three key shapes the engine builds: [EventKey<T>(event_id)],
    [EntryKey<T>(event_id, entry)] and
    [UniqueObjectKey<T>(event_id, guid, instance_id)].  Equality is
    structural. *)
Variant Key : Type :=
  | EventKey (event_id : Z)
  | EntryKey (event_id : Z) (entry : Z)
  | UniqueObjectKey (event_id : Z) (guid : Z) (instance_id : Z).

#[export] Instance Key_eq_dec : EqDecision Key.
Proof. solve_decision. Defined.

Definition Key_code (k : Key) : Z + (Z * Z) + (Z * Z * Z) :=
  match k with
  | EventKey e => inl (inl e)
  | EntryKey e n => inl (inr (e, n))
  | UniqueObjectKey e g i => inr (e, g, i)
  end.

Definition Key_decode (c : Z + (Z * Z) + (Z * Z * Z)) : Key :=
  match c with
  | inl (inl e) => EventKey e
  | inl (inr (e, n)) => EntryKey e n
  | inr (e, g, i) => UniqueObjectKey e g i
  end.

#[export] Instance Key_countable : Countable Key.
Proof.
  apply (inj_countable' Key_code Key_decode).
  intros k. destruct k; reflexivity.
Defined.

(** The template argument of a [BindingMap<K>]: the key shape and the
    event enumeration.  [GetBinding<K>] finds a store through a
    [dynamic_cast] to this type. *)
Variant KeyType : Type :=
  | EventKeyOf (f : EventFamily)
  | EntryKeyOf (f : EventFamily)
  | UniqueObjectKeyOf (f : EventFamily).

#[export] Instance KeyType_eq_dec : EqDecision KeyType.
Proof. solve_decision. Defined.

Module BindingMap.

(** One callback registration: its binding id, the registry reference of
    the callable and the remaining invocation count (0 = unlimited). *)
Record Binding : Type := mkBinding {
  id : Z;
  functionReference : Z;
  remainingShots : Z
}.

Record t : Type := mkBindingMap {
  keyType : KeyType;
  maxBindingID : Z;
  bindings : gmap Key (list Binding)
}.

Definition empty (K : KeyType) : t := mkBindingMap K 0 ∅.

Definition bindings_for (key : Key) (m : t) : list Binding :=
  default [] (bindings m !! key).

(** Modelled from the spec: BindingMap::Insert (BindingMap.h is not among
    the sources).  "Appends a CallbackRegistration to [key]'s list;
    returns a new monotonic id; retains the callable." *)
Definition Insert (key : Key) (ref : Z) (shots : Z) (m : t) : Z * t :=
  let bid := maxBindingID m + 1 in
  (bid,
   mkBindingMap (keyType m) bid
     (<[key := bindings_for key m ++ [mkBinding bid ref shots]]> (bindings m))).

(** Modelled from the spec: BindingMap::HasBindingsFor.  "True iff the
    key's callback list is non-empty." *)
Definition HasBindingsFor (key : Key) (m : t) : bool :=
  match bindings_for key m with
  | [] => false
  | _ :: _ => true
  end.

(** Modelled from the spec: BindingMap::Clear.  "Removes all
    registrations for [key]." *)
Definition Clear (key : Key) (m : t) : t :=
  mkBindingMap (keyType m) (maxBindingID m) (delete key (bindings m)).

(** Modelled from the spec: BindingMap::Remove.  "Removes the matching
    registration wherever it is; a no-op if already removed." *)
Definition Remove (bid : Z) (m : t) : t :=
  mkBindingMap (keyType m) (maxBindingID m)
    (filter (fun b => negb (id b =? bid)) <$> bindings m).

End BindingMap.

(* ===================================================================== *)
(** * The host: maps, templates, configuration, the script loader *)
(* ===================================================================== *)

(** [Map]: what the engine asks of a host map. *)
Record Map : Type := mkMap {
  Instanceable : bool;
  GetId : Z;
  GetInstanceId : Z
}.

(** [struct LuaScript] (LuaEngine.h), without the bytecode buffer: what
    loading the bytecode yields is asked of the host. *)
Record LuaScript : Type := mkLuaScript {
  fileext : string;
  filename : string;
  filepath : string;
  modulepath : string;
  mapId : Z
}.

(** What running a Lua function can do, as far as the engine can tell:
    it ends by returning values or by raising an error value, and on the
    way it may call back into the host, which may push values, run a
    nested protected call ([Eluna::ExecuteCall]) or finish a nested
    dispatch ([Eluna::CleanUpStack]). *)
Inductive Script : Type :=
  | SReturn (results : list LuaValue)
  | SError (e : LuaValue)
  | SPush (v : LuaValue) (k : Script)
  | SSetGlobal (name : string) (v : LuaValue) (k : Script)
  | SExecuteCall (params res : Z) (body : Script) (k : Script)
  | SCleanUpStack (number_of_arguments : Z) (k : Script).

(** The collaborators the engine reaches through global singletons
    ([sElunaConfig], [eObjectMgr], [sElunaLoader]) and the host's
    opcode count. *)
Record Host : Type := mkHost {
  (** [sElunaConfig->GetConfig(CONFIG_ELUNA_TRACEBACK)] *)
  CONFIG_ELUNA_TRACEBACK : bool;
  NUM_MSG_TYPES : Z;
  (** [eObjectMgr->Get...Template(entry)] is not null *)
  GetCreatureTemplate : Z -> bool;
  GetGameObjectTemplate : Z -> bool;
  GetItemTemplate : Z -> bool;
  (** [sElunaLoader->GetLuaScripts()] *)
  GetLuaScripts : list LuaScript;
  (** [luaL_loadbuffer] on a script's bytecode: the compiled chunk, a
      function, or the error message *)
  luaL_loadbuffer : LuaScript -> LuaValue + LuaValue;
  (** what a Lua function does when it is called: of the chunks that
      [luaL_loadbuffer] compiles and of the loaders [require] finds *)
  function_body : LuaValue -> Script;
  (** what the searchers of the package library (preload, package.path,
      package.cpath) find for a module name: a loader and the value it
      is called with, or the text of why they found none *)
  package_searchers : string -> (LuaValue * LuaValue) + string;
  events : EventCounts;
  (** the integer value of a registration type (Hooks.h) *)
  regtype_value : RegisterTypes -> Z;
  lualib : Library
}.

(* ===================================================================== *)
(** * class Eluna: the engine state *)
(* ===================================================================== *)

(** The log sink of ELUNA_LOG_ERROR / _DEBUG / _INFO.  An error entry
    may carry a null C string ([None]): [Eluna::Report] prints whatever
    [lua_tostring] returns. *)
Variant LogEntry : Type :=
  | LogError (msg : option string)
  | LogDebug (msg : string)
  | LogInfo (msg : string).

(** The data members of [class Eluna] that LuaEngine.cpp reads and
    writes, for a build without TRACKABLE_PTR_NAMESPACE (the one that
    has [callstackid]).  [log] is the process-wide log, carried with the
    state so that what was logged can be stated. *)
Record Eluna : Type := mkEluna {
  reload : bool;
  (** uint64 *)
  callstackid : Z;
  (** uint32 *)
  event_level : Z;
  (** uint8 *)
  push_counter : Z;
  boundMap : option Map;
  instanceDataRefs : gmap Z Z;
  continentDataRefs : gmap Z Z;
  (** a store pointer may be null after [DestroyBindStores] *)
  bindingMaps : gmap RegisterTypes (option BindingMap.t);
  L : lua_State;
  log : list LogEntry
}.

Definition set_callstackid (v : Z) (E : Eluna) : Eluna :=
  mkEluna (reload E) v (event_level E) (push_counter E) (boundMap E)
    (instanceDataRefs E) (continentDataRefs E) (bindingMaps E) (L E) (log E).
Definition set_event_level (v : Z) (E : Eluna) : Eluna :=
  mkEluna (reload E) (callstackid E) v (push_counter E) (boundMap E)
    (instanceDataRefs E) (continentDataRefs E) (bindingMaps E) (L E) (log E).
Definition set_push_counter (v : Z) (E : Eluna) : Eluna :=
  mkEluna (reload E) (callstackid E) (event_level E) v (boundMap E)
    (instanceDataRefs E) (continentDataRefs E) (bindingMaps E) (L E) (log E).
Definition set_instanceDataRefs (v : gmap Z Z) (E : Eluna) : Eluna :=
  mkEluna (reload E) (callstackid E) (event_level E) (push_counter E)
    (boundMap E) v (continentDataRefs E) (bindingMaps E) (L E) (log E).
Definition set_continentDataRefs (v : gmap Z Z) (E : Eluna) : Eluna :=
  mkEluna (reload E) (callstackid E) (event_level E) (push_counter E)
    (boundMap E) (instanceDataRefs E) v (bindingMaps E) (L E) (log E).
Definition set_bindingMaps (v : gmap RegisterTypes (option BindingMap.t))
  (E : Eluna) : Eluna :=
  mkEluna (reload E) (callstackid E) (event_level E) (push_counter E)
    (boundMap E) (instanceDataRefs E) (continentDataRefs E) v (L E) (log E).
Definition set_L (v : lua_State) (E : Eluna) : Eluna :=
  mkEluna (reload E) (callstackid E) (event_level E) (push_counter E)
    (boundMap E) (instanceDataRefs E) (continentDataRefs E) (bindingMaps E)
    v (log E).
Definition add_log (e : LogEntry) (E : Eluna) : Eluna :=
  mkEluna (reload E) (callstackid E) (event_level E) (push_counter E)
    (boundMap E) (instanceDataRefs E) (continentDataRefs E) (bindingMaps E)
    (L E) (log E ++ [e]).

(** ** The monad of engine code: state, Lua errors and faults

    The state is returned on every path: a Lua error leaves the engine as
    it was when the error was raised. *)
Definition M (A : Type) : Type := Eluna -> Result A * Eluna.

Definition ret {A} (a : A) : M A := fun E => (Ok a, E).

Definition bind {A B} (m : M A) (f : A -> M B) : M B :=
  fun E =>
    match m E with
    | (Ok a, E') => f a E'
    | (LuaError e, E') => (LuaError e, E')
    | (Fault w, E') => (Fault w, E')
    end.

Notation "x <- c ;; k" := (bind c (fun x => k))
  (at level 100, c at next level, right associativity).
Notation "c ;;; k" := (bind c (fun _ => k))
  (at level 100, right associativity).

(** Raising: [throw r] ends with [r], which is an error or a fault. *)
Definition throw {A B} (r : Result B) : M A :=
  fun E =>
    match r with
    | Ok _ => (Fault "throw", E)
    | LuaError e => (LuaError e, E)
    | Fault w => (Fault w, E)
    end.

Definition ASSERT (cond : bool) (what : string) : M unit :=
  fun E => if cond then (Ok tt, E) else (Fault what, E).

(** A Lua API call on the engine's state [L]; a call outside the API's
    contract is a fault. *)
Definition onL (f : lua_State -> lua_State) : M unit :=
  fun E => (Ok tt, set_L (f (L E)) E).
Definition onL_checked (what : string) (f : lua_State -> option lua_State)
  : M unit :=
  fun E =>
    match f (L E) with
    | Some L' => (Ok tt, set_L L' E)
    | None => (Fault what, E)
    end.
(** A Lua API call that may raise an error. *)
Definition onL_result {A} (f : lua_State -> Result A * lua_State) : M A :=
  fun E => let r := f (L E) in (fst r, set_L (snd r) E).
Definition ELUNA_LOG (e : LogEntry) : M unit := fun E => (Ok tt, add_log e E).

Definition gets {A} (f : Eluna -> A) : M A := fun E => (Ok (f E), E).

(** [for (x : xs) body(x);] *)
Fixpoint for_each {A} (xs : list A) (body : A -> M unit) : M unit :=
  match xs with
  | [] => ret tt
  | x :: rest => body x ;;; for_each rest body
  end.

(** ** More of the Lua API: what [Eluna::StackTrace] needs *)

Definition lua_isstring (L : lua_State) (idx : Z) : bool :=
  match index2value L idx with Some v => is_string v | None => false end.

(** [lua_getfield(L, idx, k)]: pushes [t[k]] for the value [t] at [idx]. *)
Definition lua_getfield (idx : Z) (k : string) (L : lua_State) : lua_State :=
  push (getfield L (default LNil (index2value L idx)) k) L.

(** [lua_call(L, nargs, 1)]: the function and its [nargs] arguments on
    top of the stack are replaced by the call's single result. *)
Definition lua_call_1 (lib : Library) (nargs : nat) (L : lua_State)
  : option lua_State :=
  let st := stack L in
  if (S nargs <=? length st)%nat then
    let fpos := (length st - S nargs)%nat in
    match st !! fpos with
    | Some f =>
        Some (set_stack (take fpos st ++ [call1 lib f (drop (S fpos) st)]) L)
    | None => None
    end
  else None.

Definition LUA_OK : Z := 0.
Definition LUA_ERRRUN : Z := 2.

Definition UINT32_MOD : Z := 2 ^ 32.
Definition UINT64_MOD : Z := 2 ^ 64.

(* ===================================================================== *)
(** * LuaEngine.cpp: the call dispatcher *)
(* ===================================================================== *)

(** The pure part of the monad: results of checks that read the state. *)
Definition Rbind {A B} (r : Result A) (f : A -> Result B) : Result B :=
  match r with
  | Ok a => f a
  | LuaError e => LuaError e
  | Fault w => Fault w
  end.

Definition Rmap {A B} (f : A -> B) (r : Result A) : Result B :=
  Rbind r (fun a => Ok (f a)).

(** The C integer types of the integer checks.  A value of such a type is
    a [Z]; the type says which conversion produced it. *)
Variant IntKind : Type :=
  | signed_char
  | unsigned_char
  | short
  | unsigned_short
  | int
  | unsigned_int.

Definition cint (k : IntKind) : Type := Z.

Definition minT (k : IntKind) : Z :=
  match k with
  | signed_char => SCHAR_MIN
  | short => SHRT_MIN
  | int => INT_MIN
  | unsigned_char | unsigned_short | unsigned_int => 0
  end.

Definition maxT (k : IntKind) : Z :=
  match k with
  | signed_char => SCHAR_MAX
  | unsigned_char => UCHAR_MAX
  | short => SHRT_MAX
  | unsigned_short => USHRT_MAX
  | int => INT_MAX
  | unsigned_int => UINT_MAX
  end.

(** [template<typename T> T Eluna::CHECKVAL(int narg)]: declared in
    LuaEngine.h and defined by one specialisation per type [T]. *)
Class CheckVal (host : Host) (T : Type) : Type :=
  CHECKVAL : Eluna -> Z -> Result T.
Arguments CHECKVAL host T {_} E narg.

Section Engine.

Context (host : Host).

(** [void Eluna::InvalidateObjects()]:
    [++callstackid; ASSERT(callstackid && "Callstackid overflow");] *)
Definition InvalidateObjects : M unit :=
  (fun E => (Ok tt, set_callstackid ((callstackid E + 1) mod UINT64_MOD) E)) ;;;
  id <- gets callstackid ;;
  ASSERT (negb (id =? 0)) "Callstackid overflow".

(** [void Eluna::Report(lua_State* _L)], called on the engine's [L].
    [msg] is a [const char*] printed through ["%s"]. *)
Definition Report : M unit :=
  msg <- gets (fun E =>
           match index2value (L E) (-1) with
           | Some v => tostring (lualib host) v
           | None => None
           end) ;;
  ELUNA_LOG (LogError (c_str <$> msg)) ;;;
  onL_checked "lua_pop" (lua_pop 1).

(** [int Eluna::StackTrace(lua_State* _L)]: the message handler.  It
    returns 1: its result is the value left on top of its stack. *)
Definition StackTrace (_L : lua_State) : option (Z * lua_State) :=
  (* Stack: errmsg *)
  if negb (lua_isstring _L (-1)) then Some (1, _L) (* keep it intact *)
  else
    let L1 := lua_getglobal "debug" _L in
    if negb (lua_istable L1 (-1)) then
      L2 ← lua_pop 1 L1; Some (1, L2)
    else
      let L2 := lua_getfield (-1) "traceback" L1 in
      if negb (lua_isfunction L2 (-1)) then
        L3 ← lua_pop 2 L2; Some (1, L3)
      else
        L3 ← lua_pushvalue (-3) L2;
        let L4 := push (LNumber (of_Z 1)) L3 in
        L5 ← lua_call_1 (lualib host) 2 L4;
        Some (1, L5).

(** What a message handler [h] makes of the error value [e]: the handler
    runs on a stack that holds [e] and its top result replaces [e]. *)
Definition message_handler (h e : LuaValue) (L : lua_State) : LuaValue :=
  match h with
  | LCClosure CF_StackTrace _ =>
      match StackTrace (set_stack [e] L) with
      | Some (_, L') => default LNil (last (stack L'))
      | None => LNil
      end
  | _ => call1 (lualib host) h [e]
  end.

(** [lua_pcall(L, nargs, nresults, errfunc)].  [callee] is what running
    the function below the arguments does; it runs on a frame of its own
    that starts with the arguments.  The function and the arguments are
    replaced by the results, or by the one error value (after the
    message handler at [errfunc], if any).  Nothing is raised to the
    caller; a fault inside ends the process. *)
Definition lua_pcall (callee : M (list LuaValue))
  (nargs nresults errfunc : Z) : M Z :=
  fun E =>
    let st := stack (L E) in
    if negb ((0 <=? nargs) && (nargs + 1 <=? lua_gettop (L E))) then
      (Fault "lua_pcall: not enough values on the stack", E)
    else
      let fpos := (length st - Z.to_nat nargs - 1)%nat in
      let outer := take fpos st in
      let args := drop (S fpos) st in
      let h := if errfunc =? 0 then None else index2value (L E) errfunc in
      match callee (set_L (set_stack args (L E)) E) with
      | (Ok vs, E') =>
          (Ok LUA_OK,
           set_L (set_stack (outer ++ adjust_results nresults vs) (L E')) E')
      | (LuaError e, E') =>
          let e' := match h with
                    | Some hv => message_handler hv e (L E')
                    | None => e
                    end in
          (Ok LUA_ERRRUN, set_L (set_stack (outer ++ [e']) (L E')) E')
      | (Fault w, E') => (Fault w, E')
      end.

(** ["[Eluna]: Cannot execute call: registered value is %s, not a function."] *)
Definition not_a_function_message (text : string) : string :=
  "[Eluna]: Cannot execute call: registered value is " +:+ c_str text +:+
  ", not a function.".

(** [bool Eluna::ExecuteCall(int params, int res)], given what the
    function on the stack does when it is called. *)
Definition ExecuteCall_of (callee : M (list LuaValue)) (params res : Z)
  : M bool :=
  top <- gets (fun E => lua_gettop (L E)) ;;
  let base := top - params in
  (* Expected: function, [parameters] *)
  ASSERT (0 <? base) "base > 0" ;;;
  (* Check function type *)
  isfn <- gets (fun E => lua_isfunction (L E) base) ;;
  (if negb isfn then
     text <- onL_result (luaL_tolstring (lualib host) base) ;;
     ELUNA_LOG (LogError (Some (not_a_function_message text))) ;;;
     ASSERT false "stack probably corrupt"
   else ret tt) ;;;
  let usetrace := CONFIG_ELUNA_TRACEBACK host in
  (if usetrace then
     onL (push (LCClosure CF_StackTrace [])) ;;;
     (* Stack: function, [parameters], traceback *)
     onL_checked "lua_insert" (lua_insert base)
     (* Stack: traceback, function, [parameters] *)
   else ret tt) ;;;
  (* Objects are invalidated when event_level hits 0 *)
  (fun E => (Ok tt, set_event_level ((event_level E + 1) mod UINT32_MOD) E)) ;;;
  result <- lua_pcall callee params res (if usetrace then base else 0) ;;
  (fun E => (Ok tt, set_event_level ((event_level E - 1) mod UINT32_MOD) E)) ;;;
  (if usetrace then
     (* Stack: traceback, [results or errmsg] *)
     onL_checked "lua_remove" (lua_remove base)
   else ret tt) ;;;
  (* Stack: [results or errmsg] *)
  if negb (result =? 0) then
    (* Stack: errmsg *)
    Report ;;;
    (* Force garbage collect *)
    onL lua_gc_collect ;;;
    (* Push nils for expected amount of results *)
    onL (Nat.iter (Z.to_nat res) (push LNil)) ;;;
    (* Stack: [nils] *)
    ret false
  else
    (* Stack: [results] *)
    ret true.

(** [void Eluna::CleanUpStack(int number_of_arguments)] *)
Definition CleanUpStack (number_of_arguments : Z) : M unit :=
  (* Stack: event_id, [arguments] *)
  onL_checked "lua_pop" (lua_pop (number_of_arguments + 1)) ;;;
  (* Stack: (empty) *)
  lvl <- gets event_level ;;
  if lvl =? 0 then InvalidateObjects else ret tt.

(** Running a Lua function: the engine calls it re-enters are the
    engine's own functions, on the frame the script has built. *)
Fixpoint run (s : Script) : M (list LuaValue) :=
  match s with
  | SReturn results => ret results
  | SError e => fun E => (LuaError e, E)
  | SPush v k => onL (push v) ;;; run k
  | SSetGlobal name v k =>
      onL (fun L => set_globals (<[name := v]> (globals L)) L) ;;; run k
  | SExecuteCall params res body k =>
      ExecuteCall_of (run body) params res ;;; run k
  | SCleanUpStack number_of_arguments k =>
      CleanUpStack number_of_arguments ;;; run k
  end.

(** [Eluna::ExecuteCall(params, res)] when the function on the stack
    behaves as [body]. *)
Definition ExecuteCall (body : Script) (params res : Z) : M bool :=
  ExecuteCall_of (run body) params res.

(** [int Eluna::CallOneFunction(number_of_functions, number_of_arguments,
    number_of_results)], the function on top of the stack behaving as
    [body]. *)
Definition CallOneFunction (body : Script)
  (number_of_functions number_of_arguments number_of_results : Z) : M Z :=
  let number_of_arguments := number_of_arguments + 1 in
  ASSERT ((0 <? number_of_functions) && (0 <? number_of_arguments)
          && (0 <=? number_of_results)) "CallOneFunction" ;;;
  (* Stack: event_id, [arguments], [functions] *)
  functions_top <- gets (fun E => lua_gettop (L E)) ;;
  let first_function_index := functions_top - number_of_functions + 1 in
  let arguments_top := first_function_index - 1 in
  let first_argument_index := arguments_top - number_of_arguments + 1 in
  (* Copy the arguments from the bottom of the stack to the top. *)
  for_each (seqZ first_argument_index number_of_arguments)
    (fun argument_index =>
       onL_checked "lua_pushvalue" (lua_pushvalue argument_index)) ;;;
  (* Stack: event_id, [arguments], [functions], event_id, [arguments] *)
  ExecuteCall body number_of_arguments number_of_results ;;;
  let functions_top := functions_top - 1 in
  (* Stack: event_id, [arguments], [functions - 1], [results] *)
  ret (functions_top + 1).

(* ===================================================================== *)
(** * LuaEngine.cpp: the marshaling layer *)
(* ===================================================================== *)

(** The wrapper classes [T] of [ElunaTemplate<T>] that the engine's
    object pushes and checks name. *)
Variant Wrapper : Type :=
  | W_Object
  | W_WorldObject
  | W_Unit
  | W_Player
  | W_Creature
  | W_GameObject
  | W_Corpse
  | W_Item.

(** [ElunaTemplate<T>::tname] *)
Definition tname (T : Wrapper) : string :=
  match T with
  | W_Object => "Object"
  | W_WorldObject => "WorldObject"
  | W_Unit => "Unit"
  | W_Player => "Player"
  | W_Creature => "Creature"
  | W_GameObject => "GameObject"
  | W_Corpse => "Corpse"
  | W_Item => "Item"
  end.

(** The host's checked downcasts [Object::ToCreature()], [ToPlayer()],
    [ToGameObject()], [ToCorpse()]: the object itself when its type tag
    is the target's, null otherwise. *)
Definition ToCreature (o : Object) : option Object :=
  match GetTypeId o with TYPEID_UNIT => Some o | _ => None end.
Definition ToPlayer (o : Object) : option Object :=
  match GetTypeId o with TYPEID_PLAYER => Some o | _ => None end.
Definition ToGameObject (o : Object) : option Object :=
  match GetTypeId o with TYPEID_GAMEOBJECT => Some o | _ => None end.
Definition ToCorpse (o : Object) : option Object :=
  match GetTypeId o with TYPEID_CORPSE => Some o | _ => None end.

(** [void Eluna::Push()]: nil *)
Definition Push_nil : M unit := onL (push LNil).

(** The wrapper value for a host object: a userdata of class [T] stamped
    with the current callstack id. *)
Definition wrapper_of (T : Wrapper) (o : Object) (E : Eluna) : LuaValue :=
  LUserdata (mkElunaObject (tname T) (RefObject o) (callstackid E)).

(** Modelled from the spec: ElunaTemplate<T>::Push (ElunaTemplate.h is
    not among the sources).  "Absent/null references push a
    script-visible nothing value"; any other reference is pushed as a
    wrapper of class [T], a handle "stamped with the dispatch epoch
    active at creation". *)
Definition ElunaTemplate_Push (T : Wrapper) (p : option Object) : M unit :=
  match p with
  | None => onL (push LNil)
  | Some o => fun E => onL (push (wrapper_of T o E)) E
  end.

(** [template<typename T> void Eluna::Push(T const* ptr)] (LuaEngine.h) *)
Definition Push_T (T : Wrapper) (p : option Object) : M unit :=
  ElunaTemplate_Push T p.

(** [void Eluna::Push(Pet const* pet)] *)
Definition Push_Pet (pet : option Object) : M unit :=
  Push_T W_Creature pet.

(** [void Eluna::Push(TempSummon const* summon)] *)
Definition Push_TempSummon (summon : option Object) : M unit :=
  Push_T W_Creature summon.

(** [void Eluna::Push(Unit const* unit)] *)
Definition Push_Unit (unit_ : option Object) : M unit :=
  match unit_ with
  | None => Push_nil
  | Some u =>
      match GetTypeId u with
      | TYPEID_UNIT => Push_T W_Creature (ToCreature u)
      | TYPEID_PLAYER => Push_T W_Player (ToPlayer u)
      | _ => ElunaTemplate_Push W_Unit (Some u)
      end
  end.

(** [void Eluna::Push(WorldObject const* obj)] *)
Definition Push_WorldObject (obj : option Object) : M unit :=
  match obj with
  | None => Push_nil
  | Some o =>
      match GetTypeId o with
      | TYPEID_UNIT => Push_T W_Creature (ToCreature o)
      | TYPEID_PLAYER => Push_T W_Player (ToPlayer o)
      | TYPEID_GAMEOBJECT => Push_T W_GameObject (ToGameObject o)
      | TYPEID_CORPSE => Push_T W_Corpse (ToCorpse o)
      | _ => ElunaTemplate_Push W_WorldObject (Some o)
      end
  end.

(** [void Eluna::Push(Object const* obj)] *)
Definition Push_Object (obj : option Object) : M unit :=
  match obj with
  | None => Push_nil
  | Some o =>
      match GetTypeId o with
      | TYPEID_UNIT => Push_T W_Creature (ToCreature o)
      | TYPEID_PLAYER => Push_T W_Player (ToPlayer o)
      | TYPEID_GAMEOBJECT => Push_T W_GameObject (ToGameObject o)
      | TYPEID_CORPSE => Push_T W_Corpse (ToCorpse o)
      | _ => ElunaTemplate_Push W_Object (Some o)
      end
  end.

(** [ElunaObject* Eluna::CHECKTYPE(int narg, const char* tname, bool error)].
    A check reads the state and changes nothing, so it is a function of
    the state to a result.  [luaL_argerror] does not return. *)
Definition CHECKTYPE (E : Eluna) (narg : Z) (tname : option string)
  (error : bool) : Result (option ElunaObject) :=
  if lua_islightuserdata (L E) narg then
    if error then
      luaL_argerror narg "bad argument : userdata expected, got lightuserdata"
    else Ok None
  else
    let elunaObject := lua_touserdata (L E) narg in
    let mismatch :=
      match elunaObject, tname with
      | None, _ => true
      | Some o, Some n => negb (String.eqb (GetTypeName o) n)
      | Some _, None => false
      end in
    if mismatch then
      if error then
        luaL_argerror narg
          ("bad argument : " +:+ default "ElunaObject" tname +:+
           " expected, got " +:+
           match elunaObject with
           | Some o => GetTypeName o
           | None => luaL_typename (L E) narg
           end)
      else Ok None
    else Ok elunaObject.

(** The liveness of a handle: its stamp is 0 (always on the call stack)
    or the engine's current callstack id. *)
Definition IsValid (E : Eluna) (o : ElunaObject) : bool :=
  (obj_callstackid o =? 0) || (obj_callstackid o =? callstackid E).

(** Modelled from the spec: ElunaTemplate<T>::Check (ElunaTemplate.h is
    not among the sources).  The argument must be a wrapper of class [T]
    ([CHECKTYPE] with [T]'s name); "any later access to a handle first
    checks whether its epoch still matches the current epoch; on
    mismatch, the access is rejected as invalid rather than
    dereferenced". *)
Definition ElunaTemplate_Check (T : Wrapper) (E : Eluna) (narg : Z)
  (error : bool) : Result (option ObjRef) :=
  match CHECKTYPE E narg (Some (tname T)) error with
  | Ok None => Ok None
  | Ok (Some elunaObj) =>
      if IsValid E elunaObj then Ok (Some (GetObj elunaObj))
      else if error then
        luaL_argerror narg
          (tname T +:+ " expected, got pointer to an invalidated object")
      else Ok None
  | LuaError e => LuaError e
  | Fault w => Fault w
  end.

(** Sequencing of checks: [T* obj = first; if (!obj) obj = second;] *)
Definition or_else {A} (first : Result (option A))
  (second : Result (option A)) : Result (option A) :=
  match first with
  | Ok None => second
  | other => other
  end.

(** [template<> Unit* Eluna::CHECKOBJ<Unit>(int narg, bool error)] *)
Definition CHECKOBJ_Unit (E : Eluna) (narg : Z) (error : bool)
  : Result (option ObjRef) :=
  or_else (ElunaTemplate_Check W_Player E narg false)
    (or_else (ElunaTemplate_Check W_Creature E narg false)
       (ElunaTemplate_Check W_Unit E narg error)).

(** [template<> WorldObject* Eluna::CHECKOBJ<WorldObject>(int narg, bool error)] *)
Definition CHECKOBJ_WorldObject (E : Eluna) (narg : Z) (error : bool)
  : Result (option ObjRef) :=
  or_else (CHECKOBJ_Unit E narg false)
    (or_else (ElunaTemplate_Check W_GameObject E narg false)
       (or_else (ElunaTemplate_Check W_Corpse E narg false)
          (ElunaTemplate_Check W_WorldObject E narg error))).

(** [template<> Object* Eluna::CHECKOBJ<Object>(int narg, bool error)] *)
Definition CHECKOBJ_Object (E : Eluna) (narg : Z) (error : bool)
  : Result (option ObjRef) :=
  or_else (CHECKOBJ_WorldObject E narg false)
    (or_else (ElunaTemplate_Check W_Item E narg false)
       (ElunaTemplate_Check W_Object E narg error)).

(** [template<typename T> T* CHECKOBJ(int narg, bool error = true)]
    with its three specialisations. *)
Definition CHECKOBJ (T : Wrapper) (E : Eluna) (narg : Z) (error : bool)
  : Result (option ObjRef) :=
  match T with
  | W_Object => CHECKOBJ_Object E narg error
  | W_WorldObject => CHECKOBJ_WorldObject E narg error
  | W_Unit => CHECKOBJ_Unit E narg error
  | _ => ElunaTemplate_Check T E narg error
  end.

(** [template<> ElunaObject* Eluna::CHECKOBJ<ElunaObject>(int narg, bool error)] *)
Definition CHECKOBJ_ElunaObject (E : Eluna) (narg : Z) (error : bool)
  : Result (option ElunaObject) :=
  CHECKTYPE E narg None error.

(** [static int CheckIntegerRange(lua_State*, int narg, int min, int max)] *)
Definition CheckIntegerRange (luastate : lua_State) (narg min max : Z)
  : Result Z :=
  Rbind (luaL_checknumber (lualib host) luastate narg) (fun value =>
    if dgt_int value max then
      luaL_argerror narg
        ("value must be less than or equal to " +:+ pretty max)
    else if dlt_int value min then
      luaL_argerror narg
        ("value must be greater than or equal to " +:+ pretty min)
    else
      match static_cast_int value with
      | Some n => Ok n
      | None => Fault "static_cast<int>: the value has no int"
      end).

(** [static unsigned int CheckUnsignedRange(lua_State*, int narg, unsigned int max)] *)
Definition CheckUnsignedRange (luastate : lua_State) (narg max : Z)
  : Result Z :=
  Rbind (luaL_checknumber (lualib host) luastate narg) (fun value =>
    if dlt_int value 0 then
      luaL_argerror narg "value must be greater than or equal to 0"
    else if dgt_int value max then
      luaL_argerror narg
        ("value must be less than or equal to " +:+ pretty max)
    else
      match static_cast_uint value with
      | Some n => Ok n
      | None => Fault "static_cast<unsigned int>: the value has no unsigned int"
      end).

(** [template<> bool Eluna::CHECKVAL<bool>(int narg)] *)
#[global] Instance CHECKVAL_bool : CheckVal host bool :=
  fun E narg => Ok (lua_toboolean (L E) narg).

(** [template<> double Eluna::CHECKVAL<double>(int narg)] *)
#[global] Instance CHECKVAL_double : CheckVal host double :=
  fun E narg => luaL_checknumber (lualib host) (L E) narg.

(** The six integer specialisations, [CHECKVAL<signed char>] to
    [CHECKVAL<unsigned int>].  Each returns the helper's [int] or
    [unsigned int] converted to its own return type. *)
#[global] Instance CHECKVAL_integer (k : IntKind) : CheckVal host (cint k) :=
  fun E narg =>
    match k with
    | signed_char =>
        Rmap (wrap_signed 8) (CheckIntegerRange (L E) narg SCHAR_MIN SCHAR_MAX)
    | unsigned_char =>
        Rmap (wrap_unsigned 8) (CheckUnsignedRange (L E) narg UCHAR_MAX)
    | short =>
        Rmap (wrap_signed 16) (CheckIntegerRange (L E) narg SHRT_MIN SHRT_MAX)
    | unsigned_short =>
        Rmap (wrap_unsigned 16) (CheckUnsignedRange (L E) narg USHRT_MAX)
    | int => CheckIntegerRange (L E) narg INT_MIN INT_MAX
    | unsigned_int => CheckUnsignedRange (L E) narg UINT_MAX
    end.

(** [template<> std::string Eluna::CHECKVAL<std::string>(int narg)] and
    [CHECKVAL<const char*>]: [return luaL_checkstring(L, narg);], a
    [const char*], from which the [std::string] is built. *)
#[global] Instance CHECKVAL_string : CheckVal host string :=
  fun E narg => Rmap c_str (luaL_checkstring (lualib host) (L E) narg).

(** [template<typename T> T CHECKVAL(int narg, T def)] (LuaEngine.h):
    [return lua_isnoneornil(L, narg) ? def : CHECKVAL<T>(narg);] *)
Definition CHECKVAL_def (T : Type) `{CheckVal host T} (E : Eluna) (narg : Z)
  (def : T) : Result T :=
  if lua_isnoneornil (L E) narg then Ok def else CHECKVAL host T E narg.

(* ===================================================================== *)
(** * LuaEngine.cpp / LuaEngine.h: binding stores and registration *)
(* ===================================================================== *)

(** [template<typename T> void CreateBinding(Hooks::RegisterTypes type)] *)
Definition CreateBinding (K : KeyType) (type : RegisterTypes) : M unit :=
  fun E =>
    (Ok tt,
     set_bindingMaps (<[type := Some (BindingMap.empty K)]> (bindingMaps E)) E).

(** [void Eluna::DestroyBindStores()]: every stored pointer is reset. *)
Definition DestroyBindStores : M unit :=
  fun E => (Ok tt, set_bindingMaps ((fun _ => None) <$> bindingMaps E) E).

(** [void Eluna::CreateBindStores()] *)
Definition CreateBindStores : M unit :=
  DestroyBindStores ;;;
  CreateBinding (EventKeyOf ServerEvents) REGTYPE_SERVER ;;;
  CreateBinding (EventKeyOf PlayerEvents) REGTYPE_PLAYER ;;;
  CreateBinding (EventKeyOf GuildEvents) REGTYPE_GUILD ;;;
  CreateBinding (EventKeyOf GroupEvents) REGTYPE_GROUP ;;;
  CreateBinding (EventKeyOf VehicleEvents) REGTYPE_VEHICLE ;;;
  CreateBinding (EventKeyOf BGEvents) REGTYPE_BG ;;;
  CreateBinding (EntryKeyOf PacketEvents) REGTYPE_PACKET ;;;
  CreateBinding (EntryKeyOf CreatureEvents) REGTYPE_CREATURE ;;;
  CreateBinding (EntryKeyOf GossipEvents) REGTYPE_CREATURE_GOSSIP ;;;
  CreateBinding (EntryKeyOf GameObjectEvents) REGTYPE_GAMEOBJECT ;;;
  CreateBinding (EntryKeyOf GossipEvents) REGTYPE_GAMEOBJECT_GOSSIP ;;;
  CreateBinding (EntryKeyOf SpellEvents) REGTYPE_SPELL ;;;
  CreateBinding (EntryKeyOf ItemEvents) REGTYPE_ITEM ;;;
  CreateBinding (EntryKeyOf GossipEvents) REGTYPE_ITEM_GOSSIP ;;;
  CreateBinding (EntryKeyOf GossipEvents) REGTYPE_PLAYER_GOSSIP ;;;
  CreateBinding (EntryKeyOf InstanceEvents) REGTYPE_MAP ;;;
  CreateBinding (EntryKeyOf InstanceEvents) REGTYPE_INSTANCE ;;;
  CreateBinding (UniqueObjectKeyOf CreatureEvents) REGTYPE_CREATURE_UNIQUE.

(** [template<typename T> BindingMap<T>* GetBinding(type)]: null when no
    store is filed under [type], when its pointer was reset, or when the
    store is not a [BindingMap<T>]. *)
Definition GetBinding (K : KeyType) (type : RegisterTypes) (E : Eluna)
  : option BindingMap.t :=
  match bindingMaps E !! type with
  | Some (Some m) =>
      if decide (BindingMap.keyType m = K) then Some m else None
  | _ => None
  end.

(** A member call through the pointer [GetBinding<K>(type)] returns.
    A mutating method updates the store in place; a call through a null
    pointer is a fault. *)
Definition call_binding {A} (K : KeyType) (type : RegisterTypes)
  (method : BindingMap.t -> A * BindingMap.t) : M A :=
  fun E =>
    match GetBinding K type E with
    | Some m =>
        (Ok (fst (method m)),
         set_bindingMaps (<[type := Some (snd (method m))]> (bindingMaps E)) E)
    | None => (Fault "null BindingMap", E)
    end.

(** The same for a method that only reads the store. *)
Definition ask_binding {A} (K : KeyType) (type : RegisterTypes)
  (method : BindingMap.t -> A) : M A :=
  fun E =>
    match GetBinding K type E with
    | Some m => (Ok (method m), E)
    | None => (Fault "null BindingMap", E)
    end.

(** [lua_pushcclosure(L, fn, n)]: the top [n] values become the
    upvalues of a new closure, which replaces them. *)
Definition lua_pushcclosure (fn : CFunction) (n : nat) (L : lua_State)
  : option lua_State :=
  let st := stack L in
  if (n <=? length st)%nat then
    let keep := (length st - n)%nat in
    Some (set_stack (take keep st ++ [LCClosure fn (drop keep st)]) L)
  else None.

(** [void Eluna::Push(const unsigned long long l)]: a boxed copy of the
    value ([ElunaTemplate<unsigned long long>]); a value is not bound to
    a call stack, its stamp is 0. *)
Definition Push_uint64 (l : Z) : M unit :=
  onL (push (LUserdata (mkElunaObject "unsigned long long" (RefUInt64 l) 0))).

(** [static void createCancelCallback(Eluna* e, uint64 bindingID,
    BindingMap<K>* bindings)] *)
Definition createCancelCallback (bindingID : Z) (bindings : RegisterTypes)
  : M unit :=
  Push_uint64 bindingID ;;;
  onL (push (LLightUserdata (PtrBindingMap bindings))) ;;;
  (* Stack: bindingID, bindings *)
  onL_checked "lua_pushcclosure" (lua_pushcclosure CF_cancelBinding 2).
  (* Stack: cancel_callback *)

(** [template<typename K> int RegisterBasicBinding(...)] *)
Definition RegisterBasicBinding (K : EventFamily) (regtype : RegisterTypes)
  (event_id functionRef shots : Z) : M Z :=
  let key := EventKey event_id in
  bindingID <- call_binding (EventKeyOf K) regtype
                 (BindingMap.Insert key functionRef shots) ;;
  createCancelCallback bindingID regtype ;;;
  ret 1. (* Stack: callback *)

(** [template<typename K> int RegisterEntryBinding(...)] *)
Definition RegisterEntryBinding (K : EventFamily) (regtype : RegisterTypes)
  (entry event_id functionRef shots : Z) : M Z :=
  let key := EntryKey event_id entry in
  bindingID <- call_binding (EntryKeyOf K) regtype
                 (BindingMap.Insert key functionRef shots) ;;
  createCancelCallback bindingID regtype ;;;
  ret 1. (* Stack: callback *)

(** [template<typename K> int RegisterUniqueBinding(...)] *)
Definition RegisterUniqueBinding (K : EventFamily) (regtype : RegisterTypes)
  (guid instanceId event_id functionRef shots : Z) : M Z :=
  let key := UniqueObjectKey event_id guid instanceId in
  bindingID <- call_binding (UniqueObjectKeyOf K) regtype
                 (BindingMap.Insert key functionRef shots) ;;
  createCancelCallback bindingID regtype ;;;
  ret 1. (* Stack: callback *)

(** [luaL_unref(L, LUA_REGISTRYINDEX, functionRef); luaL_error(L, msg);] *)
Definition unref_and_error {A} (functionRef : Z) (msg : string) : M A :=
  onL (luaL_unref functionRef) ;;;
  throw (luaL_error (A := unit) msg).

Definition not_found_message (what : string) (entry : Z) : string :=
  "Couldn't find a " +:+ what +:+ " with (ID: " +:+ pretty entry +:+ ")!".

Definition unknown_event_message (regtype : RegisterTypes)
  (entry guid instanceId event_id : Z) : string :=
  "Unknown event type (regtype " +:+ pretty (regtype_value host regtype) +:+
  ", event " +:+ pretty event_id +:+ ", entry " +:+ pretty entry +:+
  ", guid " +:+ pretty guid +:+ ", instance " +:+ pretty instanceId +:+ ")".

(** [int Eluna::Register(regtype, entry, guid, instanceId, event_id,
    functionRef, shots)].  A [break] out of the switch reaches the code
    after it, [unknown] below. *)
Definition Register (regtype : RegisterTypes)
  (entry guid instanceId event_id functionRef shots : Z) : M Z :=
  let ev := events host in
  let unknown : M Z :=
    unref_and_error functionRef
      (unknown_event_message regtype entry guid instanceId event_id) in
  match regtype with
  | REGTYPE_SERVER =>
      if event_id <? SERVER_EVENT_COUNT ev then
        RegisterBasicBinding ServerEvents regtype event_id functionRef shots
      else unknown
  | REGTYPE_PLAYER =>
      if event_id <? PLAYER_EVENT_COUNT ev then
        RegisterBasicBinding PlayerEvents regtype event_id functionRef shots
      else unknown
  | REGTYPE_GUILD =>
      if event_id <? GUILD_EVENT_COUNT ev then
        RegisterBasicBinding GuildEvents regtype event_id functionRef shots
      else unknown
  | REGTYPE_GROUP =>
      if event_id <? GROUP_EVENT_COUNT ev then
        RegisterBasicBinding GroupEvents regtype event_id functionRef shots
      else unknown
  | REGTYPE_VEHICLE =>
      if event_id <? VEHICLE_EVENT_COUNT ev then
        RegisterBasicBinding VehicleEvents regtype event_id functionRef shots
      else unknown
  | REGTYPE_BG =>
      if event_id <? BG_EVENT_COUNT ev then
        RegisterBasicBinding BGEvents regtype event_id functionRef shots
      else unknown
  | REGTYPE_PACKET =>
      if event_id <? PACKET_EVENT_COUNT ev then
        if NUM_MSG_TYPES host <=? entry then
          unref_and_error functionRef (not_found_message "creature" entry)
        else
          RegisterEntryBinding PacketEvents regtype entry event_id
            functionRef shots
      else unknown
  | REGTYPE_CREATURE =>
      if event_id <? CREATURE_EVENT_COUNT ev then
        if negb (GetCreatureTemplate host entry) then
          unref_and_error functionRef (not_found_message "creature" entry)
        else
          RegisterEntryBinding CreatureEvents regtype entry event_id
            functionRef shots
      else unknown
  | REGTYPE_CREATURE_UNIQUE =>
      if event_id <? CREATURE_EVENT_COUNT ev then
        if guid =? 0 then
          unref_and_error functionRef "guid was 0!"
        else
          RegisterUniqueBinding CreatureEvents regtype guid instanceId
            event_id functionRef shots
      else unknown
  | REGTYPE_CREATURE_GOSSIP =>
      if event_id <? GOSSIP_EVENT_COUNT ev then
        if negb (GetCreatureTemplate host entry) then
          unref_and_error functionRef (not_found_message "creature" entry)
        else
          RegisterEntryBinding GossipEvents regtype entry event_id
            functionRef shots
      else unknown
  | REGTYPE_GAMEOBJECT =>
      if event_id <? GAMEOBJECT_EVENT_COUNT ev then
        if negb (GetGameObjectTemplate host entry) then
          unref_and_error functionRef (not_found_message "gameobject" entry)
        else
          RegisterEntryBinding GameObjectEvents regtype entry event_id
            functionRef shots
      else unknown
  | REGTYPE_GAMEOBJECT_GOSSIP =>
      if event_id <? GOSSIP_EVENT_COUNT ev then
        if negb (GetGameObjectTemplate host entry) then
          unref_and_error functionRef (not_found_message "gameobject" entry)
        else
          RegisterEntryBinding GossipEvents regtype entry event_id
            functionRef shots
      else unknown
  | REGTYPE_SPELL =>
      if event_id <? SPELL_EVENT_COUNT ev then
        RegisterEntryBinding SpellEvents regtype entry event_id
          functionRef shots
      else unknown
  | REGTYPE_ITEM =>
      if event_id <? ITEM_EVENT_COUNT ev then
        if negb (GetItemTemplate host entry) then
          unref_and_error functionRef (not_found_message "item" entry)
        else
          RegisterEntryBinding ItemEvents regtype entry event_id
            functionRef shots
      else unknown
  | REGTYPE_ITEM_GOSSIP =>
      if event_id <? GOSSIP_EVENT_COUNT ev then
        if negb (GetItemTemplate host entry) then
          unref_and_error functionRef (not_found_message "item" entry)
        else
          RegisterEntryBinding GossipEvents regtype entry event_id
            functionRef shots
      else unknown
  | REGTYPE_PLAYER_GOSSIP =>
      if event_id <? GOSSIP_EVENT_COUNT ev then
        RegisterEntryBinding GossipEvents regtype entry event_id
          functionRef shots
      else unknown
  | REGTYPE_MAP
  | REGTYPE_INSTANCE =>
      if event_id <? INSTANCE_EVENT_COUNT ev then
        RegisterEntryBinding InstanceEvents regtype entry event_id
          functionRef shots
      else unknown
  | REGTYPE_UNKNOWN _ => unknown
  end.

(* ===================================================================== *)
(** * LuaEngine.cpp: the loader of precompiled scripts *)
(* ===================================================================== *)

(** ["\n\tno precompiled script '%s' found"] *)
Definition no_precompiled_script (modname : string) : string :=
  String (Ascii.ascii_of_nat 10) (String (Ascii.ascii_of_nat 9)
    ("no precompiled script '" +:+ modname +:+ "' found")).

(** [static int PrecompiledLoader(lua_State* L)]: the number of results
    it returns, or the error it raises, and the stack it leaves.
    [modname] is a [const char*]: the comparison with a script's file
    name and the message see it up to its first NUL. *)
Definition PrecompiledLoader (L : lua_State) : Result Z * lua_State :=
  let '(modname, L1) := lua_tostring (lualib host) 1 L in
  match modname with
  | None => (Ok 0, L1)
  | Some modname =>
      let modname := c_str modname in
      match List.find (fun script => String.eqb (filename script) modname)
              (GetLuaScripts host) with
      | None =>
          (Ok 1, push (LString (no_precompiled_script modname)) L1)
      | Some it =>
          match luaL_loadbuffer host it with
          | inr errmsg =>
              (* Stack: modname, errmsg *)
              (LuaError errmsg, push errmsg L1)
          | inl filefunction =>
              (* Stack: modname, filefunction *)
              (* Stack: modname, filefunction, modpath *)
              (Ok 2,
               lua_pushstring (Some (filepath it)) (push filefunction L1))
          end
      end
  end.

(** ** [require], with the searchers as [Eluna::OpenLua] leaves them

    The package library is the interpreter's; what follows is the
    reference manual's account of [require] (Lua 5.2 and later), with
    [PrecompiledLoader] as the first searcher, where [OpenLua] puts it. *)

(** A call from C, [lua_call], of a function that runs as [body] on the
    arguments [args]: the function has a frame of its own, and the
    caller's frame is as it was when the function returns.  The call is
    not protected: an error goes to the caller's caller. *)
Definition call_with (args : list LuaValue) (body : M (list LuaValue))
  : M (list LuaValue) :=
  fun E =>
    match body (set_L (set_stack args (L E)) E) with
    | (Ok vs, E') => (Ok vs, set_L (set_stack (stack (L E)) (L E')) E')
    | other => other
    end.

(** A C function as the body of a call: its results are the top values
    of its frame. *)
Definition c_function (f : lua_State -> Result Z * lua_State)
  : M (list LuaValue) :=
  n <- onL_result f ;;
  gets (fun E => c_results n (L E)).

(** The loader of a module and the value it is to be called with: each
    searcher is called with the name and answers with a loader (a
    function) and a value, or with a string that says why it has none.
    The first searcher is [PrecompiledLoader]; the searchers of the
    package library follow.  When none finds a loader, the error names
    the module and gives the searchers' reasons. *)
Definition findloader (name : string) : M (LuaValue * LuaValue) :=
  found <- call_with [LString name] (c_function PrecompiledLoader) ;;
  let answer := adjust_results 2 found in
  let loader := default LNil (answer !! 0%nat) in
  if is_function loader then ret (loader, default LNil (answer !! 1%nat))
  else
    match package_searchers host name with
    | inl elsewhere => ret elsewhere
    | inr reasons =>
        throw (luaL_error (A := unit)
                 ("module '" +:+ name +:+ "' not found:" +:+
                  default "" (tostring (lualib host) loader) +:+ reasons))
    end.

(** [require(modname)], on a frame that holds its argument.  A module
    that [package.loaded] already holds is returned as it is.
    Otherwise the loader is called with the name and the searcher's
    value; what it returns, if not nil, is filed in [package.loaded],
    and [true] is filed if nothing was.  The name is read as a C
    string. *)
Definition require : M (list LuaValue) :=
  arg <- (fun E => (luaL_checkstring (lualib host) (L E) 1, E)) ;;
  let name := c_str arg in
  let file (v : LuaValue) : M unit :=
    onL (fun L => set_package_loaded (<[name := v]> (package_loaded L)) L) in
  already <- gets (fun E => default LNil (package_loaded (L E) !! name)) ;;
  if truthy already then ret [already]
  else
    found <- findloader name ;;
    results <- call_with [LString name; snd found]
                 (run (function_body host (fst found))) ;;
    let value := default LNil (head results) in
    (match value with LNil => ret tt | _ => file value end) ;;;
    stored <- gets (fun E => default LNil (package_loaded (L E) !! name)) ;;
    match stored with
    | LNil => file (LBoolean true) ;;; ret [LBoolean true]
    | _ => ret [stored]
    end.

(* ===================================================================== *)
(** * LuaEngine.cpp: running the script batch *)
(* ===================================================================== *)

(** [int32 GetBoundMapId() const] and [uint32 GetBoundInstanceId() const] *)
Definition GetBoundMapId (E : Eluna) : Z :=
  match boundMap E with
  | Some map => GetId map
  | None => -1
  end.

Definition GetBoundInstanceId (E : Eluna) : Z :=
  match boundMap E with
  | Some map => GetInstanceId map
  | None => 0
  end.

(** The texts of the loop's log lines; each name goes through
    [c_str()] and ["%s"]. *)
Definition tagged_message (it : LuaScript) (boundMapId : Z) : string :=
  "[Eluna]: `" +:+ c_str (filename it) +:+ "` is tagged " +:+
  pretty (mapId it) +:+ " and will not load for map: " +:+ pretty boundMapId.

Definition duplicate_message (it : LuaScript) (loaded_from : string) : string :=
  "[Eluna]: Error loading `" +:+ c_str (filepath it) +:+
  "`. File with same name already loaded from `" +:+ c_str loaded_from +:+
  "`, rename either file".

Definition loaded_message (it : LuaScript) : string :=
  "[Eluna]: Successfully loaded `" +:+ c_str (filepath it) +:+ "`".

(** The locals the loop of [RunScripts] carries from one script to the
    next: [loaded] (file name to path) and [count]. *)
Definition BatchLocals : Type := gmap string string * Z.

(** One pass through the body of the [for] loop of [Eluna::RunScripts];
    every [continue] and the end of the body yield the locals.  The
    function the global [require] holds behaves as [require] above. *)
Definition RunScripts_body (boundMapId : Z) (it : LuaScript)
  (locals : BatchLocals) : M BatchLocals :=
  let '(loaded, count) := locals in
  (* check that the script file is either global or meant to be loaded
     for this map *)
  if negb (mapId it =? -1) && negb (mapId it =? boundMapId) then
    ELUNA_LOG (LogDebug (tagged_message it boundMapId)) ;;;
    ret (loaded, count)
  else
    (* Check that no duplicate names exist *)
    match loaded !! filename it with
    | Some loaded_from =>
        ELUNA_LOG (LogError (Some (duplicate_message it loaded_from))) ;;;
        ret (loaded, count)
    | None =>
        let loaded := <[filename it := filepath it]> loaded in
        (* We call require on the filename to load the script *)
        onL_checked "lua_pushvalue" (lua_pushvalue (-1)) ;;;
        (* Stack: require, require *)
        onL (lua_pushstring (Some (filename it))) ;;;
        (* Stack: require, require, filename *)
        ok <- ExecuteCall_of require 1 0 ;;
        if ok : bool then
          (* Successfully called require on the script *)
          ELUNA_LOG (LogDebug (loaded_message it)) ;;;
          ret (loaded, (count + 1) mod UINT32_MOD)
        else
          (* Stack: require *)
          ret (loaded, count)
    end.

(** The [for] loop over the loader's scripts. *)
Fixpoint RunScripts_loop (boundMapId : Z) (scripts : list LuaScript)
  (locals : BatchLocals) : M BatchLocals :=
  match scripts with
  | [] => ret locals
  | it :: rest =>
      locals' <- RunScripts_body boundMapId it locals ;;
      RunScripts_loop boundMapId rest locals'
  end.

(** [void Eluna::RunScripts()].  [OnLuaStateOpen] is the hook the
    function ends with; it belongs to the hook files.  The elapsed time
    of the closing log line is left out of the text. *)
Definition RunScripts (OnLuaStateOpen : M unit) : M unit :=
  boundMapId <- gets GetBoundMapId ;;
  boundInstanceId <- gets GetBoundInstanceId ;;
  ELUNA_LOG (LogDebug ("[Eluna]: Running scripts for state: " +:+
                       pretty boundMapId +:+ ", instance: " +:+
                       pretty boundInstanceId)) ;;;
  onL (lua_getglobal "require") ;;;
  (* Stack: require *)
  locals <- RunScripts_loop boundMapId (GetLuaScripts host) (∅, 0) ;;
  (* Stack: require *)
  onL_checked "lua_pop" (lua_pop 1) ;;;
  ELUNA_LOG (LogInfo ("[Eluna]: Executed " +:+ pretty (snd locals) +:+
                      " Lua scripts for map: " +:+ pretty boundMapId +:+
                      ", instance: " +:+ pretty boundInstanceId)) ;;;
  OnLuaStateOpen.

(* ===================================================================== *)
(** * LuaEngine.cpp: the instance data store *)
(* ===================================================================== *)

(** [bool Eluna::HasInstanceData(Map const* map)] *)
Definition HasInstanceData (map : Map) (E : Eluna) : bool :=
  if negb (Instanceable map) then
    bool_decide (is_Some (continentDataRefs E !! GetId map))
  else
    bool_decide (is_Some (instanceDataRefs E !! GetInstanceId map)).

(** [luaL_ref] on the engine's state. *)
Definition do_luaL_ref : M Z :=
  fun E =>
    match luaL_ref (L E) with
    | Some (ref, L') => (Ok ref, set_L L' E)
    | None => (Fault "luaL_ref: empty stack", E)
    end.

(** [void Eluna::CreateInstanceData(Map const* map)] *)
Definition CreateInstanceData (map : Map) : M unit :=
  istable <- gets (fun E => lua_istable (L E) (-1)) ;;
  ASSERT istable "lua_istable(L, -1)" ;;;
  ref <- do_luaL_ref ;;
  if negb (Instanceable map) then
    let mapId := GetId map in
    (* If there's another table that was already stored for the map,
       unref it. *)
    mapRef <- gets (fun E => continentDataRefs E !! mapId) ;;
    match mapRef with
    | Some second => onL (luaL_unref second)
    | None => ret tt
    end ;;;
    (fun E =>
       (Ok tt, set_continentDataRefs (<[mapId := ref]> (continentDataRefs E)) E))
  else
    let instanceId := GetInstanceId map in
    (* If there's another table that was already stored for the
       instance, unref it. *)
    instRef <- gets (fun E => instanceDataRefs E !! instanceId) ;;
    match instRef with
    | Some second => onL (luaL_unref second)
    | None => ret tt
    end ;;;
    (fun E =>
       (Ok tt, set_instanceDataRefs (<[instanceId := ref]> (instanceDataRefs E)) E)).

(** The body of the loop of [Eluna::FreeInstanceId] for the event [i]. *)
Definition FreeInstanceId_body (instanceId : Z) (i : Z) : M unit :=
  let K := EntryKeyOf InstanceEvents in
  let key := EntryKey i instanceId in
  has_map <- ask_binding K REGTYPE_MAP (BindingMap.HasBindingsFor key) ;;
  (if has_map : bool then
     call_binding K REGTYPE_MAP (fun m => (tt, BindingMap.Clear key m))
   else ret tt) ;;;
  has_instance <- ask_binding K REGTYPE_INSTANCE
                    (BindingMap.HasBindingsFor key) ;;
  (if has_instance : bool then
     call_binding K REGTYPE_INSTANCE (fun m => (tt, BindingMap.Clear key m))
   else ret tt) ;;;
  found <- gets (fun E => instanceDataRefs E !! instanceId) ;;
  match found with
  | Some ref =>
      onL (luaL_unref ref) ;;;
      (fun E =>
         (Ok tt, set_instanceDataRefs (delete instanceId (instanceDataRefs E)) E))
  | None => ret tt
  end.

(** [void Eluna::FreeInstanceId(uint32 instanceId)]:
    [for (int i = 1; i < Hooks::INSTANCE_EVENT_COUNT; ++i)] *)
Definition FreeInstanceId (instanceId : Z) : M unit :=
  for_each (seqZ 1 (INSTANCE_EVENT_COUNT (events host) - 1))
    (FreeInstanceId_body instanceId).

End Engine.

(* ===================================================================== *)
(** * Vocabulary of the statements *)
(* ===================================================================== *)

(** The number a Lua argument holds. *)
Definition number_at (E : Eluna) (narg : Z) (d : double) : Prop :=
  index2value (L E) narg = Some (LNumber d).

(** [min <= q <= max] for a rational [q] and integers [min], [max]. *)
Definition Qbetween (min max : Z) (q : Q) : Prop :=
  (inject_Z min <= q)%Q /\ (q <= inject_Z max)%Q.

(** A value above the range: [+inf], or a finite value above [max]. *)
Definition above (max : Z) (d : double) : Prop :=
  classify d = DPosInf \/ exists q, classify d = DFin q /\ (inject_Z max < q)%Q.

(** A value below the range: [-inf], or a finite value below [min]. *)
Definition below (min : Z) (d : double) : Prop :=
  classify d = DNegInf \/ exists q, classify d = DFin q /\ (q < inject_Z min)%Q.

(** The texts of the two range errors. *)
Definition too_large (max : Z) : string :=
  "value must be less than or equal to " +:+ pretty max.
Definition too_small (min : Z) : string :=
  "value must be greater than or equal to " +:+ pretty min.

(** ** A small world to run the engine in *)

Module Sample.

(** A library whose [debug.traceback] appends a marker to the message.
    No value has a metatable. *)
Definition lib : Library :=
  mkLibrary
    (fun _ => None)
    (fun _ => "<number>")
    (fun f args =>
       match args with
       | LString s :: _ => LString (s +:+ " <stack traceback>")
       | _ => LNil
       end)
    (fun _ _ => LNil)
    (fun _ _ => Ok LNil)
    (fun _ => "0x0").

Definition counts : EventCounts :=
  mkEventCounts 10 10 10 10 10 10 10 10 10 10 10 10 8.

Definition scripts : list LuaScript :=
  [ mkLuaScript ".lua" "a" "scripts/a.lua" "scripts" (-1);
    mkLuaScript ".lua" "b" "scripts/530/b.lua" "scripts/530" 530;
    mkLuaScript ".lua" "a" "scripts/dup/a.lua" "scripts/dup" (-1);
    mkLuaScript ".lua" "c" "scripts/c.lua" "scripts" (-1);
    mkLuaScript ".lua" "d" "scripts/d.lua" "scripts" (-1) ].

(** The bytecode of [scripts/d.lua] does not load; every other script
    compiles to a function of its own. *)
Definition load (it : LuaScript) : LuaValue + LuaValue :=
  if String.eqb (filepath it) "scripts/a.lua" then inl (LFunction 101)
  else if String.eqb (filepath it) "scripts/530/b.lua" then inl (LFunction 102)
  else if String.eqb (filepath it) "scripts/dup/a.lua" then inl (LFunction 103)
  else if String.eqb (filepath it) "scripts/d.lua"
       then inr (LString "d.lua: bad binary format")
       else inl (LFunction 104).

(** The chunk of [scripts/a.lua] raises an error; the other chunks
    return. *)
Definition body (f : LuaValue) : Script :=
  match f with
  | LFunction 101 => SError (LString "a.lua:1: boom")
  | _ => SReturn []
  end.

(** Creature template 1, gameobject template 2 and item template 3
    exist; there are 1311 opcodes; the package library finds no module
    on its paths. *)
Definition world (traceback : bool) : Host :=
  mkHost traceback 1311 (Z.eqb 1) (Z.eqb 2) (Z.eqb 3) scripts load body
    (fun _ => inr " (no file)") counts (fun _ => 0) lib.

(** A Lua state with the [debug] library and [require] in place, and no
    module loaded. *)
Definition L0 : lua_State :=
  mkState []
    ∅
    (<["debug" := LTable 1]> (<["require" := LFunction 2]> ∅))
    (<[(1, "traceback") := LFunction 7]> ∅)
    0
    ∅.

(** A fresh engine bound to no map: the constructor's initial values. *)
Definition E0 : Eluna :=
  mkEluna false 2 0 0 None ∅ ∅ ∅ L0 [].

Definition with_stack (st : list LuaValue) (E : Eluna) : Eluna :=
  set_L (set_stack st (L E)) E.

End Sample.

(** ** Marshaling *)

(** The state after one more value was pushed. *)
Definition pushed (v : LuaValue) (E : Eluna) : Eluna :=
  set_L (push v (L E)) E.

(** The wrapper class a reference of static type [Unit] is pushed as,
    by its type tag. *)
Definition class_of_Unit (tag : TypeID) : Wrapper :=
  match tag with
  | TYPEID_UNIT => W_Creature
  | TYPEID_PLAYER => W_Player
  | _ => W_Unit
  end.

(** The same for the static types [WorldObject] and [Object]; [super] is
    the static type's own wrapper. *)
Definition class_of_Object (super : Wrapper) (tag : TypeID) : Wrapper :=
  match tag with
  | TYPEID_UNIT => W_Creature
  | TYPEID_PLAYER => W_Player
  | TYPEID_GAMEOBJECT => W_GameObject
  | TYPEID_CORPSE => W_Corpse
  | TYPEID_OTHER _ => super
  end.

(** A fixed chain of checks as the spec words it: each wrapper class of
    [chain] is tried in order without error reporting, the first that
    accepts the argument decides; the last class is tried with the
    caller's [error] flag. *)
Fixpoint check_chain (E : Eluna) (narg : Z) (error : bool)
  (chain : list Wrapper) (last : Wrapper) : Result (option ObjRef) :=
  match chain with
  | [] => ElunaTemplate_Check last E narg error
  | T :: rest =>
      or_else (ElunaTemplate_Check T E narg false)
        (check_chain E narg error rest last)
  end.

(** The wrapper classes an object check accepts, most specific first. *)
Definition chain_of (T : Wrapper) : list Wrapper :=
  match T with
  | W_Unit => [W_Player; W_Creature; W_Unit]
  | W_WorldObject =>
      [W_Player; W_Creature; W_Unit; W_GameObject; W_Corpse; W_WorldObject]
  | W_Object =>
      [W_Player; W_Creature; W_Unit; W_GameObject; W_Corpse; W_WorldObject;
       W_Item; W_Object]
  | _ => [T]
  end.


(** The name of the argument's actual type, as the mismatch error gives
    it: the wrapper's class, or the Lua type of a value that is no
    wrapper. *)
Definition actual_type (E : Eluna) (narg : Z) : string :=
  match lua_touserdata (L E) narg with
  | Some o => GetTypeName o
  | None => luaL_typename (L E) narg
  end.

(** The text of the type-mismatch error for the expected class [T]. *)
Definition mismatch_text (T : Wrapper) (E : Eluna) (narg : Z) : string :=
  if lua_islightuserdata (L E) narg then
    "bad argument : userdata expected, got lightuserdata"
  else
    "bad argument : " +:+ tname T +:+ " expected, got " +:+ actual_type E narg.

(** ** The instance data store *)

(** The id a map's instance data is filed under: the instance id of an
    instanceable map, the map id of a continent. *)
Definition data_id (map : Map) : bool * Z :=
  if Instanceable map then (true, GetInstanceId map) else (false, GetId map).

(** The reference stored for a map's id, if any. *)
Definition stored_ref (map : Map) (E : Eluna) : option Z :=
  if Instanceable map then instanceDataRefs E !! GetInstanceId map
  else continentDataRefs E !! GetId map.

(** A reference is live when the registry holds a value under it. *)
Definition live (E : Eluna) (ref : Z) : Prop :=
  exists r : positive, ref = Z.pos r /\ is_Some (registry (L E) !! r).

(** The store's invariant: every stored reference is live, and no two
    ids share a reference. *)
Definition data_refs_wf (E : Eluna) : Prop :=
  (forall map ref, stored_ref map E = Some ref -> live E ref)
  /\ (forall map1 map2 ref,
        stored_ref map1 E = Some ref -> stored_ref map2 E = Some ref ->
        data_id map1 = data_id map2).

(** Releasing the reference that was stored, if one was. *)
Definition release (old : option Z) (L : lua_State) : lua_State :=
  match old with
  | Some ref => luaL_unref ref L
  | None => L
  end.

(** Filing a reference under a map's id. *)
Definition store_ref (map : Map) (ref : Z) (E : Eluna) : Eluna :=
  if Instanceable map then
    set_instanceDataRefs (<[GetInstanceId map := ref]> (instanceDataRefs E)) E
  else
    set_continentDataRefs (<[GetId map := ref]> (continentDataRefs E)) E.

(** The key type of the two stores of instance events. *)
Definition InstanceKey : KeyType := EntryKeyOf InstanceEvents.

(** The instance events: the ids [1 .. INSTANCE_EVENT_COUNT - 1]. *)
Definition instance_event (host : Host) (i : Z) : Prop :=
  1 <= i < INSTANCE_EVENT_COUNT (events host).

(** [if (b->HasBindingsFor(key)) b->Clear(key);] on a store. *)
Definition clear_if_bound (key : Key) (m : BindingMap.t) : BindingMap.t :=
  if BindingMap.HasBindingsFor key m then BindingMap.Clear key m else m.

(** The instance data of [instanceId] dropped: its reference released
    and its entry erased. *)
Definition drop_data (instanceId : Z) (E : Eluna) : Eluna :=
  match instanceDataRefs E !! instanceId with
  | Some ref =>
      set_instanceDataRefs (delete instanceId (instanceDataRefs E))
        (set_L (luaL_unref ref (L E)) E)
  | None => E
  end.

(** An engine with one instance's data and bindings in place: instance 5
    has the table 10 under reference 1, a map-event and an instance-event
    binding, and another instance has a binding of its own. *)
Module SampleInstance.

Definition map5 : Map := mkMap true 33 5.

Definition store_map : BindingMap.t :=
  snd (BindingMap.Insert (EntryKey 2 5) 3 0
         (snd (BindingMap.Insert (EntryKey 2 6) 4 0
                 (BindingMap.empty InstanceKey)))).

Definition store_instance : BindingMap.t :=
  snd (BindingMap.Insert (EntryKey 7 5) 5 0 (BindingMap.empty InstanceKey)).

Definition S1 : lua_State :=
  mkState [LTable 11]
    (<[1%positive := LTable 10]> ∅)
    (globals Sample.L0) (fields Sample.L0) 0 ∅.

Definition E1 : Eluna :=
  mkEluna false 2 0 0 None (<[5 := 1]> ∅) ∅
    (<[REGTYPE_INSTANCE := Some store_instance]>
       (<[REGTYPE_MAP := Some store_map]> ∅))
    S1 [].

End SampleInstance.

(** ** Registration *)

Section RegistrationRules.

Context (host : Host).

(** The number of events of a registration type's event enumeration;
    none for an integer that is no registration type. *)
Definition event_count (regtype : RegisterTypes) : option Z :=
  let ev := events host in
  match regtype with
  | REGTYPE_SERVER => Some (SERVER_EVENT_COUNT ev)
  | REGTYPE_PLAYER => Some (PLAYER_EVENT_COUNT ev)
  | REGTYPE_GUILD => Some (GUILD_EVENT_COUNT ev)
  | REGTYPE_GROUP => Some (GROUP_EVENT_COUNT ev)
  | REGTYPE_VEHICLE => Some (VEHICLE_EVENT_COUNT ev)
  | REGTYPE_BG => Some (BG_EVENT_COUNT ev)
  | REGTYPE_PACKET => Some (PACKET_EVENT_COUNT ev)
  | REGTYPE_CREATURE | REGTYPE_CREATURE_UNIQUE => Some (CREATURE_EVENT_COUNT ev)
  | REGTYPE_CREATURE_GOSSIP | REGTYPE_GAMEOBJECT_GOSSIP
  | REGTYPE_ITEM_GOSSIP | REGTYPE_PLAYER_GOSSIP => Some (GOSSIP_EVENT_COUNT ev)
  | REGTYPE_GAMEOBJECT => Some (GAMEOBJECT_EVENT_COUNT ev)
  | REGTYPE_SPELL => Some (SPELL_EVENT_COUNT ev)
  | REGTYPE_ITEM => Some (ITEM_EVENT_COUNT ev)
  | REGTYPE_MAP | REGTYPE_INSTANCE => Some (INSTANCE_EVENT_COUNT ev)
  | REGTYPE_UNKNOWN _ => None
  end.

(** "(registrationType, eventId) is a known combination" *)
Definition known_combination (regtype : RegisterTypes) (event_id : Z) : bool :=
  match event_count regtype with
  | Some count => event_id <? count
  | None => false
  end.

(** "for entry-validated types, the entry names an existing creature,
    gameobject or item template" *)
Definition template_exists (regtype : RegisterTypes) (entry : Z) : bool :=
  match regtype with
  | REGTYPE_CREATURE | REGTYPE_CREATURE_GOSSIP => GetCreatureTemplate host entry
  | REGTYPE_GAMEOBJECT | REGTYPE_GAMEOBJECT_GOSSIP =>
      GetGameObjectTemplate host entry
  | REGTYPE_ITEM | REGTYPE_ITEM_GOSSIP => GetItemTemplate host entry
  | _ => true
  end.

(** "for REGTYPE_CREATURE_UNIQUE, the guid is not empty" *)
Definition guid_given (regtype : RegisterTypes) (guid : Z) : bool :=
  match regtype with
  | REGTYPE_CREATURE_UNIQUE => negb (guid =? 0)
  | _ => true
  end.

(** For REGTYPE_PACKET, the entry is an opcode of the host. *)
Definition opcode_exists (regtype : RegisterTypes) (entry : Z) : bool :=
  match regtype with
  | REGTYPE_PACKET => entry <? NUM_MSG_TYPES host
  | _ => true
  end.

(** The registrations the claim takes to be accepted ... *)
Definition accepted_as_claimed (regtype : RegisterTypes)
  (entry guid event_id : Z) : bool :=
  known_combination regtype event_id && template_exists regtype entry
  && guid_given regtype guid.

(** ... and the ones the code accepts. *)
Definition accepted (regtype : RegisterTypes) (entry guid event_id : Z)
  : bool :=
  accepted_as_claimed regtype entry guid event_id && opcode_exists regtype entry.

End RegistrationRules.

(** The type of the store of a registration type. *)
Definition key_type_of (regtype : RegisterTypes) : KeyType :=
  match regtype with
  | REGTYPE_SERVER => EventKeyOf ServerEvents
  | REGTYPE_PLAYER => EventKeyOf PlayerEvents
  | REGTYPE_GUILD => EventKeyOf GuildEvents
  | REGTYPE_GROUP => EventKeyOf GroupEvents
  | REGTYPE_VEHICLE => EventKeyOf VehicleEvents
  | REGTYPE_BG => EventKeyOf BGEvents
  | REGTYPE_PACKET => EntryKeyOf PacketEvents
  | REGTYPE_CREATURE => EntryKeyOf CreatureEvents
  | REGTYPE_CREATURE_GOSSIP | REGTYPE_GAMEOBJECT_GOSSIP
  | REGTYPE_ITEM_GOSSIP | REGTYPE_PLAYER_GOSSIP => EntryKeyOf GossipEvents
  | REGTYPE_GAMEOBJECT => EntryKeyOf GameObjectEvents
  | REGTYPE_SPELL => EntryKeyOf SpellEvents
  | REGTYPE_ITEM => EntryKeyOf ItemEvents
  | REGTYPE_MAP | REGTYPE_INSTANCE => EntryKeyOf InstanceEvents
  | REGTYPE_CREATURE_UNIQUE => UniqueObjectKeyOf CreatureEvents
  | REGTYPE_UNKNOWN _ => EventKeyOf ServerEvents
  end.

(** The key a registration is filed under. *)
Definition key_of (regtype : RegisterTypes) (entry guid instanceId event_id : Z)
  : Key :=
  match key_type_of regtype with
  | EventKeyOf _ => EventKey event_id
  | EntryKeyOf _ => EntryKey event_id entry
  | UniqueObjectKeyOf _ => UniqueObjectKey event_id guid instanceId
  end.

(** The cancellation callback of a binding: the closure of
    [cancelBinding] over the binding id and the store. *)
Definition cancel_callback (bindingID : Z) (regtype : RegisterTypes)
  : LuaValue :=
  LCClosure CF_cancelBinding
    [LUserdata (mkElunaObject "unsigned long long" (RefUInt64 bindingID) 0);
     LLightUserdata (PtrBindingMap regtype)].

(** The engine after a registration was filed in the store [m] of
    [regtype] and its cancellation callback pushed. *)
Definition registered (regtype : RegisterTypes) (key : Key)
  (functionRef shots : Z) (m : BindingMap.t) (E : Eluna) : Eluna :=
  set_L (push (cancel_callback (BindingMap.maxBindingID m + 1) regtype) (L E))
    (set_bindingMaps
       (<[regtype := Some (snd (BindingMap.Insert key functionRef shots m))]>
          (bindingMaps E)) E).

(** ** The call dispatcher *)

(** A stack that is ready for [ExecuteCall(params, res)]: the values
    [below], a function, and its [params] arguments. *)
Definition call_ready (E : Eluna) (below : list LuaValue) (f : LuaValue)
  (args : list LuaValue) (params : Z) : Prop :=
  stack (L E) = below ++ f :: args
  /\ is_function f = true
  /\ params = Z.of_nat (length args).

(** The state the called function starts in: one nesting level deeper,
    on a frame that holds its arguments. *)
Definition entered (args : list LuaValue) (E : Eluna) : Eluna :=
  set_L (set_stack args (L E))
    (set_event_level ((event_level E + 1) mod UINT32_MOD) E).

(** The state [ExecuteCall] returns in after the call ended in [E2]: the
    nesting level taken back and the caller's stack [st] in place. *)
Definition left (st : list LuaValue) (E2 : Eluna) : Eluna :=
  set_L (set_stack st (L E2))
    (set_event_level ((event_level E2 - 1) mod UINT32_MOD) E2).

(** The text of an error value as the log gets it: [lua_tostring] of
    the value, a null string if it is neither a string nor a number,
    printed as a C string. *)
Definition error_text (host : Host) (e : LuaValue) : option string :=
  c_str <$> tostring (lualib host) e.

(** The same after a failed call: the text of the error value [e] is
    logged and a collection is forced. *)
Definition left_failed (host : Host) (st : list LuaValue) (e : LuaValue)
  (E2 : Eluna) : Eluna :=
  set_L (lua_gc_collect (set_stack st (L E2)))
    (add_log (LogError (error_text host e))
       (set_event_level ((event_level E2 - 1) mod UINT32_MOD) E2)).

(** The error value that reaches [Report]: what [StackTrace] makes of it
    when the traceback option is on, the value itself otherwise. *)
Definition reported (host : Host) (e : LuaValue) (E2 : Eluna) : LuaValue :=
  if CONFIG_ELUNA_TRACEBACK host
  then message_handler host (LCClosure CF_StackTrace []) e (L E2)
  else e.

(** [debug.traceback] is in place: the global [debug] is a table whose
    field [traceback] is the function [tb]. *)
Definition traceback_available (S : lua_State) (tb : LuaValue) : Prop :=
  exists t, globals S !! "debug" = Some (LTable t)
            /\ fields S !! (t, "traceback") = Some tb
            /\ is_function tb = true.

(** The deepest nesting of protected calls a script makes. *)
Fixpoint depth (s : Script) : Z :=
  match s with
  | SReturn _ | SError _ => 0
  | SPush _ k | SSetGlobal _ _ k | SCleanUpStack _ k => depth k
  | SExecuteCall _ _ body k => Z.max (1 + depth body) (depth k)
  end.

(** The counters hold values of their C types. *)
Definition counters_in_range (E : Eluna) : Prop :=
  0 <= callstackid E < UINT64_MOD /\ 0 <= event_level E < UINT32_MOD.

(** The invariant of a called function: started at the nesting level
    [level], it leaves the callstack id alone and, unless the process
    faults, the nesting level as it was. *)
Definition keeps_counters (callee : M (list LuaValue)) (level : Z) : Prop :=
  forall E r E',
    callee E = (r, E') -> event_level E = level ->
    callstackid E' = callstackid E
    /\ ((forall w, r <> Fault w) -> event_level E' = level).


(** ** The script batch *)

(** A script passes the map filter: it is global or tagged for the
    bound map. *)
Definition for_this_map (boundMapId : Z) (it : LuaScript) : Prop :=
  mapId it = -1 \/ mapId it = boundMapId.

(** The loop invariant of [RunScripts]: "Stack: require". *)
Definition batch_ready (E : Eluna) (base : list LuaValue) (req : LuaValue)
  : Prop :=
  stack (L E) = base ++ [req] /\ is_function req = true.

(** The state [require(filename)] starts in. *)
Definition requiring (it : LuaScript) (E : Eluna) : Eluna :=
  entered [LString (c_str (filename it))] E.

(** The call of [require] for a script, on "Stack: require": the
    function and the script's file name are pushed and
    [ExecuteCall(1, 0)] runs. *)
Definition call_require (host : Host) (it : LuaScript) : M bool :=
  onL_checked "lua_pushvalue" (lua_pushvalue (-1)) ;;;
  onL (lua_pushstring (Some (filename it))) ;;;
  ExecuteCall_of host (require host) 1 0.




Definition executed_message (count boundMapId boundInstanceId : Z) : string :=
  "[Eluna]: Executed " +:+ pretty count +:+ " Lua scripts for map: " +:+
  pretty boundMapId +:+ ", instance: " +:+ pretty boundInstanceId.


(** A script that re-enters the engine: it raises a host event whose one
    handler returns, and the hook cleans up. *)
Definition nested_dispatch : Script :=
  SPush (LNumber (of_Z 7))
    (SPush (LFunction 3)
       (SExecuteCall 0 0 (SReturn [])
          (SCleanUpStack 0 (SReturn [])))).

(** An engine with every binding store created and a callable filed
    under the reference 4. *)
Module SampleRegister.

Definition E_stores : Eluna := snd (CreateBindStores Sample.E0).

Definition E : Eluna :=
  set_L (set_registry (<[4%positive := LFunction 9]> ∅) (L E_stores)) E_stores.

End SampleRegister.

(* ===================================================================== *)
(** * LuaEngine.cpp / LuaEngine.h: the other members of the engine *)
(* ===================================================================== *)

(** ** More of the Lua API *)

(** [lua_pushinteger(L, n)] and [lua_pushunsigned(L, n)]: the number
    [n].  Every integer the engine pushes this way is at most 32 bits
    wide, so the number holds it exactly, whether the interpreter keeps
    it as a float or as an integer. *)
Definition lua_pushinteger (n : Z) (L : lua_State) : lua_State :=
  push (LNumber (of_Z n)) L.
Definition lua_pushunsigned (n : Z) (L : lua_State) : lua_State :=
  push (LNumber (of_Z n)) L.

(** [lua_isnumber]: a number, or a string that reads as a number. *)
Definition lua_isnumber (lib : Library) (L : lua_State) (idx : Z) : bool :=
  match index2value L idx with
  | Some (LNumber _) => true
  | Some (LString s) =>
      match str2number lib s with Some _ => true | None => false end
  | _ => false
  end.

(** [lua_rawgeti(L, LUA_REGISTRYINDEX, ref)] *)
Definition lua_rawgeti_registry (ref : Z) (L : lua_State) : lua_State :=
  push (registry_get L ref) L.

Definition UINT8_MOD : Z := 2 ^ 8.
Definition LLONG_MIN : Z := - 2 ^ 63.
Definition LLONG_MAX : Z := 2 ^ 63 - 1.

(** [static_cast<long long>(value)] of a double: the truncated value
    when a [long long] holds it, undefined otherwise. *)
Definition static_cast_long_long (d : double) : option Z :=
  match classify d with
  | DFin q =>
      let t := Qtrunc q in
      if (LLONG_MIN <=? t) && (t <=? LLONG_MAX) then Some t else None
  | _ => None
  end.

(** The 64-bit integer types and the guid of the value checks.  A value
    of each is a [Z]. *)
Definition long_long : Type := Z.
Definition unsigned_long_long : Type := Z.
Definition ObjectGuid : Type := Z.

(** The specialisation of a check is chosen by the type's name. *)
#[global] Typeclasses Opaque long_long unsigned_long_long ObjectGuid.

(** ** Host classes *)

(** [Creature]: what [Eluna::GetAI] asks of a creature. *)
Module Creature.

Record t : Type := mk {
  GetEntry : Z;
  GET_GUID : Z;
  GetInstanceId : Z
}.

End Creature.

(** [ElunaInstanceAI] (ElunaInstanceAI.h is not among the sources): the
    map the AI scripts, [ai->instance], and what [ai->Reload()] does to
    the engine. *)
Record ElunaInstanceAI : Type := mkElunaInstanceAI {
  instance : Map;
  Reload : M unit
}.

(** The overloads of [Eluna::Push], by the static type of the argument. *)
Variant PushArg : Type :=
  | arg_none
  | arg_long_long (l : Z)
  | arg_unsigned_long_long (l : Z)
  | arg_long (l : Z)
  | arg_unsigned_long (l : Z)
  | arg_int (i : Z)
  | arg_unsigned_int (u : Z)
  | arg_double (d : double)
  | arg_float (f : double)
  | arg_bool (b : bool)
  | arg_string (str : string)
  | arg_char_ptr (str : option string)
  | arg_Pet (pet : option Object)
  | arg_TempSummon (summon : option Object)
  | arg_Unit (unit_ : option Object)
  | arg_WorldObject (obj : option Object)
  | arg_Object (obj : option Object)
  | arg_ObjectGuid (guid : Z)
  | arg_ptr (T : Wrapper) (ptr : option Object).

Section EngineMembers.

Context (host : Host).

(* ===================================================================== *)
(** ** The value pushes *)
(* ===================================================================== *)

(** [void Eluna::Push(const long long l)]: a boxed copy of the value
    ([ElunaTemplate<long long>]), as [Push_uint64] is for the unsigned
    type. *)
Definition Push_long_long (l : Z) : M unit :=
  onL (push (LUserdata (mkElunaObject "long long" (RefInt64 l) 0))).

(** [void Eluna::Push(const long l)]:
    [Push(static_cast<long long>(l));] *)
Definition Push_long (l : Z) : M unit := Push_long_long l.

(** [void Eluna::Push(const unsigned long l)]:
    [Push(static_cast<unsigned long long>(l));] *)
Definition Push_unsigned_long (l : Z) : M unit := Push_uint64 l.

(** [void Eluna::Push(const int i)] *)
Definition Push_int (i : Z) : M unit := onL (lua_pushinteger i).

(** [void Eluna::Push(const unsigned int u)] *)
Definition Push_unsigned_int (u : Z) : M unit := onL (lua_pushunsigned u).

(** [void Eluna::Push(const double d)] *)
Definition Push_double (d : double) : M unit := onL (push (LNumber d)).

(** [void Eluna::Push(const float f)]: the float, promoted to the double
    of the same value. *)
Definition Push_float (f : double) : M unit := onL (push (LNumber f)).

(** [void Eluna::Push(const bool b)] *)
Definition Push_bool (b : bool) : M unit := onL (push (LBoolean b)).

(** [void Eluna::Push(const std::string& str)] *)
Definition Push_string (str : string) : M unit :=
  onL (lua_pushstring (Some str)).

(** [void Eluna::Push(const char* str)] *)
Definition Push_char_ptr (str : option string) : M unit :=
  onL (lua_pushstring str).

(** [void Eluna::Push(ObjectGuid const guid)]: a boxed copy of the guid
    ([ElunaTemplate<ObjectGuid>]). *)
Definition Push_ObjectGuid (guid : Z) : M unit :=
  onL (push (LUserdata (mkElunaObject "ObjectGuid" (RefGuid guid) 0))).

(** [Eluna::Push(...)]: the overload the argument's static type selects. *)
Definition Push (a : PushArg) : M unit :=
  match a with
  | arg_none => Push_nil
  | arg_long_long l => Push_long_long l
  | arg_unsigned_long_long l => Push_uint64 l
  | arg_long l => Push_long l
  | arg_unsigned_long l => Push_unsigned_long l
  | arg_int i => Push_int i
  | arg_unsigned_int u => Push_unsigned_int u
  | arg_double d => Push_double d
  | arg_float f => Push_float f
  | arg_bool b => Push_bool b
  | arg_string str => Push_string str
  | arg_char_ptr str => Push_char_ptr str
  | arg_Pet pet => Push_Pet pet
  | arg_TempSummon summon => Push_TempSummon summon
  | arg_Unit unit_ => Push_Unit unit_
  | arg_WorldObject obj => Push_WorldObject obj
  | arg_Object obj => Push_Object obj
  | arg_ObjectGuid guid => Push_ObjectGuid guid
  | arg_ptr T ptr => Push_T T ptr
  end.

(** [void HookPush(value) { Push(value); ++push_counter; }] (LuaEngine.h),
    one overload per overload of [Push]; [push_counter] is a [uint8]. *)
Definition HookPush (value : PushArg) : M unit :=
  Push value ;;;
  (fun E => (Ok tt, set_push_counter ((push_counter E + 1) mod UINT8_MOD) E)).

(* ===================================================================== *)
(** ** The 64-bit value checks *)
(* ===================================================================== *)

(** Modelled from the spec: ElunaTemplate<T>::Check for a class given by
    its registered name (ElunaTemplate.h is not among the sources); the
    steps of [ElunaTemplate_Check]. *)
Definition ElunaTemplate_Check_named (name : string) (E : Eluna) (narg : Z)
  (error : bool) : Result (option ObjRef) :=
  match CHECKTYPE E narg (Some name) error with
  | Ok None => Ok None
  | Ok (Some elunaObj) =>
      if IsValid E elunaObj then Ok (Some (GetObj elunaObj))
      else if error then
        luaL_argerror narg
          (name +:+ " expected, got pointer to an invalidated object")
      else Ok None
  | LuaError e => LuaError e
  | Fault w => Fault w
  end.

(** [*(Eluna::CHECKOBJ<T>(narg, true))] for a boxed value type: the
    value behind the pointer; a null pointer is not to be dereferenced. *)
Definition deref_value (unbox : ObjRef -> option Z)
  (r : Result (option ObjRef)) : Result Z :=
  Rbind r (fun p =>
    match p with
    | Some ref =>
        match unbox ref with
        | Some n => Ok n
        | None => Fault "the userdata holds no value of the type"
        end
    | None => Fault "null pointer dereference"
    end).

Definition unbox_long_long (ref : ObjRef) : option Z :=
  match ref with RefInt64 n => Some n | _ => None end.
Definition unbox_unsigned_long_long (ref : ObjRef) : option Z :=
  match ref with RefUInt64 n => Some n | _ => None end.
Definition unbox_ObjectGuid (ref : ObjRef) : option Z :=
  match ref with RefGuid n => Some n | _ => None end.

(** [template<> long long Eluna::CHECKVAL<long long>(int narg)] *)
#[global] Instance CHECKVAL_long_long : CheckVal host long_long :=
  fun E narg =>
    if lua_isnumber (lualib host) (L E) narg then
      Rbind (CHECKVAL host double E narg) (fun d =>
        match static_cast_long_long d with
        | Some n => Ok n
        | None => Fault "static_cast<long long>: the value has no long long"
        end)
    else
      deref_value unbox_long_long
        (ElunaTemplate_Check_named "long long" E narg true).

(** [template<> unsigned long long Eluna::CHECKVAL<unsigned long long>(int narg)]:
    a number goes through [CHECKVAL<uint32>]. *)
#[global] Instance CHECKVAL_unsigned_long_long
  : CheckVal host unsigned_long_long :=
  fun E narg =>
    if lua_isnumber (lualib host) (L E) narg then
      CHECKVAL host (cint unsigned_int) E narg
    else
      deref_value unbox_unsigned_long_long
        (ElunaTemplate_Check_named "unsigned long long" E narg true).

(** [template<> ObjectGuid Eluna::CHECKVAL<ObjectGuid>(int narg)]:
    [ObjectGuid* guid = CHECKOBJ<ObjectGuid>(narg, true);
     return guid ? *guid : ObjectGuid();] *)
#[global] Instance CHECKVAL_ObjectGuid : CheckVal host ObjectGuid :=
  fun E narg =>
    Rbind (ElunaTemplate_Check_named "ObjectGuid" E narg true) (fun guid =>
      match guid with
      | Some ref =>
          match unbox_ObjectGuid ref with
          | Some g => Ok g
          | None => Fault "the userdata holds no value of the type"
          end
      | None => Ok 0
      end).

(* ===================================================================== *)
(** ** Cancelling a registration *)
(* ===================================================================== *)

(** The frame on which a C closure checks its upvalues.
    [lua_upvalueindex(i)] is a pseudo-index, which [index2value] does not
    resolve; a check of the closure's [i]-th upvalue is run on a frame
    that holds the upvalues, at index [i].  Only the argument number an
    error message shows differs from the source. *)
Definition upvalue_frame (upvalues : list LuaValue) (E : Eluna) : Eluna :=
  set_L (set_stack upvalues (L E)) E.

(** A member call through a raw pointer to the store of [type], kept
    from an earlier [GetBinding]; it dangles once the store was reset.
    A pointer is named by the slot it was taken from. *)
Definition call_binding_ptr {A} (type : RegisterTypes)
  (method : BindingMap.t -> A * BindingMap.t) : M A :=
  fun E =>
    match bindingMaps E !! type with
    | Some (Some m) =>
        (Ok (fst (method m)),
         set_bindingMaps (<[type := Some (snd (method m))]> (bindingMaps E)) E)
    | _ => (Fault "dangling BindingMap pointer", E)
    end.

(** [template<typename K> static int cancelBinding(lua_State* L)], the
    closure's upvalues given.  [Eluna::GetEluna(L)] is the engine the
    state belongs to.  [lua_touserdata] yields the address of a light or
    full userdata and NULL for any other value; an address that is not a
    store's is not to be used as one. *)
Definition cancelBinding (upvalues : list LuaValue) : M Z :=
  bindingID <- (fun E =>
                  (CHECKVAL host unsigned_long_long (upvalue_frame upvalues E) 1,
                   E)) ;;
  match upvalues !! 1%nat with
  | Some (LLightUserdata (PtrBindingMap bindings)) =>
      call_binding_ptr bindings
        (fun m => (tt, BindingMap.Remove bindingID m)) ;;;
      ret 0
  | Some (LLightUserdata _) | Some (LUserdata _) =>
      fun E => (Fault "the pointer is no BindingMap", E)
  | _ =>
      ASSERT false "bindings != NULL" ;;; ret 0
  end.

(* ===================================================================== *)
(** ** Script AIs *)
(* ===================================================================== *)

(** The loop of [Eluna::GetAI] over the event ids [ids]; the result is
    the creature a new [ElunaCreatureAI] is built for, or NULL.  The
    second store is asked only when the first has no binding ([||]). *)
Fixpoint GetAI_loop (creature : Creature.t) (ids : list Z)
  : M (option Creature.t) :=
  match ids with
  | [] => ret None
  | i :: rest =>
      let entryKey := EntryKey i (Creature.GetEntry creature) in
      let uniqueKey :=
        UniqueObjectKey i (Creature.GET_GUID creature)
          (Creature.GetInstanceId creature) in
      e <- ask_binding (EntryKeyOf CreatureEvents) REGTYPE_CREATURE
             (BindingMap.HasBindingsFor entryKey) ;;
      if e : bool then ret (Some creature)
      else
        u <- ask_binding (UniqueObjectKeyOf CreatureEvents)
               REGTYPE_CREATURE_UNIQUE
               (BindingMap.HasBindingsFor uniqueKey) ;;
        if u : bool then ret (Some creature)
        else GetAI_loop creature rest
  end.

(** [CreatureAI* Eluna::GetAI(Creature* creature)]:
    [for (int i = 1; i < Hooks::CREATURE_EVENT_COUNT; ++i)] *)
Definition GetAI (creature : Creature.t) : M (option Creature.t) :=
  GetAI_loop creature (seqZ 1 (CREATURE_EVENT_COUNT (events host) - 1)).

(** The loop of [Eluna::GetInstanceData]; the result is the map a new
    [ElunaInstanceAI] is built for, or NULL. *)
Fixpoint GetInstanceData_loop (map : Map) (ids : list Z) : M (option Map) :=
  match ids with
  | [] => ret None
  | i :: rest =>
      let key := EntryKey i (GetId map) in
      m <- ask_binding (EntryKeyOf InstanceEvents) REGTYPE_MAP
             (BindingMap.HasBindingsFor key) ;;
      if m : bool then ret (Some map)
      else
        n <- ask_binding (EntryKeyOf InstanceEvents) REGTYPE_INSTANCE
               (BindingMap.HasBindingsFor key) ;;
        if n : bool then ret (Some map)
        else GetInstanceData_loop map rest
  end.

(** [InstanceData* Eluna::GetInstanceData(Map* map)]:
    [for (int i = 1; i < Hooks::INSTANCE_EVENT_COUNT; ++i)] *)
Definition GetInstanceData (map : Map) : M (option Map) :=
  GetInstanceData_loop map (seqZ 1 (INSTANCE_EVENT_COUNT (events host) - 1)).

(* ===================================================================== *)
(** ** Pushing the instance data *)
(* ===================================================================== *)

(** [refs[key]] on a [std::unordered_map<uint32, int>]: a missing key is
    inserted with the value 0. *)
Definition subscript (refs : Eluna -> gmap Z Z)
  (set_refs : gmap Z Z -> Eluna -> Eluna) (key : Z) : M Z :=
  fun E =>
    match refs E !! key with
    | Some ref => (Ok ref, E)
    | None => (Ok 0, set_refs (<[key := 0]> (refs E)) E)
    end.

(** [void Eluna::PushInstanceData(ElunaInstanceAI* ai, bool incrementCounter)] *)
Definition PushInstanceData (ai : ElunaInstanceAI) (incrementCounter : bool)
  : M unit :=
  (* Check if the instance data is missing (i.e. someone reloaded Eluna). *)
  has <- gets (HasInstanceData (instance ai)) ;;
  (if negb has then Reload ai else ret tt) ;;;
  (* Get the instance data table from the registry. *)
  (if negb (Instanceable (instance ai)) then
     ref <- subscript continentDataRefs set_continentDataRefs
              (GetId (instance ai)) ;;
     onL (lua_rawgeti_registry ref)
   else
     ref <- subscript instanceDataRefs set_instanceDataRefs
              (GetInstanceId (instance ai)) ;;
     onL (lua_rawgeti_registry ref)) ;;;
  istable <- gets (fun E => lua_istable (L E) (-1)) ;;
  ASSERT istable "lua_istable(L, -1)" ;;;
  if incrementCounter then
    fun E => (Ok tt, set_push_counter ((push_counter E + 1) mod UINT8_MOD) E)
  else ret tt.

End EngineMembers.

(* ===================================================================== *)
(** * Vocabulary of the statements about the other members *)
(* ===================================================================== *)

(** A counted string holds a NUL. *)
Fixpoint has_nul (s : string) : bool :=
  match s with
  | EmptyString => false
  | String c rest => Ascii.eqb c Ascii.zero || has_nul rest
  end.

(** The value an overload of [Push] puts on the stack; an object wrapper
    carries the callstack id [cid] of the engine.  A string arrives as
    a C string. *)
Definition pushed_value (a : PushArg) (cid : Z) : LuaValue :=
  let wrap (T : Wrapper) (p : option Object) : LuaValue :=
    match p with
    | Some o => LUserdata (mkElunaObject (tname T) (RefObject o) cid)
    | None => LNil
    end in
  match a with
  | arg_none => LNil
  | arg_long_long l | arg_long l =>
      LUserdata (mkElunaObject "long long" (RefInt64 l) 0)
  | arg_unsigned_long_long l | arg_unsigned_long l =>
      LUserdata (mkElunaObject "unsigned long long" (RefUInt64 l) 0)
  | arg_int n | arg_unsigned_int n => LNumber (of_Z n)
  | arg_double d | arg_float d => LNumber d
  | arg_bool b => LBoolean b
  | arg_string s => LString (c_str s)
  | arg_char_ptr (Some s) => LString (c_str s)
  | arg_char_ptr None => LNil
  | arg_Pet p | arg_TempSummon p => wrap W_Creature p
  | arg_Unit p =>
      wrap (match p with
            | Some o => class_of_Unit (GetTypeId o)
            | None => W_Unit
            end) p
  | arg_WorldObject p =>
      wrap (match p with
            | Some o => class_of_Object W_WorldObject (GetTypeId o)
            | None => W_WorldObject
            end) p
  | arg_Object p =>
      wrap (match p with
            | Some o => class_of_Object W_Object (GetTypeId o)
            | None => W_Object
            end) p
  | arg_ObjectGuid g => LUserdata (mkElunaObject "ObjectGuid" (RefGuid g) 0)
  | arg_ptr T p => wrap T p
  end.

(** ** Binding stores *)

(** The invariant of a store's ids: every binding id was handed out by
    the store, so none is above [maxBindingID]. *)
Definition store_ids_bounded (m : BindingMap.t) : Prop :=
  forall key b, b ∈ BindingMap.bindings_for key m ->
                BindingMap.id b <= BindingMap.maxBindingID m.

(** The upvalues of a C closure. *)
Definition upvalues_of (v : LuaValue) : list LuaValue :=
  match v with
  | LCClosure _ upvalues => upvalues
  | _ => []
  end.

(** The creature events: the ids [1 .. CREATURE_EVENT_COUNT - 1]. *)
Definition creature_event (host : Host) (i : Z) : Prop :=
  1 <= i < CREATURE_EVENT_COUNT (events host).

(** Some creature event has a binding for the creature, by its entry in
    the store [mE] or by its guid and instance in the store [mU]. *)
Definition creature_scripted (host : Host) (creature : Creature.t)
  (mE mU : BindingMap.t) : Prop :=
  exists i, creature_event host i
    /\ (BindingMap.HasBindingsFor
          (EntryKey i (Creature.GetEntry creature)) mE = true
        \/ BindingMap.HasBindingsFor
             (UniqueObjectKey i (Creature.GET_GUID creature)
                (Creature.GetInstanceId creature)) mU = true).

(** Some instance event has a binding under the map's id, in the store
    of map events [mM] or in the store of instance events [mI]. *)
Definition map_scripted (host : Host) (map : Map) (mM mI : BindingMap.t)
  : Prop :=
  exists i, instance_event host i
    /\ (BindingMap.HasBindingsFor (EntryKey i (GetId map)) mM = true
        \/ BindingMap.HasBindingsFor (EntryKey i (GetId map)) mI = true).

(** An engine with the two creature stores: event 5 is bound for the
    creatures of entry 1; nothing is bound by guid. *)
Module SampleAI.

Definition creature : Creature.t := Creature.mk 1 100 0.
Definition other : Creature.t := Creature.mk 2 101 0.

Definition store_entry : BindingMap.t :=
  snd (BindingMap.Insert (EntryKey 5 1) 4 0
         (BindingMap.empty (EntryKeyOf CreatureEvents))).

Definition store_unique : BindingMap.t :=
  BindingMap.empty (UniqueObjectKeyOf CreatureEvents).

Definition with_stores (mE mU : BindingMap.t) : Eluna :=
  mkEluna false 2 0 0 None ∅ ∅
    (<[REGTYPE_CREATURE_UNIQUE := Some mU]>
       (<[REGTYPE_CREATURE := Some mE]> ∅))
    Sample.L0 [].

Definition E : Eluna := with_stores store_entry store_unique.

(** The same engine before anything was bound. *)
Definition E_fresh : Eluna :=
  with_stores (BindingMap.empty (EntryKeyOf CreatureEvents)) store_unique.

End SampleAI.

(** ** Pushing the instance data *)

(** [if (incrementCounter) ++push_counter;] *)
Definition counted (incrementCounter : bool) (E : Eluna) : Eluna :=
  if incrementCounter
  then set_push_counter ((push_counter E + 1) mod UINT8_MOD) E
  else E.

(** An AI of the sample instance whose [Reload] files a new table 12 as
    the data of the map, as [CreateInstanceData] does. *)
Module SampleReload.

Definition reloading : ElunaInstanceAI :=
  mkElunaInstanceAI SampleInstance.map5
    (onL (push (LTable 12)) ;;; CreateInstanceData SampleInstance.map5).

(** An AI whose [Reload] does nothing. *)
Definition idle : ElunaInstanceAI :=
  mkElunaInstanceAI SampleInstance.map5 (ret tt).

(** The sample engine without any instance data. *)
Definition E_lost : Eluna :=
  set_instanceDataRefs ∅
    (set_L (set_stack [] (set_registry ∅ (L SampleInstance.E1)))
       SampleInstance.E1).

End SampleReload.

(** ** A call that is refused *)

(** A world whose userdata have a [__tostring] metamethod, the function
    50: it names an object by its class and raises an error for a boxed
    value. *)
Module SampleMeta.

Definition lib : Library :=
  mkLibrary
    (str2number Sample.lib)
    (number2str Sample.lib)
    (call1 Sample.lib)
    (fun v event =>
       match v with
       | LUserdata _ => if String.eqb event "__tostring" then LFunction 50
                        else LNil
       | _ => LNil
       end)
    (fun f v =>
       match v with
       | LUserdata (mkElunaObject name (RefObject _) _) =>
           Ok (LString ("<" +:+ name +:+ ">"))
       | _ => LuaError (LString "no object")
       end)
    (pointer2str Sample.lib).

Definition world : Host :=
  mkHost false 1311 (Z.eqb 1) (Z.eqb 2) (Z.eqb 3) Sample.scripts Sample.load
    Sample.body (fun _ => inr " (no file)") Sample.counts (fun _ => 0) lib.

End SampleMeta.

(** ** The script batch as a whole *)

(** No chunk and no loader ends the process: whatever state it starts
    in, it returns or raises a Lua error. *)
Definition chunks_never_fault (host : Host) : Prop :=
  forall (f : LuaValue) (E : Eluna) (w : string),
    fst (run host (function_body host f) E) <> Fault w.

(** ** Requiring a module *)

(** The engine on the frame of a called function. *)
Definition on_frame (args : list LuaValue) (E : Eluna) : Eluna :=
  set_L (set_stack args (L E)) E.

(** The engine after [require] has filed the module [v] under [name]. *)
Definition filed (name : string) (v : LuaValue) (E : Eluna) : Eluna :=
  set_L (set_package_loaded (<[name := v]> (package_loaded (L E))) (L E)) E.

(** [it] is the first of the loader's scripts, in list order, that has
    the file name [name]. *)
Definition first_named (host : Host) (name : string) (it : LuaScript) : Prop :=
  exists pre post,
    GetLuaScripts host = pre ++ it :: post
    /\ (forall s, s ∈ pre -> filename s <> name)
    /\ filename it = name.

(** A world with two scripts named [a]: the first is tagged for map
    530, the second for every map.  Each chunk leaves its path in the
    global [ran]. *)
Module SampleTagged.

Definition scripts : list LuaScript :=
  [ mkLuaScript ".lua" "a" "scripts/530/a.lua" "scripts/530" 530;
    mkLuaScript ".lua" "a" "scripts/a.lua" "scripts" (-1) ].

Definition load (it : LuaScript) : LuaValue + LuaValue :=
  if mapId it =? 530 then inl (LFunction 201) else inl (LFunction 202).

Definition body (f : LuaValue) : Script :=
  match f with
  | LFunction 201 => SSetGlobal "ran" (LString "scripts/530/a.lua") (SReturn [])
  | _ => SSetGlobal "ran" (LString "scripts/a.lua") (SReturn [])
  end.

Definition world : Host :=
  mkHost false 1311 (Z.eqb 1) (Z.eqb 2) (Z.eqb 3) scripts load body
    (fun _ => inr " (no file)") Sample.counts (fun _ => 0) Sample.lib.

End SampleTagged.
(* ===================================================================== *)
(** * Proofs: numeric argument checks *)
(* ===================================================================== *)

(** Closed comparisons of integer constants. *)
Ltac const_le :=
  vm_compute; first [ reflexivity | discriminate | intro; discriminate ].

Section NumericChecks.

Context (host : Host).

(** Truncation keeps a rational between two integer bounds between them. *)
Lemma Zquot_bounds (a b n d : Z) :
  0 < d -> a * d <= n -> n <= b * d -> a <= Z.quot n d <= b.
Proof.
  intros Hd Ha Hb.
  pose proof (Z.quot_rem' n d) as Hqr.
  assert (Hpos : 0 <= n -> 0 <= Z.rem n d < d)
    by (intros; apply Z.rem_bound_pos; assumption).
  assert (Hneg : n <= 0 -> - d < Z.rem n d <= 0)
    by (intros; apply Z.rem_bound_pos_neg; assumption).
  generalize dependent (Z.rem n d). generalize dependent (Z.quot n d).
  intros q r Hqr Hpos Hneg.
  split.
  - destruct (Z_le_gt_dec a q) as [|Hlt]; [assumption|exfalso].
    assert (d * (q + 1) <= d * a) by (apply Z.mul_le_mono_nonneg_l; lia).
    destruct (Z_le_gt_dec 0 n) as [Hn|Hn]; [specialize (Hpos Hn); lia|].
    specialize (Hneg ltac:(lia)). lia.
  - destruct (Z_le_gt_dec q b) as [|Hlt]; [assumption|exfalso].
    assert (d * (b + 1) <= d * q) by (apply Z.mul_le_mono_nonneg_l; lia).
    destruct (Z_le_gt_dec 0 n) as [Hn|Hn]; [specialize (Hpos Hn); lia|].
    specialize (Hneg ltac:(lia)). lia.
Qed.

Lemma Qbetween_trunc (min max : Z) (q : Q) :
  Qbetween min max q -> min <= Qtrunc q <= max.
Proof.
  unfold Qbetween, Qle, Qtrunc; simpl. intros [Hlo Hhi].
  apply Zquot_bounds; lia.
Qed.

Lemma dgt_int_fin (d : double) (q : Q) (b : Z) :
  classify d = DFin q -> dgt_int d b = true <-> (inject_Z b < q)%Q.
Proof.
  intros Hc. unfold dgt_int, Qlt. rewrite Hc. simpl.
  rewrite Z.ltb_lt. lia.
Qed.

Lemma dlt_int_fin (d : double) (q : Q) (b : Z) :
  classify d = DFin q -> dlt_int d b = true <-> (q < inject_Z b)%Q.
Proof.
  intros Hc. unfold dlt_int, Qlt. rewrite Hc. simpl.
  rewrite Z.ltb_lt. lia.
Qed.

Lemma luaL_checknumber_number (E : Eluna) (narg : Z) (d : double) :
  number_at E narg d -> luaL_checknumber (lualib host) (L E) narg = Ok d.
Proof. unfold number_at, luaL_checknumber. intros ->. reflexivity. Qed.

(** *** The two range helpers on a finite value *)

Lemma CheckIntegerRange_in_range E narg min max d q :
  number_at E narg d -> classify d = DFin q ->
  INT_MIN <= min -> max <= INT_MAX -> Qbetween min max q ->
  CheckIntegerRange host (L E) narg min max = Ok (Qtrunc q).
Proof.
  intros Hn Hc Hmin Hmax Hq. unfold CheckIntegerRange.
  rewrite (luaL_checknumber_number _ _ _ Hn). simpl.
  pose proof (Qbetween_trunc _ _ _ Hq) as Ht.
  destruct Hq as [Hlo Hhi].
  destruct (dgt_int d max) eqn:Hgt.
  { apply (dgt_int_fin _ _ _ Hc) in Hgt. exfalso.
    apply (Qlt_not_le _ _ Hgt). exact Hhi. }
  destruct (dlt_int d min) eqn:Hlt.
  { apply (dlt_int_fin _ _ _ Hc) in Hlt. exfalso.
    apply (Qlt_not_le _ _ Hlt). exact Hlo. }
  unfold static_cast_int. rewrite Hc.
  assert (Hb : (INT_MIN <=? Qtrunc q) && (Qtrunc q <=? INT_MAX) = true).
  { apply andb_true_intro. split; apply Z.leb_le; lia. }
  cbv zeta. rewrite Hb. reflexivity.
Qed.

Lemma CheckUnsignedRange_in_range E narg max d q :
  number_at E narg d -> classify d = DFin q ->
  max <= UINT_MAX -> Qbetween 0 max q ->
  CheckUnsignedRange host (L E) narg max = Ok (Qtrunc q).
Proof.
  intros Hn Hc Hmax Hq. unfold CheckUnsignedRange.
  rewrite (luaL_checknumber_number _ _ _ Hn). simpl.
  pose proof (Qbetween_trunc _ _ _ Hq) as Ht.
  destruct Hq as [Hlo Hhi].
  destruct (dlt_int d 0) eqn:Hlt.
  { apply (dlt_int_fin _ _ _ Hc) in Hlt. exfalso.
    apply (Qlt_not_le _ _ Hlt). exact Hlo. }
  destruct (dgt_int d max) eqn:Hgt.
  { apply (dgt_int_fin _ _ _ Hc) in Hgt. exfalso.
    apply (Qlt_not_le _ _ Hgt). exact Hhi. }
  unfold static_cast_uint. rewrite Hc.
  assert (Hb : (0 <=? Qtrunc q) && (Qtrunc q <=? UINT_MAX) = true).
  { apply andb_true_intro. split; apply Z.leb_le; lia. }
  cbv zeta. rewrite Hb. reflexivity.
Qed.

Lemma above_dgt max d : above max d -> dgt_int d max = true.
Proof.
  intros [Hc|(q & Hc & Hq)].
  - unfold dgt_int. rewrite Hc. reflexivity.
  - apply (dgt_int_fin _ _ _ Hc). exact Hq.
Qed.

Lemma below_dlt min d : below min d -> dlt_int d min = true.
Proof.
  intros [Hc|(q & Hc & Hq)].
  - unfold dlt_int. rewrite Hc. reflexivity.
  - apply (dlt_int_fin _ _ _ Hc). exact Hq.
Qed.

Lemma above_not_dlt min max d : min <= max -> above max d -> dlt_int d min = false.
Proof.
  intros Hmm [Hc|(q & Hc & Hq)]; unfold dlt_int; rewrite Hc; [reflexivity|].
  apply Z.ltb_ge. unfold Qlt in Hq. simpl in Hq. nia.
Qed.

Lemma below_not_dgt min max d : min <= max -> below min d -> dgt_int d max = false.
Proof.
  intros Hmm [Hc|(q & Hc & Hq)]; unfold dgt_int; rewrite Hc; [reflexivity|].
  apply Z.ltb_ge. unfold Qlt in Hq. simpl in Hq. nia.
Qed.

Lemma CheckIntegerRange_above E narg min max d :
  number_at E narg d -> above max d ->
  CheckIntegerRange host (L E) narg min max = luaL_argerror narg (too_large max).
Proof.
  intros Hn Ha. unfold CheckIntegerRange.
  rewrite (luaL_checknumber_number _ _ _ Hn). simpl.
  rewrite (above_dgt _ _ Ha). reflexivity.
Qed.

Lemma CheckIntegerRange_below E narg min max d :
  number_at E narg d -> min <= max -> below min d ->
  CheckIntegerRange host (L E) narg min max = luaL_argerror narg (too_small min).
Proof.
  intros Hn Hmm Hb. unfold CheckIntegerRange.
  rewrite (luaL_checknumber_number _ _ _ Hn). simpl.
  rewrite (below_not_dgt _ _ _ Hmm Hb), (below_dlt _ _ Hb). reflexivity.
Qed.

Lemma CheckUnsignedRange_above E narg max d :
  number_at E narg d -> 0 <= max -> above max d ->
  CheckUnsignedRange host (L E) narg max = luaL_argerror narg (too_large max).
Proof.
  intros Hn Hmm Ha. unfold CheckUnsignedRange.
  rewrite (luaL_checknumber_number _ _ _ Hn). simpl.
  rewrite (above_not_dlt _ _ _ Hmm Ha), (above_dgt _ _ Ha). reflexivity.
Qed.

Lemma CheckUnsignedRange_below E narg max d :
  number_at E narg d -> below 0 d ->
  CheckUnsignedRange host (L E) narg max = luaL_argerror narg (too_small 0).
Proof.
  intros Hn Hb. unfold CheckUnsignedRange.
  rewrite (luaL_checknumber_number _ _ _ Hn). simpl.
  rewrite (below_dlt _ _ Hb). reflexivity.
Qed.

Lemma wrap_signed_id w n :
  0 < w -> - 2 ^ (w - 1) <= n < 2 ^ (w - 1) -> wrap_signed w n = n.
Proof.
  intros Hw Hn. unfold wrap_signed.
  assert (H2 : 2 ^ w = 2 * 2 ^ (w - 1)).
  { replace w with (Z.succ (w - 1)) at 1 by lia. apply Z.pow_succ_r. lia. }
  rewrite Z.mod_small by lia. lia.
Qed.

Lemma wrap_unsigned_id w n : 0 <= n < 2 ^ w -> wrap_unsigned w n = n.
Proof. intros Hn. unfold wrap_unsigned. apply Z.mod_small. exact Hn. Qed.

(** *** [CHECKVAL<T>] for the six integer types, on every value but NaN *)

(** A value within [[minT, maxT]] is returned, truncated toward zero; the
    conversion to [T] changes nothing. *)
Lemma CHECKVAL_integer_in_range (k : IntKind) E narg d q :
  number_at E narg d -> classify d = DFin q -> Qbetween (minT k) (maxT k) q ->
  CHECKVAL host (cint k) E narg = Ok (Qtrunc q) /\ minT k <= Qtrunc q <= maxT k.
Proof.
  intros Hn Hc Hq. split; [|apply Qbetween_trunc; exact Hq].
  pose proof (Qbetween_trunc _ _ _ Hq) as Ht.
  unfold CHECKVAL, CHECKVAL_integer.
  destruct k; simpl in Hq, Ht.
  - rewrite (CheckIntegerRange_in_range _ _ _ _ d q Hn Hc); [|const_le|const_le|exact Hq].
    unfold Rmap; simpl. f_equal. apply wrap_signed_id; [lia|].
    unfold SCHAR_MIN, SCHAR_MAX in Ht. simpl. lia.
  - rewrite (CheckUnsignedRange_in_range _ _ _ d q Hn Hc); [|const_le|exact Hq].
    unfold Rmap; simpl. f_equal. apply wrap_unsigned_id.
    unfold UCHAR_MAX in Ht. simpl. lia.
  - rewrite (CheckIntegerRange_in_range _ _ _ _ d q Hn Hc); [|const_le|const_le|exact Hq].
    unfold Rmap; simpl. f_equal. apply wrap_signed_id; [lia|].
    unfold SHRT_MIN, SHRT_MAX in Ht. simpl. lia.
  - rewrite (CheckUnsignedRange_in_range _ _ _ d q Hn Hc); [|const_le|exact Hq].
    unfold Rmap; simpl. f_equal. apply wrap_unsigned_id.
    unfold USHRT_MAX in Ht. simpl. lia.
  - apply (CheckIntegerRange_in_range _ _ _ _ d q Hn Hc); [const_le|const_le|exact Hq].
  - apply (CheckUnsignedRange_in_range _ _ _ d q Hn Hc); [const_le|exact Hq].
Qed.

(** [+inf] and every finite value above [maxT] raise the argument error
    that names [maxT]. *)
Lemma CHECKVAL_integer_above (k : IntKind) E narg d :
  number_at E narg d -> above (maxT k) d ->
  CHECKVAL host (cint k) E narg = luaL_argerror narg (too_large (maxT k)).
Proof.
  intros Hn Ha. unfold CHECKVAL, CHECKVAL_integer.
  destruct k; simpl in Ha;
    lazymatch goal with
    | |- context [CheckUnsignedRange _ _ _ ?m] =>
        rewrite (CheckUnsignedRange_above E narg m d Hn ltac:(const_le) Ha)
    | |- context [CheckIntegerRange _ _ _ ?lo ?hi] =>
        rewrite (CheckIntegerRange_above E narg lo hi d Hn Ha)
    end;
    reflexivity.
Qed.

(** [-inf] and every finite value below [minT] raise the argument error
    that names [minT]. *)
Lemma CHECKVAL_integer_below (k : IntKind) E narg d :
  number_at E narg d -> below (minT k) d ->
  CHECKVAL host (cint k) E narg = luaL_argerror narg (too_small (minT k)).
Proof.
  intros Hn Hb. unfold CHECKVAL, CHECKVAL_integer.
  destruct k; simpl in Hb;
    lazymatch goal with
    | |- context [CheckUnsignedRange _ _ _ ?m] =>
        rewrite (CheckUnsignedRange_below E narg m d Hn Hb)
    | |- context [CheckIntegerRange _ _ _ ?lo ?hi] =>
        rewrite (CheckIntegerRange_below E narg lo hi d Hn ltac:(const_le) Hb)
    end;
    reflexivity.
Qed.

(** C3: a NaN argument passes both comparisons of the range helpers and
    reaches the conversion to the integer type, which is undefined for
    it: no argument error is raised, for any of the six integer types. *)
Theorem CHECKVAL_integer_nan (k : IntKind) (E : Eluna) (narg : Z) :
  number_at E narg S754_nan ->
  exists why, CHECKVAL host (cint k) E narg = Fault why.
Proof.
  intros Hn. unfold CHECKVAL, CHECKVAL_integer.
  destruct k; unfold CheckIntegerRange, CheckUnsignedRange;
    rewrite (luaL_checknumber_number _ _ _ Hn); simpl; eexists; reflexivity.
Qed.

(** [CheckValue<uint8>] succeeds for 0 and 255 and fails for 256 and -1
    with the error that names the bound. *)
Lemma CHECKVAL_uint8_examples (E : Eluna) (narg : Z) :
  (number_at E narg (of_Z 0) -> CHECKVAL host (cint unsigned_char) E narg = Ok 0)
  /\ (number_at E narg (of_Z 255) ->
      CHECKVAL host (cint unsigned_char) E narg = Ok 255)
  /\ (number_at E narg (of_Z 256) ->
      CHECKVAL host (cint unsigned_char) E narg
      = luaL_argerror narg "value must be less than or equal to 255")
  /\ (number_at E narg (of_Z (-1)) ->
      CHECKVAL host (cint unsigned_char) E narg
      = luaL_argerror narg "value must be greater than or equal to 0").
Proof.
  repeat split; intros Hn.
  - apply (CHECKVAL_integer_in_range unsigned_char E narg _ (Qmake 0 1) Hn);
      [reflexivity|]. split; const_le.
  - apply (CHECKVAL_integer_in_range unsigned_char E narg _ (Qmake 255 1) Hn);
      [reflexivity|]. split; const_le.
  - rewrite (CHECKVAL_integer_above unsigned_char E narg _ Hn); [reflexivity|].
    right. exists (Qmake 256 1). split; [reflexivity|const_le].
  - rewrite (CHECKVAL_integer_below unsigned_char E narg _ Hn); [reflexivity|].
    right. exists (Qmake (-1) 1). split; [reflexivity|const_le].
Qed.

End NumericChecks.

(** C3, at a concrete call: [CHECKVAL<uint8>(1)] on the argument [0/0]. *)
Lemma CHECKVAL_integer_nan_witness :
  exists why,
    CHECKVAL (Sample.world false) (cint unsigned_char)
      (Sample.with_stack [LNumber S754_nan] Sample.E0) 1 = Fault why.
Proof.
  apply (CHECKVAL_integer_nan (Sample.world false) unsigned_char
           (Sample.with_stack [LNumber S754_nan] Sample.E0) 1).
  reflexivity.
Defined.

(* ===================================================================== *)
(** * Proofs: the check with a default *)
(* ===================================================================== *)

Section DefaultedCheck.

Context (host : Host).

(** C10: for every type [T], [CHECKVAL<T>(narg, def)] returns [def] when
    the argument is absent or nil, whatever the validating check would
    say; an argument that is present and not nil is handed to
    [CHECKVAL<T>(narg)], whose result (value or error) is the result. *)
Theorem CHECKVAL_def_spec (T : Type) (check : CheckVal host T)
  (E : Eluna) (narg : Z) (def : T) :
  (index2value (L E) narg = None \/ index2value (L E) narg = Some LNil ->
   CHECKVAL_def host T E narg def = Ok def)
  /\ (forall v, index2value (L E) narg = Some v -> v <> LNil ->
      CHECKVAL_def host T E narg def = CHECKVAL host T E narg).
Proof.
  unfold CHECKVAL_def, lua_isnoneornil. split.
  - intros [-> | ->]; reflexivity.
  - intros v -> Hv. destruct v; try reflexivity. contradiction.
Qed.

End DefaultedCheck.

(** C10 at concrete calls of [CHECKVAL<uint8>(narg, 7)]: the missing
    second argument and a nil yield 7 although the validating check
    rejects both; the out-of-range 256 is validated and rejected. *)
Lemma CHECKVAL_def_witness :
  let E := Sample.with_stack [LNil; LNumber (of_Z 256)] Sample.E0 in
  let W := Sample.world false in
  CHECKVAL_def W (cint unsigned_char) E 3 7 = Ok 7
  /\ CHECKVAL_def W (cint unsigned_char) E 1 7 = Ok 7
  /\ (exists e, CHECKVAL W (cint unsigned_char) E 1 = LuaError e)
  /\ CHECKVAL_def W (cint unsigned_char) E 2 7
     = luaL_argerror 2 "value must be less than or equal to 255".
Proof.
  intros E W.
  destruct (CHECKVAL_def_spec W (cint unsigned_char) _ E 3 7) as [H3 _].
  destruct (CHECKVAL_def_spec W (cint unsigned_char) _ E 1 7) as [H1 _].
  destruct (CHECKVAL_def_spec W (cint unsigned_char) _ E 2 7) as [_ H2].
  split; [apply H3; left; reflexivity|].
  split; [apply H1; right; reflexivity|].
  split; [eexists; reflexivity|].
  rewrite (H2 (LNumber (of_Z 256))); [reflexivity|reflexivity|discriminate].
Defined.

(* ===================================================================== *)
(** * Proofs: pushing and checking host objects *)
(* ===================================================================== *)

Section Marshaling.

(** C5: a null reference pushes nil; a [Unit] reference is pushed as a
    Creature or Player wrapper when its type tag is TYPEID_UNIT or
    TYPEID_PLAYER and as a Unit wrapper for any other tag; a
    [WorldObject] or [Object] reference is pushed as a Creature, Player,
    GameObject or Corpse wrapper by its tag and as the supertype's
    wrapper otherwise; a Pet or TempSummon reference is pushed as a
    Creature wrapper. *)
Theorem Push_resolves_subtype (E : Eluna) :
  (Push_Unit None E = (Ok tt, pushed LNil E)
   /\ Push_WorldObject None E = (Ok tt, pushed LNil E)
   /\ Push_Object None E = (Ok tt, pushed LNil E)
   /\ Push_Pet None E = (Ok tt, pushed LNil E)
   /\ Push_TempSummon None E = (Ok tt, pushed LNil E))
  /\ (forall o : Object,
        Push_Unit (Some o) E
        = (Ok tt, pushed (wrapper_of (class_of_Unit (GetTypeId o)) o E) E)
        /\ Push_WorldObject (Some o) E
           = (Ok tt, pushed (wrapper_of
                               (class_of_Object W_WorldObject (GetTypeId o)) o E) E)
        /\ Push_Object (Some o) E
           = (Ok tt, pushed (wrapper_of
                               (class_of_Object W_Object (GetTypeId o)) o E) E)
        /\ Push_Pet (Some o) E = (Ok tt, pushed (wrapper_of W_Creature o E) E)
        /\ Push_TempSummon (Some o) E
           = (Ok tt, pushed (wrapper_of W_Creature o E) E)).
Proof.
  split; [repeat split|].
  intros [tag guid].
  repeat split; destruct tag; reflexivity.
Qed.

(** What is pushed for a host object is a userdata that carries the
    class name and the current callstack id. *)
Lemma wrapper_of_userdata (T : Wrapper) (o : Object) (E : Eluna) :
  wrapper_of T o E
  = LUserdata (mkElunaObject (tname T) (RefObject o) (callstackid E)).
Proof. reflexivity. Qed.

(** *** Checks *)

Lemma or_else_assoc {A} (a b c : Result (option A)) :
  or_else (or_else a b) c = or_else a (or_else b c).
Proof. destruct a as [[x|]| |]; reflexivity. Qed.

Lemma check_chain_app E narg error chain1 chain2 last :
  check_chain E narg error (chain1 ++ chain2) last
  = fold_right (fun T r => or_else (ElunaTemplate_Check T E narg false) r)
      (check_chain E narg error chain2 last) chain1.
Proof.
  induction chain1 as [|T rest IH]; simpl; [reflexivity|].
  rewrite IH. reflexivity.
Qed.

(** A check without error reporting raises nothing. *)
Lemma CHECKTYPE_quiet E narg name :
  exists r, CHECKTYPE E narg name false = Ok r.
Proof.
  unfold CHECKTYPE.
  destruct (lua_islightuserdata (L E) narg); [eexists; reflexivity|].
  match goal with |- context [if ?m then _ else _] => destruct m end;
    eexists; reflexivity.
Qed.

Lemma ElunaTemplate_Check_quiet T E narg :
  exists r, ElunaTemplate_Check T E narg false = Ok r.
Proof.
  unfold ElunaTemplate_Check.
  destruct (CHECKTYPE_quiet E narg (Some (tname T))) as [[o|] ->].
  - destruct (IsValid E o); eexists; reflexivity.
  - eexists; reflexivity.
Qed.

(** A class the argument is no wrapper of: the quiet check yields null,
    the reporting check raises the mismatch error. *)
Lemma ElunaTemplate_Check_mismatch T E narg error :
  (forall o, lua_touserdata (L E) narg = Some o -> GetTypeName o <> tname T) ->
  ElunaTemplate_Check T E narg error
  = if error then luaL_argerror narg (mismatch_text T E narg) else Ok None.
Proof.
  intros Hno. unfold ElunaTemplate_Check, CHECKTYPE, mismatch_text, actual_type.
  destruct (lua_islightuserdata (L E) narg); [destruct error; reflexivity|].
  destruct (lua_touserdata (L E) narg) as [o|] eqn:Ho.
  - specialize (Hno o eq_refl).
    apply String.eqb_neq in Hno. rewrite Hno. simpl.
    destruct error; reflexivity.
  - destruct error; reflexivity.
Qed.

Lemma check_chain_mismatch E narg error chain last :
  (forall o, lua_touserdata (L E) narg = Some o ->
             forall U, U ∈ chain ++ [last] -> GetTypeName o <> tname U) ->
  check_chain E narg error chain last
  = if error then luaL_argerror narg (mismatch_text last E narg) else Ok None.
Proof.
  induction chain as [|T rest IH]; intros Hno; simpl.
  - apply ElunaTemplate_Check_mismatch. intros o Ho.
    apply (Hno o Ho). apply list_elem_of_singleton. reflexivity.
  - rewrite (ElunaTemplate_Check_mismatch T E narg false).
    + simpl. apply IH. intros o Ho U HU. apply (Hno o Ho).
      apply elem_of_cons. right. exact HU.
    + intros o Ho. apply (Hno o Ho). apply elem_of_cons. left. reflexivity.
Qed.

(** The three specialisations are chains. *)
Lemma CHECKOBJ_Unit_chain E narg error :
  CHECKOBJ_Unit E narg error
  = check_chain E narg error [W_Player; W_Creature] W_Unit.
Proof. reflexivity. Qed.

Lemma CHECKOBJ_WorldObject_chain E narg error :
  CHECKOBJ_WorldObject E narg error
  = check_chain E narg error
      [W_Player; W_Creature; W_Unit; W_GameObject; W_Corpse] W_WorldObject.
Proof.
  unfold CHECKOBJ_WorldObject, CHECKOBJ_Unit. simpl.
  rewrite !or_else_assoc. reflexivity.
Qed.

Lemma CHECKOBJ_Object_chain E narg error :
  CHECKOBJ_Object E narg error
  = check_chain E narg error
      [W_Player; W_Creature; W_Unit; W_GameObject; W_Corpse; W_WorldObject;
       W_Item] W_Object.
Proof.
  unfold CHECKOBJ_Object. rewrite CHECKOBJ_WorldObject_chain. simpl.
  rewrite !or_else_assoc. reflexivity.
Qed.


(** The chains are complete: a live wrapper of any class of the chain
    is accepted and its object returned. *)
Lemma CHECKOBJ_accepts (T U : Wrapper) (E : Eluna) (narg : Z) (error : bool)
  (o : ElunaObject) :
  T ∈ [W_Unit; W_WorldObject; W_Object] -> U ∈ chain_of T ->
  lua_touserdata (L E) narg = Some o -> GetTypeName o = tname U ->
  IsValid E o = true ->
  CHECKOBJ T E narg error = Ok (Some (GetObj o)).
Proof.
  intros HT HU Ho Hname Hvalid.
  assert (Hlight : lua_islightuserdata (L E) narg = false).
  { unfold lua_touserdata in Ho. unfold lua_islightuserdata.
    destruct (index2value (L E) narg) as [[]|]; try discriminate. reflexivity. }
  assert (HT' : T = W_Unit \/ T = W_WorldObject \/ T = W_Object).
  { rewrite !elem_of_cons, elem_of_nil in HT. tauto. }
  destruct HT' as [-> | [-> | ->]]; simpl in HU |- *;
    rewrite ?CHECKOBJ_Unit_chain, ?CHECKOBJ_WorldObject_chain,
            ?CHECKOBJ_Object_chain;
    rewrite !elem_of_cons, elem_of_nil in HU;
    unfold check_chain, ElunaTemplate_Check, CHECKTYPE;
    rewrite Hlight, Ho, Hname;
    repeat (destruct HU as [-> | HU];
            [simpl; rewrite Hvalid; destruct error; reflexivity|]);
    contradiction.
Qed.

End Marshaling.


(* ===================================================================== *)
(** * Proofs: the instance data store *)
(* ===================================================================== *)

Section InstanceData.

Lemma luaL_ref_table (S : lua_State) (rest : list LuaValue) (t : Z) :
  stack S = rest ++ [LTable t] ->
  luaL_ref S
  = Some (Z.pos (fresh (dom (registry S))),
          set_registry (<[fresh (dom (registry S)) := LTable t]> (registry S))
            (set_stack rest S)).
Proof.
  intros Hst. unfold luaL_ref.
  rewrite Hst, last_snoc, removelast_last. reflexivity.
Qed.

Lemma lua_istable_top (S : lua_State) (rest : list LuaValue) (t : Z) :
  stack S = rest ++ [LTable t] -> lua_istable S (-1) = true.
Proof.
  intros Hst. unfold lua_istable, index2value, lua_gettop.
  rewrite Hst, length_app. simpl.
  replace (-1 <? 0) with true by reflexivity.
  replace (- -1 <=? Z.of_nat (length rest + 1)) with true
    by (symmetry; apply Z.leb_le; lia).
  simpl.
  replace (Z.to_nat (Z.of_nat (length rest + 1) + -1)) with (length rest) by lia.
  rewrite lookup_app_r by lia.
  replace (length rest - length rest)%nat with 0%nat by lia. reflexivity.
Qed.

(** What [CreateInstanceData] does, step by step: the table is taken
    off the stack and filed in the registry under a fresh reference; the
    reference stored before, if any, is released; the new reference is
    stored. *)
Lemma CreateInstanceData_run (map : Map) (E : Eluna) (rest : list LuaValue)
  (t : Z) :
  stack (L E) = rest ++ [LTable t] ->
  CreateInstanceData map E
  = (Ok tt,
     let r := fresh (dom (registry (L E))) in
     store_ref map (Z.pos r)
       (set_L (release (stored_ref map E)
                 (set_registry (<[r := LTable t]> (registry (L E)))
                    (set_stack rest (L E)))) E)).
Proof.
  intros Hst. unfold CreateInstanceData, bind, gets, ASSERT, do_luaL_ref.
  rewrite (lua_istable_top _ _ _ Hst), (luaL_ref_table _ _ _ Hst).
  unfold stored_ref, store_ref, release, onL, ret. cbv zeta.
  destruct (Instanceable map); simpl.
  - destruct (instanceDataRefs E !! GetInstanceId map); reflexivity.
  - destruct (continentDataRefs E !! GetId map); reflexivity.
Qed.

Lemma stored_ref_store_ref (map other : Map) (ref : Z) (E : Eluna) :
  stored_ref other (store_ref map ref E)
  = if decide (data_id other = data_id map) then Some ref
    else stored_ref other E.
Proof.
  unfold stored_ref, store_ref, data_id.
  destruct (Instanceable map), (Instanceable other);
    unfold set_instanceDataRefs, set_continentDataRefs;
    cbn [instanceDataRefs continentDataRefs];
    try (rewrite decide_False by congruence; reflexivity).
  - destruct (decide (GetInstanceId other = GetInstanceId map)) as [->|Hne].
    + rewrite lookup_insert_eq, decide_True by reflexivity. reflexivity.
    + rewrite lookup_insert_ne by congruence.
      rewrite decide_False by congruence. reflexivity.
  - destruct (decide (GetId other = GetId map)) as [->|Hne].
    + rewrite lookup_insert_eq, decide_True by reflexivity. reflexivity.
    + rewrite lookup_insert_ne by congruence.
      rewrite decide_False by congruence. reflexivity.
Qed.

Lemma stored_ref_set_L (map : Map) (S : lua_State) (E : Eluna) :
  stored_ref map (set_L S E) = stored_ref map E.
Proof. unfold stored_ref. destruct (Instanceable map); reflexivity. Qed.

Lemma L_store_ref (map : Map) (ref : Z) (E : Eluna) :
  L (store_ref map ref E) = L E.
Proof. unfold store_ref. destruct (Instanceable map); reflexivity. Qed.

(** [HasInstanceData] reads the table of the map's kind. *)
Lemma HasInstanceData_stored (map : Map) (E : Eluna) :
  HasInstanceData map E = true <-> is_Some (stored_ref map E).
Proof.
  unfold HasInstanceData, stored_ref.
  destruct (Instanceable map); simpl; apply bool_decide_eq_true.
Qed.

(** C8: each id holds at most one live table reference.
    [CreateInstanceData] on a table files it under a new reference and
    stores that reference under the map's id (instance id when
    instanceable, map id otherwise); the reference stored for that id
    before is released and differs from the new one; the other ids keep
    theirs; the store stays well formed (stored references live, none
    shared).  [HasInstanceData] is true exactly when a reference is
    stored for the map's id. *)
Theorem CreateInstanceData_spec (map : Map) (E : Eluna)
  (rest : list LuaValue) (t : Z) :
  stack (L E) = rest ++ [LTable t] ->
  data_refs_wf E ->
  exists (ref : Z) (E' : Eluna),
    CreateInstanceData map E = (Ok tt, E')
    /\ stack (L E') = rest
    /\ stored_ref map E' = Some ref
    /\ registry_get (L E') ref = LTable t
    /\ (forall old, stored_ref map E = Some old ->
                    old <> ref /\ live E old /\ ~ live E' old)
    /\ (forall other, data_id other <> data_id map ->
                      stored_ref other E' = stored_ref other E)
    /\ data_refs_wf E'
    /\ (forall m (X : Eluna),
          HasInstanceData m X = true <-> is_Some (stored_ref m X)).
Proof.
  intros Hst [Hlive Hshare].
  set (r := fresh (dom (registry (L E)))).
  assert (Hfresh : registry (L E) !! r = None).
  { apply not_elem_of_dom. apply is_fresh. }
  assert (Hold : forall m old, stored_ref m E = Some old ->
            exists p, old = Z.pos p /\ is_Some (registry (L E) !! p) /\ p <> r).
  { intros m old Hm. destruct (Hlive m old Hm) as (p & -> & Hp).
    exists p. repeat split; [exact Hp|]. intros ->.
    rewrite Hfresh in Hp. destruct Hp as [? [=]]. }
  exists (Z.pos r). eexists. split; [apply (CreateInstanceData_run _ _ _ _ Hst)|].
  cbv zeta. fold r.
  set (S1 := set_registry (<[r:=LTable t]> (registry (L E))) (set_stack rest (L E))).
  assert (Hnew : forall m, stored_ref m E <> Some (Z.pos r)).
  { intros m Hm. destruct (Hold m _ Hm) as (q & [= <-] & _ & Hq).
    contradiction. }
  assert (Hgone : forall p, stored_ref map E = Some (Z.pos p) ->
                  registry (release (stored_ref map E) S1) !! p = None).
  { intros p Hm. rewrite Hm. simpl. apply lookup_delete_eq. }
  assert (Hkeep : forall p, stored_ref map E <> Some (Z.pos p) ->
                  registry (release (stored_ref map E) S1) !! p
                  = <[r:=LTable t]> (registry (L E)) !! p).
  { intros p Hp. destruct (stored_ref map E) as [old|] eqn:Hm; [|reflexivity].
    destruct (Hold map old Hm) as (q & -> & _ & _). simpl.
    apply lookup_delete_ne. congruence. }
  rewrite L_store_ref. simpl L.
  split; [destruct (stored_ref map E) as [[]|]; reflexivity|].
  split; [rewrite stored_ref_store_ref, decide_True by reflexivity; reflexivity|].
  split.
  { simpl. rewrite (Hkeep r (Hnew map)), lookup_insert_eq. reflexivity. }
  split.
  { intros old Hm. destruct (Hold map old Hm) as (q & -> & Hq & Hne).
    split; [congruence|]. split; [exists q; split; [reflexivity|exact Hq]|].
    intros (q' & [= <-] & Hq'). rewrite L_store_ref in Hq'.
    simpl L in Hq'. rewrite (Hgone q Hm) in Hq'.
    destruct Hq' as [? [=]]. }
  split.
  { intros other Hne. rewrite stored_ref_store_ref, decide_False by exact Hne.
    apply stored_ref_set_L. }
  split; [|intros m X; apply HasInstanceData_stored].
  split.
  - intros m ref. rewrite stored_ref_store_ref.
    destruct (decide (data_id m = data_id map)) as [Heq|Hne].
    + intros [= <-]. exists r. split; [reflexivity|].
      rewrite L_store_ref. simpl L.
      rewrite (Hkeep r (Hnew map)), lookup_insert_eq. eauto.
    + rewrite stored_ref_set_L. intros Hm.
      destruct (Hold m ref Hm) as (q & -> & Hq & Hqr).
      exists q. split; [reflexivity|].
      rewrite L_store_ref. simpl L.
      rewrite Hkeep.
      * rewrite lookup_insert_ne by congruence. exact Hq.
      * intros Hm'. apply Hne. apply (Hshare m map (Z.pos q) Hm Hm').
  - intros m1 m2 ref. rewrite !stored_ref_store_ref, !stored_ref_set_L.
    destruct (decide (data_id m1 = data_id map)) as [H1|H1],
             (decide (data_id m2 = data_id map)) as [H2|H2].
    + congruence.
    + intros [= <-] Hm. destruct (Hnew m2 Hm).
    + intros Hm [= <-]. destruct (Hnew m1 Hm).
    + apply Hshare.
Qed.

End InstanceData.

(** C8 on an engine that holds the table 10 for instance 5, given a new
    table 11 for the same instance. *)
Lemma CreateInstanceData_witness :
  exists (ref : Z) (E' : Eluna),
    CreateInstanceData SampleInstance.map5 SampleInstance.E1 = (Ok tt, E')
    /\ stored_ref SampleInstance.map5 E' = Some ref
    /\ registry_get (L E') ref = LTable 11
    /\ ~ live E' 1
    /\ data_refs_wf E'.
Proof.
  assert (Hwf : data_refs_wf SampleInstance.E1).
  { split.
    - intros m ref. unfold stored_ref. simpl.
      destruct (Instanceable m); [|rewrite lookup_empty; discriminate].
      intros [[_ <-] | [_ H]]%lookup_insert_Some;
        [|rewrite lookup_empty in H; discriminate].
      exists 1%positive. split; [reflexivity|]. simpl.
      rewrite lookup_insert_eq. eauto.
    - intros m1 m2 ref. unfold stored_ref, data_id. simpl.
      destruct (Instanceable m1), (Instanceable m2);
        rewrite ?lookup_empty; try discriminate.
      intros [[<- _] | [_ H]]%lookup_insert_Some;
        [|rewrite lookup_empty in H; discriminate].
      intros [[<- _] | [_ H]]%lookup_insert_Some;
        [|rewrite lookup_empty in H; discriminate].
      reflexivity. }
  destruct (CreateInstanceData_spec SampleInstance.map5 SampleInstance.E1
              [] 11 eq_refl Hwf)
    as (ref & E' & Hrun & _ & Hstored & Hget & Hold & _ & Hwf' & _).
  exists ref, E'. repeat split; try assumption.
  - apply (Hold 1). reflexivity.
  - apply Hwf'.
  - apply Hwf'.
Defined.

(* ===================================================================== *)
(** * Proofs: freeing an instance id *)
(* ===================================================================== *)

Section FreeInstance.

Context (host : Host).

Lemma clear_if_bound_keyType key m :
  BindingMap.keyType (clear_if_bound key m) = BindingMap.keyType m.
Proof.
  unfold clear_if_bound. destruct (BindingMap.HasBindingsFor key m); reflexivity.
Qed.

Lemma clear_if_bound_same key m :
  BindingMap.bindings_for key (clear_if_bound key m) = [].
Proof.
  unfold clear_if_bound, BindingMap.HasBindingsFor.
  destruct (BindingMap.bindings_for key m) eqn:Hb; [exact Hb|].
  unfold BindingMap.bindings_for, BindingMap.Clear. simpl.
  rewrite lookup_delete_eq. reflexivity.
Qed.

Lemma clear_if_bound_other key key' m :
  key <> key' ->
  BindingMap.bindings_for key (clear_if_bound key' m)
  = BindingMap.bindings_for key m.
Proof.
  intros Hne. unfold clear_if_bound.
  destruct (BindingMap.HasBindingsFor key' m); [|reflexivity].
  unfold BindingMap.bindings_for, BindingMap.Clear. simpl.
  rewrite lookup_delete_ne by congruence. reflexivity.
Qed.

Lemma clear_if_bound_empty key key' m :
  BindingMap.bindings_for key m = [] ->
  BindingMap.bindings_for key (clear_if_bound key' m) = [].
Proof.
  intros Hb. destruct (decide (key = key')) as [->|Hne].
  - apply clear_if_bound_same.
  - rewrite clear_if_bound_other by exact Hne. exact Hb.
Qed.

Lemma HasBindingsFor_false key m :
  BindingMap.HasBindingsFor key m = false <-> BindingMap.bindings_for key m = [].
Proof.
  unfold BindingMap.HasBindingsFor.
  destruct (BindingMap.bindings_for key m); split; congruence.
Qed.

Lemma GetBinding_Some K type E m :
  GetBinding K type E = Some m <->
  bindingMaps E !! type = Some (Some m) /\ BindingMap.keyType m = K.
Proof.
  unfold GetBinding.
  destruct (bindingMaps E !! type) as [[m'|]|]; [|split; [discriminate|]..].
  - destruct (decide (BindingMap.keyType m' = K)) as [HK|HK].
    + split; [intros [= ->]; auto | intros [[= ->] _]; reflexivity].
    + split; [discriminate | intros [[= ->] HK']; contradiction].
  - intros [[=] _].
  - intros [[=] _].
Qed.

Lemma GetBinding_set_bindingMaps_eq K type m bm E :
  BindingMap.keyType m = K ->
  GetBinding K type (set_bindingMaps (<[type := Some m]> bm) E) = Some m.
Proof.
  intros HK. apply GetBinding_Some. simpl. rewrite lookup_insert_eq. auto.
Qed.

Lemma GetBinding_set_bindingMaps_ne K type type' m bm E :
  type <> type' ->
  GetBinding K type (set_bindingMaps (<[type' := m]> bm) E)
  = GetBinding K type (set_bindingMaps bm E).
Proof.
  intros Hne. unfold GetBinding. simpl.
  rewrite lookup_insert_ne by congruence. reflexivity.
Qed.

Lemma drop_data_lookup instanceId E :
  instanceDataRefs (drop_data instanceId E) !! instanceId = None.
Proof.
  unfold drop_data. destruct (instanceDataRefs E !! instanceId) eqn:H; simpl.
  - apply lookup_delete_eq.
  - exact H.
Qed.

Lemma drop_data_refs instanceId E :
  instanceDataRefs (drop_data instanceId E)
  = delete instanceId (instanceDataRefs E).
Proof.
  unfold drop_data. destruct (instanceDataRefs E !! instanceId) eqn:H; simpl.
  - reflexivity.
  - symmetry. apply delete_id. exact H.
Qed.

Lemma drop_data_L instanceId E :
  L (drop_data instanceId E) = release (instanceDataRefs E !! instanceId) (L E).
Proof.
  unfold drop_data. destruct (instanceDataRefs E !! instanceId); reflexivity.
Qed.

Lemma drop_data_bindingMaps instanceId E :
  bindingMaps (drop_data instanceId E) = bindingMaps E.
Proof.
  unfold drop_data. destruct (instanceDataRefs E !! instanceId); reflexivity.
Qed.

Lemma set_bindingMaps_id E : set_bindingMaps (bindingMaps E) E = E.
Proof. destruct E; reflexivity. Qed.

(** One pass of the loop of [FreeInstanceId], with both stores there. *)
Lemma FreeInstanceId_body_run (instanceId i : Z) (E : Eluna)
  (m1 m2 : BindingMap.t) :
  GetBinding InstanceKey REGTYPE_MAP E = Some m1 ->
  GetBinding InstanceKey REGTYPE_INSTANCE E = Some m2 ->
  FreeInstanceId_body instanceId i E
  = (Ok tt,
     drop_data instanceId
       (set_bindingMaps
          (<[REGTYPE_INSTANCE := Some (clear_if_bound (EntryKey i instanceId) m2)]>
             (<[REGTYPE_MAP := Some (clear_if_bound (EntryKey i instanceId) m1)]>
                (bindingMaps E))) E)).
Proof.
  intros H1 H2.
  pose proof (proj1 (GetBinding_Some _ _ _ _) H1) as [Hl1 HK1].
  pose proof (proj1 (GetBinding_Some _ _ _ _) H2) as [Hl2 HK2].
  set (key := EntryKey i instanceId).
  unfold FreeInstanceId_body. fold InstanceKey. fold key.
  unfold bind at 1. unfold ask_binding at 1. rewrite H1.
  (* the map-event store *)
  set (E1 := set_bindingMaps
               (<[REGTYPE_MAP := Some (clear_if_bound key m1)]> (bindingMaps E)) E).
  assert (Hstep1 :
    (if BindingMap.HasBindingsFor key m1
     then call_binding InstanceKey REGTYPE_MAP
            (fun m => (tt, BindingMap.Clear key m))
     else ret tt) E = (Ok tt, E1)).
  { unfold E1, clear_if_bound.
    destruct (BindingMap.HasBindingsFor key m1).
    - unfold call_binding. rewrite H1. reflexivity.
    - unfold ret. rewrite (insert_id _ _ _ Hl1), set_bindingMaps_id. reflexivity. }
  unfold bind at 1. rewrite Hstep1.
  assert (H2' : GetBinding InstanceKey REGTYPE_INSTANCE E1 = Some m2).
  { unfold E1. rewrite GetBinding_set_bindingMaps_ne by discriminate.
    rewrite set_bindingMaps_id. exact H2. }
  unfold bind at 1. unfold ask_binding at 1. rewrite H2'.
  set (E2 := set_bindingMaps
               (<[REGTYPE_INSTANCE := Some (clear_if_bound key m2)]>
                  (bindingMaps E1)) E1).
  assert (Hstep2 :
    (if BindingMap.HasBindingsFor key m2
     then call_binding InstanceKey REGTYPE_INSTANCE
            (fun m => (tt, BindingMap.Clear key m))
     else ret tt) E1 = (Ok tt, E2)).
  { unfold E2, clear_if_bound.
    destruct (BindingMap.HasBindingsFor key m2).
    - unfold call_binding. rewrite H2'. reflexivity.
    - unfold ret.
      assert (Hl2' : bindingMaps E1 !! REGTYPE_INSTANCE = Some (Some m2))
        by (apply GetBinding_Some in H2'; tauto).
      rewrite (insert_id _ _ _ Hl2'), set_bindingMaps_id. reflexivity. }
  unfold bind at 1. rewrite Hstep2.
  change (set_bindingMaps
            (<[REGTYPE_INSTANCE := Some (clear_if_bound key m2)]>
               (<[REGTYPE_MAP := Some (clear_if_bound key m1)]> (bindingMaps E)))
            E) with E2.
  unfold bind, gets, onL, ret, drop_data.
  destruct (instanceDataRefs E2 !! instanceId); reflexivity.
Qed.

(** The loop over any list of event ids. *)
Lemma FreeInstanceId_loop (instanceId : Z) (ids : list Z) :
  forall (E : Eluna) (m1 m2 : BindingMap.t),
    GetBinding InstanceKey REGTYPE_MAP E = Some m1 ->
    GetBinding InstanceKey REGTYPE_INSTANCE E = Some m2 ->
    exists (E' : Eluna) (m1' m2' : BindingMap.t),
      for_each ids (FreeInstanceId_body instanceId) E = (Ok tt, E')
      /\ GetBinding InstanceKey REGTYPE_MAP E' = Some m1'
      /\ GetBinding InstanceKey REGTYPE_INSTANCE E' = Some m2'
      /\ (forall key, BindingMap.bindings_for key m1 = [] ->
                      BindingMap.bindings_for key m1' = [])
      /\ (forall key, BindingMap.bindings_for key m2 = [] ->
                      BindingMap.bindings_for key m2' = [])
      /\ (forall i, i ∈ ids ->
            BindingMap.bindings_for (EntryKey i instanceId) m1' = []
            /\ BindingMap.bindings_for (EntryKey i instanceId) m2' = [])
      /\ (forall key, (forall i, i ∈ ids -> key <> EntryKey i instanceId) ->
            BindingMap.bindings_for key m1' = BindingMap.bindings_for key m1
            /\ BindingMap.bindings_for key m2' = BindingMap.bindings_for key m2)
      /\ (ids <> [] ->
            instanceDataRefs E' = delete instanceId (instanceDataRefs E)
            /\ L E' = release (instanceDataRefs E !! instanceId) (L E)).
Proof.
  induction ids as [|i rest IH]; intros E m1 m2 H1 H2.
  - exists E, m1, m2. simpl. unfold ret.
    split; [reflexivity|]. split; [exact H1|]. split; [exact H2|].
    split; [auto|]. split; [auto|].
    split; [intros j Hj; apply elem_of_nil in Hj; contradiction|].
    split; [auto|]. intros Hne. contradiction.
  - set (key := EntryKey i instanceId).
    pose proof (FreeInstanceId_body_run instanceId i E m1 m2 H1 H2) as Hrun.
    fold key in Hrun.
    set (E1 := drop_data instanceId _) in Hrun.
    assert (HK1 : BindingMap.keyType m1 = InstanceKey)
      by (apply GetBinding_Some in H1; tauto).
    assert (HK2 : BindingMap.keyType m2 = InstanceKey)
      by (apply GetBinding_Some in H2; tauto).
    assert (H1' : GetBinding InstanceKey REGTYPE_MAP E1
                  = Some (clear_if_bound key m1)).
    { apply GetBinding_Some. unfold E1. rewrite drop_data_bindingMaps. simpl.
      rewrite lookup_insert_ne by discriminate. rewrite lookup_insert_eq.
      rewrite clear_if_bound_keyType. auto. }
    assert (H2' : GetBinding InstanceKey REGTYPE_INSTANCE E1
                  = Some (clear_if_bound key m2)).
    { apply GetBinding_Some. unfold E1. rewrite drop_data_bindingMaps. simpl.
      rewrite lookup_insert_eq. rewrite clear_if_bound_keyType. auto. }
    destruct (IH E1 _ _ H1' H2')
      as (E' & m1' & m2' & Hloop & G1 & G2 & Hmono1 & Hmono2 & Hin & Hout & Hdata).
    exists E', m1', m2'.
    split; [simpl; unfold bind; rewrite Hrun; exact Hloop|].
    split; [exact G1|]. split; [exact G2|].
    split; [intros k Hk; apply Hmono1, clear_if_bound_empty, Hk|].
    split; [intros k Hk; apply Hmono2, clear_if_bound_empty, Hk|].
    split; [|split].
    + intros j [-> | Hj]%elem_of_cons.
      * split; [apply Hmono1|apply Hmono2]; apply clear_if_bound_same.
      * apply Hin, Hj.
    + intros k Hk.
      assert (Hki : k <> key) by (apply Hk; apply elem_of_cons; left; reflexivity).
      destruct (Hout k) as [Ho1 Ho2].
      { intros j Hj. apply Hk. apply elem_of_cons. right. exact Hj. }
      rewrite Ho1, Ho2.
      split; apply clear_if_bound_other; exact Hki.
    + intros _.
      assert (HE1r : instanceDataRefs E1 = delete instanceId (instanceDataRefs E))
        by (unfold E1; rewrite drop_data_refs; reflexivity).
      assert (HE1L : L E1 = release (instanceDataRefs E !! instanceId) (L E))
        by (unfold E1; rewrite drop_data_L; reflexivity).
      destruct rest as [|j rest'].
      * simpl in Hloop. unfold ret in Hloop. injection Hloop as <-.
        split; assumption.
      * destruct Hdata as [Hr HL]; [discriminate|].
        rewrite Hr, HL, HE1r, HE1L. rewrite lookup_delete_eq. simpl.
        split; [apply delete_delete_eq|reflexivity].
Qed.

(** C9: after [FreeInstanceId(instanceId)], with both instance-event
    stores in place and the instance events non-empty, the reference
    stored for [instanceId] is released and erased, so that an
    instanceable map with that instance id has no instance data; for
    every instance event the REGTYPE_MAP and REGTYPE_INSTANCE stores
    hold no binding under the key (event, instanceId); every other key
    and every other instance's data are as before. *)
Theorem FreeInstanceId_spec (instanceId : Z) (E : Eluna)
  (m1 m2 : BindingMap.t) :
  1 < INSTANCE_EVENT_COUNT (events host) ->
  GetBinding InstanceKey REGTYPE_MAP E = Some m1 ->
  GetBinding InstanceKey REGTYPE_INSTANCE E = Some m2 ->
  exists (E' : Eluna) (m1' m2' : BindingMap.t),
    FreeInstanceId host instanceId E = (Ok tt, E')
    /\ instanceDataRefs E' !! instanceId = None
    /\ L E' = release (instanceDataRefs E !! instanceId) (L E)
    /\ (forall other, other <> instanceId ->
          instanceDataRefs E' !! other = instanceDataRefs E !! other)
    /\ (forall map, Instanceable map = true -> GetInstanceId map = instanceId ->
          HasInstanceData map E' = false)
    /\ GetBinding InstanceKey REGTYPE_MAP E' = Some m1'
    /\ GetBinding InstanceKey REGTYPE_INSTANCE E' = Some m2'
    /\ (forall i, instance_event host i ->
          BindingMap.HasBindingsFor (EntryKey i instanceId) m1' = false
          /\ BindingMap.HasBindingsFor (EntryKey i instanceId) m2' = false)
    /\ (forall key, (forall i, instance_event host i ->
                               key <> EntryKey i instanceId) ->
          BindingMap.bindings_for key m1' = BindingMap.bindings_for key m1
          /\ BindingMap.bindings_for key m2' = BindingMap.bindings_for key m2).
Proof.
  intros Hcount H1 H2. unfold FreeInstanceId, instance_event.
  set (n := INSTANCE_EVENT_COUNT (events host)) in *.
  destruct (FreeInstanceId_loop instanceId (seqZ 1 (n - 1)) E m1 m2 H1 H2)
    as (E' & m1' & m2' & Hloop & G1 & G2 & _ & _ & Hin & Hout & Hdata).
  assert (Hmem : forall i, i ∈ seqZ 1 (n - 1) <-> 1 <= i < n).
  { intros i. rewrite elem_of_seqZ. lia. }
  destruct Hdata as [Hr HL].
  { intros Hnil. assert (H : 1 ∈ seqZ 1 (n - 1)) by (apply Hmem; lia).
    rewrite Hnil in H. apply elem_of_nil in H. exact H. }
  exists E', m1', m2'.
  split; [exact Hloop|].
  split; [rewrite Hr; apply lookup_delete_eq|].
  split; [exact HL|].
  split; [intros other Hne; rewrite Hr; apply lookup_delete_ne; congruence|].
  split.
  { intros map Hi <-. unfold HasInstanceData. rewrite Hi. simpl.
    apply bool_decide_eq_false. rewrite Hr, lookup_delete_eq.
    intros [? [=]]. }
  split; [exact G1|]. split; [exact G2|].
  split.
  - intros i Hi. rewrite !HasBindingsFor_false. apply Hin, Hmem, Hi.
  - intros key Hkey. apply Hout. intros i Hi. apply Hkey, Hmem, Hi.
Qed.

End FreeInstance.

(** C9 on the sample engine: instance 5 is freed. *)
Lemma FreeInstanceId_witness :
  exists (E' : Eluna) (m1' m2' : BindingMap.t),
    FreeInstanceId (Sample.world false) 5 SampleInstance.E1 = (Ok tt, E')
    /\ HasInstanceData SampleInstance.map5 E' = false
    /\ registry (L E') !! 1%positive = None
    /\ GetBinding InstanceKey REGTYPE_MAP E' = Some m1'
    /\ GetBinding InstanceKey REGTYPE_INSTANCE E' = Some m2'
    /\ BindingMap.HasBindingsFor (EntryKey 2 5) m1' = false
    /\ BindingMap.HasBindingsFor (EntryKey 7 5) m2' = false
    /\ BindingMap.HasBindingsFor (EntryKey 2 6) m1' = true.
Proof.
  destruct (FreeInstanceId_spec (Sample.world false) 5 SampleInstance.E1
              SampleInstance.store_map SampleInstance.store_instance)
    as (E' & m1' & m2' & Hrun & _ & HL & _ & Hhas & G1 & G2 & Hin & Hout).
  - simpl. lia.
  - reflexivity.
  - reflexivity.
  - exists E', m1', m2'.
    split; [exact Hrun|].
    split; [apply Hhas; reflexivity|].
    split; [rewrite HL; reflexivity|].
    split; [exact G1|]. split; [exact G2|].
    split; [apply (Hin 2); unfold instance_event; simpl; lia|].
    split; [apply (Hin 7); unfold instance_event; simpl; lia|].
    unfold BindingMap.HasBindingsFor.
    destruct (Hout (EntryKey 2 6)) as [-> _]; [|reflexivity].
    intros i _ [=].
Defined.

(* ===================================================================== *)
(** * Proofs: registration *)
(* ===================================================================== *)

Section Registration.

Context (host : Host).

Lemma lua_pushcclosure_two fn (S : lua_State) (a b : LuaValue) :
  lua_pushcclosure fn 2 (push b (push a S))
  = Some (push (LCClosure fn [a; b]) S).
Proof.
  destruct S as [st reg gl fl gc].
  unfold lua_pushcclosure, push, set_stack.
  cbn [stack registry globals fields gc_cycles].
  rewrite !length_app. cbn [length].
  destruct (Nat.leb_spec 2 (length st + 1 + 1)) as [_|Hlt]; [|lia].
  replace (length st + 1 + 1 - 2)%nat with (length st) by lia.
  rewrite <- app_assoc. rewrite take_app_length, drop_app_length. reflexivity.
Qed.

Lemma createCancelCallback_run bindingID regtype E :
  createCancelCallback bindingID regtype E
  = (Ok tt, set_L (push (cancel_callback bindingID regtype) (L E)) E).
Proof.
  unfold createCancelCallback, Push_uint64, bind, onL, onL_checked. simpl.
  rewrite lua_pushcclosure_two. reflexivity.
Qed.

(** A registration through a store that is there. *)
Lemma call_binding_Insert K regtype key functionRef shots m E :
  GetBinding K regtype E = Some m ->
  (bindingID <- call_binding K regtype
                  (BindingMap.Insert key functionRef shots) ;;
   createCancelCallback bindingID regtype ;;;
   ret 1) E
  = (Ok 1, registered regtype key functionRef shots m E).
Proof.
  intros Hm. unfold bind at 1. unfold call_binding. rewrite Hm.
  unfold bind. rewrite createCancelCallback_run. reflexivity.
Qed.

(** A rejected registration: the reference is released and the error
    raised; nothing else changes. *)
Lemma unref_and_error_run functionRef msg E :
  unref_and_error (A := Z) functionRef msg E
  = (LuaError (LString msg), set_L (luaL_unref functionRef (L E)) E).
Proof. reflexivity. Qed.

(** What [Insert] does to the store: one registration more under the
    key, with the next binding id; no other key changes. *)
Lemma Insert_exactly_one key functionRef shots m :
  let m' := snd (BindingMap.Insert key functionRef shots m) in
  fst (BindingMap.Insert key functionRef shots m) = BindingMap.maxBindingID m + 1
  /\ BindingMap.bindings_for key m'
     = BindingMap.bindings_for key m
       ++ [BindingMap.mkBinding (BindingMap.maxBindingID m + 1) functionRef shots]
  /\ (forall k, k <> key ->
        BindingMap.bindings_for k m' = BindingMap.bindings_for k m).
Proof.
  unfold BindingMap.Insert, BindingMap.bindings_for. simpl.
  split; [reflexivity|]. split.
  - rewrite lookup_insert_eq. reflexivity.
  - intros k Hk. rewrite lookup_insert_ne by congruence. reflexivity.
Qed.

(** One [CreateBinding] files one store; the engine is otherwise as it
    was. *)
Lemma CreateBinding_run K type m E :
  CreateBinding K type (set_bindingMaps m E)
  = (Ok tt, set_bindingMaps (<[type := Some (BindingMap.empty K)]> m) E).
Proof. destruct E; reflexivity. Qed.

Lemma CreateBinding_then {A} K type (k : M A) m E :
  (CreateBinding K type ;;; k) (set_bindingMaps m E)
  = k (set_bindingMaps (<[type := Some (BindingMap.empty K)]> m) E).
Proof. unfold bind. rewrite CreateBinding_run. reflexivity. Qed.

Lemma DestroyBindStores_then {A} (k : M A) E :
  (DestroyBindStores ;;; k) E
  = k (set_bindingMaps ((fun _ => None) <$> bindingMaps E) E).
Proof. reflexivity. Qed.

(** After [CreateBindStores] every registration type has its store, of
    the key type [Register] asks for. *)
Lemma CreateBindStores_stores (E : Eluna) (regtype : RegisterTypes) :
  (forall raw, regtype <> REGTYPE_UNKNOWN raw) ->
  GetBinding (key_type_of regtype) regtype (snd (CreateBindStores E))
  = Some (BindingMap.empty (key_type_of regtype)).
Proof.
  intros Hnamed. unfold CreateBindStores.
  rewrite DestroyBindStores_then.
  rewrite !CreateBinding_then, CreateBinding_run.
  unfold GetBinding, snd, set_bindingMaps. cbn [bindingMaps].
  destruct regtype; try (destruct (Hnamed raw eq_refl));
    repeat (rewrite lookup_insert_ne by discriminate);
    rewrite lookup_insert_eq; reflexivity.
Qed.

Ltac split_tests :=
  repeat match goal with
         | |- context [if negb ?b then _ else _] => destruct b eqn:?; cbn [negb]
         | |- context [if ?b then _ else _] => destruct b eqn:?
         | H : context [if ?b then _ else _] |- _ => destruct b eqn:?
         end.

(** C6, amended: [Register] rejects a registration when the
    (type, event) pair is unknown, when the entry names no creature,
    gameobject or item template (types validated by entry), when the
    guid is empty (REGTYPE_CREATURE_UNIQUE), and also when the entry of
    a REGTYPE_PACKET registration is no opcode; it then releases the
    callable's reference, raises an error and leaves every store as it
    was.  Every other registration appends exactly one registration to
    the key's list in the store of its type and returns the cancellation
    callback of the new binding id. *)
Theorem Register_spec (regtype : RegisterTypes)
  (entry guid instanceId event_id functionRef shots : Z) (E : Eluna) :
  (accepted host regtype entry guid event_id = false ->
   exists msg,
     Register host regtype entry guid instanceId event_id functionRef shots E
     = (LuaError (LString msg), set_L (luaL_unref functionRef (L E)) E))
  /\ (accepted host regtype entry guid event_id = true ->
      forall m, GetBinding (key_type_of regtype) regtype E = Some m ->
        let key := key_of regtype entry guid instanceId event_id in
        let m' := snd (BindingMap.Insert key functionRef shots m) in
        Register host regtype entry guid instanceId event_id functionRef shots E
        = (Ok 1, registered regtype key functionRef shots m E)
        /\ BindingMap.bindings_for key m'
           = BindingMap.bindings_for key m
             ++ [BindingMap.mkBinding (BindingMap.maxBindingID m + 1)
                   functionRef shots]
        /\ (forall k, k <> key ->
              BindingMap.bindings_for k m' = BindingMap.bindings_for k m)).
Proof.
  split.
  - unfold accepted, accepted_as_claimed, known_combination, template_exists,
      guid_given, opcode_exists.
    destruct regtype; unfold Register; cbn [event_count];
      intros Hacc; split_tests;
      try (eexists; apply unref_and_error_run);
      simpl in *; try discriminate;
      repeat match goal with
             | H : (_ <=? _) = _ |- _ =>
                 first [apply Z.leb_le in H | apply Z.leb_gt in H]
             | H : (_ <? _) = _ |- _ =>
                 first [apply Z.ltb_lt in H | apply Z.ltb_ge in H]
             end; try lia.
  - intros Hacc m Hm key m'.
    split; [|apply Insert_exactly_one].
    revert Hacc.
    unfold accepted, accepted_as_claimed, known_combination, template_exists,
      guid_given, opcode_exists.
    subst key. unfold key_of.
    destruct regtype; unfold Register; cbn [event_count key_type_of] in *;
      intros Hacc; split_tests; simpl in *; try discriminate;
      try (apply (call_binding_Insert _ _ _ _ _ _ _ Hm));
      repeat match goal with
             | H : (_ <=? _) = _ |- _ =>
                 first [apply Z.leb_le in H | apply Z.leb_gt in H]
             | H : (_ <? _) = _ |- _ =>
                 first [apply Z.ltb_lt in H | apply Z.ltb_ge in H]
             end; try lia.
Qed.

End Registration.

(** C6 on an engine with its stores created: an event of an existing
    creature template is registered, one of a missing template is
    rejected. *)
Lemma Register_witness :
  let W := Sample.world false in
  let E := SampleRegister.E in
  exists m,
    GetBinding (EntryKeyOf CreatureEvents) REGTYPE_CREATURE E = Some m
    /\ Register W REGTYPE_CREATURE 1 0 0 5 4 0 E
       = (Ok 1, registered REGTYPE_CREATURE (EntryKey 5 1) 4 0 m E)
    /\ Register W REGTYPE_CREATURE 77 0 0 5 4 0 E
       = (LuaError (LString "Couldn't find a creature with (ID: 77)!"),
          set_L (luaL_unref 4 (L E)) E).
Proof.
  intros W E.
  destruct (Register_spec W REGTYPE_CREATURE 1 0 0 5 4 0 E) as [_ Hacc].
  destruct (Register_spec W REGTYPE_CREATURE 77 0 0 5 4 0 E) as [Hrej _].
  exists (BindingMap.empty (EntryKeyOf CreatureEvents)).
  assert (Hm : GetBinding (EntryKeyOf CreatureEvents) REGTYPE_CREATURE E
               = Some (BindingMap.empty (EntryKeyOf CreatureEvents))).
  { refine (CreateBindStores_stores Sample.E0 REGTYPE_CREATURE _).
    intros raw; discriminate. }
  split; [exact Hm|]. split.
  - apply (Hacc eq_refl _ Hm).
  - destruct (Hrej eq_refl) as [msg Hmsg]. rewrite Hmsg.
    clearbody E. clear Hacc Hm Hrej.
    unfold Register, unref_and_error in Hmsg. cbn in Hmsg.
    injection Hmsg as <-. reflexivity.
Defined.

(** C6 as stated fails: a REGTYPE_PACKET registration for an event that
    exists, with an entry that is no opcode, meets none of the claim's
    conditions for rejection, and yet it is rejected: the reference is
    released, an error raised and no binding inserted. *)
Lemma Register_packet_counterexample :
  let W := Sample.world false in
  let E := SampleRegister.E in
  accepted_as_claimed W REGTYPE_PACKET 1311 0 1 = true
  /\ Register W REGTYPE_PACKET 1311 0 0 1 4 0 E
     = (LuaError (LString "Couldn't find a creature with (ID: 1311)!"),
        set_L (luaL_unref 4 (L E)) E)
  /\ bindingMaps (snd (Register W REGTYPE_PACKET 1311 0 0 1 4 0 E))
     = bindingMaps E.
Proof.
  intros W E. split; [reflexivity|].
  clearbody E. split; reflexivity.
Defined.

(* ===================================================================== *)
(** * Proofs: the protected call *)
(* ===================================================================== *)

Section ProtectedCall.

Context (host : Host).

(** *** The stack under the API calls of [ExecuteCall] *)

Lemma index2value_pos (St : lua_State) (pre post : list LuaValue) (v : LuaValue) :
  stack St = pre ++ v :: post ->
  index2value St (Z.of_nat (length pre) + 1) = Some v.
Proof.
  intros Hst. unfold index2value.
  destruct (Z.ltb_spec 0 (Z.of_nat (length pre) + 1)) as [_|Hle]; [|lia].
  replace (Z.to_nat (Z.of_nat (length pre) + 1 - 1)) with (length pre) by lia.
  rewrite Hst. apply list_lookup_middle. reflexivity.
Qed.

Lemma index2value_top (St : lua_State) (pre : list LuaValue) (v : LuaValue) :
  stack St = pre ++ [v] -> index2value St (-1) = Some v.
Proof.
  intros Hst. unfold index2value, lua_gettop. rewrite Hst, length_app.
  cbn [length].
  destruct (Z.ltb_spec 0 (-1)) as [Hlt|_]; [lia|].
  destruct (Z.ltb_spec (-1) 0) as [_|Hge]; [|lia].
  destruct (Z.leb_spec (- -1) (Z.of_nat (length pre + 1))) as [_|Hgt]; [|lia].
  cbn [andb].
  replace (Z.to_nat (Z.of_nat (length pre + 1) + -1)) with (length pre) by lia.
  apply list_lookup_middle. reflexivity.
Qed.

Lemma lua_insert_run (St : lua_State) (pre post : list LuaValue) (v : LuaValue) :
  stack St = pre ++ post ++ [v] -> post <> [] ->
  lua_insert (Z.of_nat (length pre) + 1) St = Some (set_stack (pre ++ v :: post) St).
Proof.
  intros Hst Hpost. unfold lua_insert, lua_gettop.
  rewrite Hst, app_assoc, last_snoc, removelast_last, !length_app.
  cbn [length].
  assert (0 < length post)%nat by (destruct post; [contradiction|simpl; lia]).
  destruct (Z.leb_spec 1 (Z.of_nat (length pre) + 1)) as [_|Hlt]; [|lia].
  destruct (Z.leb_spec (Z.of_nat (length pre) + 1)
              (Z.of_nat (length pre + length post + 1))) as [_|Hgt]; [|lia].
  cbn [andb].
  replace (Z.to_nat (Z.of_nat (length pre) + 1 - 1)) with (length pre) by lia.
  rewrite take_app_length, drop_app_length. reflexivity.
Qed.

Lemma lua_remove_run (St : lua_State) (pre post : list LuaValue) (v : LuaValue) :
  stack St = pre ++ v :: post ->
  lua_remove (Z.of_nat (length pre) + 1) St = Some (set_stack (pre ++ post) St).
Proof.
  intros Hst. unfold lua_remove, lua_gettop. rewrite Hst, !length_app.
  cbn [length].
  destruct (Z.leb_spec 1 (Z.of_nat (length pre) + 1)) as [_|Hlt]; [|lia].
  destruct (Z.leb_spec (Z.of_nat (length pre) + 1)
              (Z.of_nat (length pre + S (length post)))) as [_|Hgt]; [|lia].
  cbn [andb].
  replace (Z.to_nat (Z.of_nat (length pre) + 1 - 1)) with (length pre) by lia.
  rewrite take_app_length.
  replace (S (length pre)) with (length (pre ++ [v]))
    by (rewrite length_app; simpl; lia).
  rewrite (cons_middle v pre post), app_assoc, drop_app_length. reflexivity.
Qed.

Lemma lua_pop_one (St : lua_State) (pre : list LuaValue) (v : LuaValue) :
  stack St = pre ++ [v] -> lua_pop 1 St = Some (set_stack pre St).
Proof.
  intros Hst. unfold lua_pop, lua_settop, lua_gettop. rewrite Hst, length_app.
  cbn [length].
  change (0 <=? - (1) - 1) with false. cbv iota.
  destruct (Z.leb_spec (- (- (1) - 1 + 1)) (Z.of_nat (length pre + 1)))
    as [_|Hgt]; [|lia].
  replace (Z.to_nat (Z.of_nat (length pre + 1) + (- (1) - 1) + 1))
    with (length pre) by lia.
  rewrite take_app_length. reflexivity.
Qed.

Lemma push_nils (n : nat) (St : lua_State) :
  Nat.iter n (push LNil) St = set_stack (stack St ++ replicate n LNil) St.
Proof.
  induction n as [|n IH]; simpl.
  - rewrite app_nil_r. destruct St; reflexivity.
  - rewrite IH. unfold push, set_stack.
    cbn [stack registry globals fields gc_cycles package_loaded].
    rewrite <- app_assoc.
    change (LNil :: replicate n LNil) with (replicate (S n) LNil).
    rewrite replicate_S_end. reflexivity.
Qed.

(** *** The protected call, step by step *)

Lemma call_ready_base E below f args params :
  call_ready E below f args params ->
  lua_gettop (L E) - params = Z.of_nat (length below) + 1.
Proof.
  intros (Hst & _ & ->). unfold lua_gettop. rewrite Hst, length_app.
  cbn [length]. lia.
Qed.

Ltac run_monad :=
  cbv beta iota zeta delta [bind gets ASSERT ret onL onL_checked ELUNA_LOG].

(** [lua_pcall] on a stack that holds the function and its arguments. *)
Lemma lua_pcall_run (callee : M (list LuaValue)) (nresults errfunc : Z)
  (E : Eluna) (outer : list LuaValue) (fv : LuaValue) (args : list LuaValue) :
  stack (L E) = outer ++ fv :: args ->
  lua_pcall host callee (Z.of_nat (length args)) nresults errfunc E
  = match callee (set_L (set_stack args (L E)) E) with
    | (Ok vs, E') =>
        (Ok LUA_OK,
         set_L (set_stack (outer ++ adjust_results nresults vs) (L E')) E')
    | (LuaError e, E') =>
        (Ok LUA_ERRRUN,
         set_L (set_stack
                  (outer ++
                   [match (if errfunc =? 0 then None
                           else index2value (L E) errfunc) with
                    | Some hv => message_handler host hv e (L E')
                    | None => e
                    end]) (L E')) E')
    | (Fault w, E') => (Fault w, E')
    end.
Proof.
  intros Hst. unfold lua_pcall, lua_gettop. rewrite Hst, length_app.
  cbn [length].
  destruct (Z.leb_spec 0 (Z.of_nat (length args))) as [_|Hlt]; [|lia].
  destruct (Z.leb_spec (Z.of_nat (length args) + 1)
              (Z.of_nat (length outer + S (length args)))) as [_|Hgt]; [|lia].
  cbn [andb negb].
  replace (length outer + S (length args) - Z.to_nat (Z.of_nat (length args)) - 1)%nat
    with (length outer) by lia.
  rewrite take_app_length.
  replace (S (length outer)) with (length (outer ++ [fv]))
    by (rewrite length_app; simpl; lia).
  rewrite (cons_middle fv outer args), app_assoc, drop_app_length.
  reflexivity.
Qed.

(** [Report] on a stack whose top is the error value. *)
Lemma Report_run (E : Eluna) (pre : list LuaValue) (v : LuaValue) :
  stack (L E) = pre ++ [v] ->
  Report host E
  = (Ok tt,
     set_L (set_stack pre (L E)) (add_log (LogError (error_text host v)) E)).
Proof.
  intros Hst. unfold Report. run_monad.
  rewrite (index2value_top _ _ _ Hst).
  change (L (add_log (LogError (c_str <$> tostring (lualib host) v)) E))
    with (L E).
  rewrite (lua_pop_one _ _ _ Hst). reflexivity.
Qed.

(** [ExecuteCall] on a stack that is ready for it: the three ways the
    called function can end. *)
Lemma ExecuteCall_of_run (callee : M (list LuaValue)) (params res : Z)
  (E : Eluna) (below : list LuaValue) (f : LuaValue) (args : list LuaValue) :
  call_ready E below f args params ->
  ExecuteCall_of host callee params res E
  = match callee (entered args E) with
    | (Ok vs, E2) => (Ok true, left (below ++ adjust_results res vs) E2)
    | (LuaError e, E2) =>
        (Ok false,
         left_failed host (below ++ replicate (Z.to_nat res) LNil)
           (reported host e E2) E2)
    | (Fault w, E2) => (Fault w, E2)
    end.
Proof.
  intros Hready.
  pose proof (call_ready_base _ _ _ _ _ Hready) as Hbase.
  destruct Hready as (Hst & Hf & Hparams).
  unfold ExecuteCall_of. run_monad.
  rewrite Hbase.
  destruct (Z.ltb_spec 0 (Z.of_nat (length below) + 1)) as [_|Hle]; [|lia].
  unfold lua_isfunction at 1. rewrite (index2value_pos _ _ _ _ Hst), Hf.
  cbn [negb]. subst params.
  unfold reported.
  destruct (CONFIG_ELUNA_TRACEBACK host) eqn:Htrace.
  - (* the message handler goes under the function *)
    set (h := LCClosure CF_StackTrace []).
    assert (Hins : lua_insert (Z.of_nat (length below) + 1)
                     (L (set_L (push h (L E)) E))
                   = Some (set_stack (below ++ h :: f :: args) (push h (L E)))).
    { apply (lua_insert_run _ below (f :: args) h); [|discriminate].
      unfold push. simpl. rewrite Hst. rewrite <- app_assoc. reflexivity. }
    rewrite Hins.
    set (E1 := set_event_level _ _).
    assert (Hst1 : stack (L E1) = (below ++ [h]) ++ f :: args).
    { unfold E1. simpl. rewrite <- app_assoc. reflexivity. }
    rewrite (lua_pcall_run callee res _ E1 _ f args Hst1).
    assert (Hent : set_L (set_stack args (L E1)) E1 = entered args E).
    { unfold E1, entered. destruct E as [? ? ? ? ? ? ? ? [] ?]. reflexivity. }
    rewrite Hent.
    assert (Hh : index2value (L E1) (Z.of_nat (length below) + 1) = Some h).
    { apply (index2value_pos _ below (f :: args)). unfold E1. reflexivity. }
    destruct (Z.eqb_spec (Z.of_nat (length below) + 1) 0) as [H0|_]; [lia|].
    rewrite Hh.
    destruct (callee (entered args E)) as [[vs|e|w] E2]; [| |reflexivity].
    + (* results *)
      set (E3 := set_event_level _ _).
      assert (Hrem : lua_remove (Z.of_nat (length below) + 1) (L E3)
                     = Some (set_stack (below ++ adjust_results res vs) (L E3))).
      { apply (lua_remove_run _ below (adjust_results res vs) h).
        unfold E3. simpl. rewrite <- app_assoc. reflexivity. }
      rewrite Hrem. cbn [LUA_OK Z.eqb negb].
      unfold E3, left. destruct E2 as [? ? ? ? ? ? ? ? [] ?]. reflexivity.
    + (* an error value *)
      set (e' := message_handler host h e (L E2)).
      set (E3 := set_event_level _ _).
      assert (Hrem : lua_remove (Z.of_nat (length below) + 1) (L E3)
                     = Some (set_stack (below ++ [e']) (L E3))).
      { apply (lua_remove_run _ below [e'] h).
        unfold E3. simpl. rewrite <- app_assoc. reflexivity. }
      rewrite Hrem. cbn [LUA_ERRRUN Z.eqb negb].
      rewrite (Report_run _ below e') by reflexivity.
      rewrite push_nils.
      unfold E3, left_failed. destruct E2 as [? ? ? ? ? ? ? ? [] ?]. reflexivity.
  - (* no message handler *)
    set (E1 := set_event_level _ _).
    assert (Hst1 : stack (L E1) = below ++ f :: args) by exact Hst.
    rewrite (lua_pcall_run callee res _ E1 _ f args Hst1).
    assert (Hent : set_L (set_stack args (L E1)) E1 = entered args E).
    { unfold E1, entered. destruct E as [? ? ? ? ? ? ? ? [] ?]. reflexivity. }
    rewrite Hent. cbn [Z.eqb].
    destruct (callee (entered args E)) as [[vs|e|w] E2]; [| |reflexivity].
    + cbn [LUA_OK Z.eqb negb].
      unfold left. destruct E2 as [? ? ? ? ? ? ? ? [] ?]. reflexivity.
    + cbn [LUA_ERRRUN Z.eqb negb].
      rewrite (Report_run _ below e) by reflexivity.
      rewrite push_nils.
      unfold left_failed. destruct E2 as [? ? ? ? ? ? ? ? [] ?]. reflexivity.
Qed.


(** *** What reaches the log *)

(** Without the traceback option the error value is reported as it is. *)
Lemma reported_plain (e : LuaValue) (E2 : Eluna) :
  CONFIG_ELUNA_TRACEBACK host = false -> reported host e E2 = e.
Proof. unfold reported. intros ->. reflexivity. Qed.

(** [StackTrace] keeps an error value that is no string (or number). *)
Lemma reported_not_string (e : LuaValue) (E2 : Eluna) :
  is_string e = false -> reported host e E2 = e.
Proof.
  intros He. unfold reported.
  destruct (CONFIG_ELUNA_TRACEBACK host); [|reflexivity].
  unfold message_handler, StackTrace, lua_isstring.
  rewrite (index2value_top _ [] e) by reflexivity.
  rewrite He. reflexivity.
Qed.

(** [StackTrace] keeps the message when [debug] is no table. *)
Lemma reported_no_debug (e : LuaValue) (E2 : Eluna) :
  is_table (default LNil (globals (L E2) !! "debug")) = false ->
  reported host e E2 = e.
Proof.
  intros Hd. unfold reported.
  destruct (CONFIG_ELUNA_TRACEBACK host); [|reflexivity].
  destruct E2 as [? ? ? ? ? ? ? ? [st reg gl fl gc pl] ?].
  cbn [L globals] in Hd.
  unfold message_handler, StackTrace, lua_isstring, lua_istable, lua_getglobal,
    push, set_stack, index2value, lua_gettop, lua_pop, lua_settop.
  simpl. destruct (is_string e); [|reflexivity].
  simpl. rewrite Hd. reflexivity.
Qed.

(** [StackTrace] keeps the message when [debug] is a table whose field
    [traceback] is no function. *)
Lemma reported_no_traceback (e : LuaValue) (E2 : Eluna) (t : Z) :
  globals (L E2) !! "debug" = Some (LTable t) ->
  is_function (default LNil (fields (L E2) !! (t, "traceback"))) = false ->
  reported host e E2 = e.
Proof.
  intros Hdebug Htb. unfold reported.
  destruct (CONFIG_ELUNA_TRACEBACK host); [|reflexivity].
  destruct E2 as [? ? ? ? ? ? ? ? [st reg gl fl gc pl] ?].
  cbn [L globals fields] in Hdebug, Htb.
  unfold message_handler, StackTrace, lua_isstring, lua_istable,
    lua_isfunction, lua_getglobal, lua_getfield, getfield, push, set_stack,
    index2value, lua_gettop, lua_pop, lua_settop.
  simpl. destruct (is_string e); [|reflexivity].
  simpl. rewrite Hdebug.
  simpl. rewrite Htb. reflexivity.
Qed.

(** With the option on, a string message and [debug.traceback] in
    place, what is reported is the result of
    [debug.traceback(message, 1)]. *)
Lemma reported_traceback (e tb : LuaValue) (E2 : Eluna) :
  CONFIG_ELUNA_TRACEBACK host = true -> is_string e = true ->
  traceback_available (L E2) tb ->
  reported host e E2 = call1 (lualib host) tb [e; LNumber (of_Z 1)].
Proof.
  intros Htrace He (t & Hdebug & Hfield & Htb). unfold reported.
  rewrite Htrace.
  destruct E2 as [? ? ? ? ? ? ? ? [st reg gl fl gc pl] ?].
  cbn [L globals fields] in Hdebug, Hfield.
  unfold message_handler, StackTrace, lua_isstring, lua_istable,
    lua_isfunction, lua_getglobal, lua_getfield, lua_pushvalue, lua_call_1,
    getfield, push, set_stack, index2value, lua_gettop, lua_pop, lua_settop.
  simpl. rewrite He.
  simpl. rewrite Hdebug.
  simpl. rewrite Hfield.
  simpl. rewrite Htb.
  reflexivity.
Qed.

(** The state after a failed call, field by field. *)
Lemma left_failed_fields (st : list LuaValue) (e : LuaValue) (E2 : Eluna) :
  let E' := left_failed host st e E2 in
  stack (L E') = st
  /\ log E' = log E2 ++ [LogError (error_text host e)]
  /\ gc_cycles (L E') = S (gc_cycles (L E2))
  /\ event_level E' = (event_level E2 - 1) mod UINT32_MOD
  /\ callstackid E' = callstackid E2
  /\ registry (L E') = registry (L E2)
  /\ bindingMaps E' = bindingMaps E2.
Proof. repeat split. Qed.

Lemma adjust_results_length (res : Z) (vs : list LuaValue) :
  0 <= res -> length (adjust_results res vs) = Z.to_nat res.
Proof.
  intros Hres. unfold adjust_results.
  destruct (Z.ltb_spec res 0) as [Hlt|_]; [lia|].
  rewrite length_take, length_app, length_replicate. lia.
Qed.

(** [ExecuteCall] on a stack that is ready for it never passes a Lua
    error on to its caller. *)
Lemma ExecuteCall_of_no_error (callee : M (list LuaValue)) (params res : Z)
  (E : Eluna) (below : list LuaValue) (f : LuaValue) (args : list LuaValue) :
  call_ready E below f args params ->
  forall e, fst (ExecuteCall_of host callee params res E) <> LuaError e.
Proof.
  intros Hready e.
  rewrite (ExecuteCall_of_run callee params res E below f args Hready).
  destruct (callee (entered args E)) as [[vs|e'|w] E2]; discriminate.
Qed.

(** C1, amended: on a stack that holds a function and its [params]
    arguments, with [res >= 0]: if the called function raises an error,
    [ExecuteCall] returns false, logs the text of the error value,
    forces a collection, leaves exactly [res] nils in place of the
    function and arguments and raises nothing; if it returns,
    [ExecuteCall] returns true and leaves exactly [res] results.  The
    logged value is the error value itself when the traceback option is
    off, when the value is no string, when [debug] is no table, or when
    [debug] is a table whose [traceback] is no function; with the
    option on, a string message and [debug.traceback] in place it is
    the result of [debug.traceback(message, 1)]. *)
Theorem ExecuteCall_spec (body : Script) (params res : Z) (E : Eluna)
  (below : list LuaValue) (f : LuaValue) (args : list LuaValue) :
  call_ready E below f args params -> 0 <= res ->
  (forall e E2, run host body (entered args E) = (LuaError e, E2) ->
     let E' := left_failed host (below ++ replicate (Z.to_nat res) LNil)
                 (reported host e E2) E2 in
     ExecuteCall host body params res E = (Ok false, E')
     /\ stack (L E') = below ++ replicate (Z.to_nat res) LNil
     /\ log E' = log E2 ++ [LogError (error_text host (reported host e E2))]
     /\ gc_cycles (L E') = S (gc_cycles (L E2)))
  /\ (forall vs E2, run host body (entered args E) = (Ok vs, E2) ->
        ExecuteCall host body params res E
        = (Ok true, left (below ++ adjust_results res vs) E2)
        /\ length (adjust_results res vs) = Z.to_nat res
        /\ log (left (below ++ adjust_results res vs) E2) = log E2)
  /\ (forall e, fst (ExecuteCall host body params res E) <> LuaError e)
  /\ (forall e E2,
        (CONFIG_ELUNA_TRACEBACK host = false -> reported host e E2 = e)
        /\ (is_string e = false -> reported host e E2 = e)
        /\ (is_table (default LNil (globals (L E2) !! "debug")) = false ->
            reported host e E2 = e)
        /\ (forall t, globals (L E2) !! "debug" = Some (LTable t) ->
              is_function (default LNil (fields (L E2) !! (t, "traceback")))
              = false ->
              reported host e E2 = e)
        /\ (forall tb, CONFIG_ELUNA_TRACEBACK host = true ->
              is_string e = true -> traceback_available (L E2) tb ->
              reported host e E2
              = call1 (lualib host) tb [e; LNumber (of_Z 1)])).
Proof.
  intros Hready Hres.
  pose proof (ExecuteCall_of_run (run host body) params res E below f args
                Hready) as Hrun.
  fold (ExecuteCall host body params res) in Hrun.
  split; [|split; [|split]].
  - intros e E2 Hbody E'. rewrite Hbody in Hrun.
    split; [exact Hrun|]. repeat split.
  - intros vs E2 Hbody. rewrite Hbody in Hrun.
    split; [exact Hrun|]. split; [apply adjust_results_length, Hres|reflexivity].
  - apply (ExecuteCall_of_no_error _ _ _ _ below f args Hready).
  - intros e E2. split; [apply reported_plain|].
    split; [apply reported_not_string|].
    split; [apply reported_no_debug|].
    split; [apply reported_no_traceback|].
    intros tb. apply reported_traceback.
Qed.

End ProtectedCall.

(** C1 at a concrete call with the traceback option on: a function with
    two arguments raises "boom"; three results were asked for. *)
Lemma ExecuteCall_witness :
  let W := Sample.world true in
  let E := Sample.with_stack
             [LNumber (of_Z 5); LFunction 1; LString "a"; LString "b"]
             Sample.E0 in
  exists E',
    ExecuteCall W (SError (LString "boom")) 2 3 E = (Ok false, E')
    /\ stack (L E') = [LNumber (of_Z 5); LNil; LNil; LNil]
    /\ log E' = [LogError (Some "boom <stack traceback>")]
    /\ event_level E' = 0.
Proof.
  intros W E.
  destruct (ExecuteCall_spec W (SError (LString "boom")) 2 3 E
              [LNumber (of_Z 5)] (LFunction 1) [LString "a"; LString "b"])
    as (Hfail & _).
  - repeat split.
  - lia.
  - destruct (Hfail (LString "boom") (entered [LString "a"; LString "b"] E)
                eq_refl) as (Hrun & Hstack & Hlog & _).
    eexists. split; [exact Hrun|]. repeat split.
Defined.

(** C1 as stated fails: with the traceback option on and
    [debug.traceback] in place, an error value that is no string is
    logged as a null string, without any stack trace; and when the
    script has removed [debug], a string message is logged bare. *)
Lemma ExecuteCall_trace_counterexample :
  let W := Sample.world true in
  let E := Sample.with_stack [LFunction 1] Sample.E0 in
  CONFIG_ELUNA_TRACEBACK W = true
  /\ traceback_available (L E) (LFunction 7)
  /\ (exists E',
        ExecuteCall W (SError (LTable 5)) 0 1 E = (Ok false, E')
        /\ log E' = [LogError None])
  /\ (exists E',
        ExecuteCall W (SSetGlobal "debug" LNil (SError (LString "boom"))) 0 1 E
        = (Ok false, E')
        /\ log E' = [LogError (Some "boom")]).
Proof.
  intros W E. split; [reflexivity|]. split.
  - exists 1. repeat split.
  - split.
    + exists (snd (ExecuteCall W (SError (LTable 5)) 0 1 E)).
      split; vm_compute; reflexivity.
    + exists (snd (ExecuteCall W
                     (SSetGlobal "debug" LNil (SError (LString "boom"))) 0 1 E)).
      split; vm_compute; reflexivity.
Defined.

(* ===================================================================== *)
(** * Proofs: nesting depth and the callstack id *)
(* ===================================================================== *)

Section Epoch.

Context (host : Host).

Lemma InvalidateObjects_run (E : Eluna) :
  InvalidateObjects E
  = (if (callstackid E + 1) mod UINT64_MOD =? 0
     then Fault "Callstackid overflow" else Ok tt,
     set_callstackid ((callstackid E + 1) mod UINT64_MOD) E).
Proof.
  unfold InvalidateObjects, bind, gets, ASSERT. simpl.
  destruct ((callstackid E + 1) mod UINT64_MOD =? 0); reflexivity.
Qed.

(** [CleanUpStack] and the two counters. *)
Lemma CleanUpStack_counters (n : Z) (E : Eluna) (r : Result unit) (E' : Eluna) :
  CleanUpStack n E = (r, E') ->
  event_level E' = event_level E
  /\ (event_level E <> 0 -> callstackid E' = callstackid E)
  /\ (event_level E = 0 -> r = Ok tt -> 0 <= callstackid E < UINT64_MOD ->
      callstackid E' = callstackid E + 1).
Proof.
  unfold CleanUpStack, bind, onL_checked, gets.
  destruct (lua_pop (n + 1) (L E)) as [S'|].
  - simpl. destruct (Z.eqb_spec (event_level E) 0) as [H0|H0].
    + rewrite InvalidateObjects_run. simpl. intros [= <- <-]. simpl.
      split; [reflexivity|]. split; [contradiction|].
      intros _ Hr Hrange.
      destruct (Z.eqb_spec ((callstackid E + 1) mod UINT64_MOD) 0) as [|Hne];
        [discriminate|].
      destruct (Z.eq_dec (callstackid E + 1) UINT64_MOD) as [Heq|Hlt].
      * rewrite Heq, Z.mod_same in Hne by (unfold UINT64_MOD; lia).
        contradiction.
      * apply Z.mod_small. lia.
    + unfold ret. intros [= <- <-]. simpl.
      split; [reflexivity|]. split; [reflexivity|]. contradiction.
  - intros [= <- <-]. split; [reflexivity|]. split; [reflexivity|].
    discriminate.
Qed.

(** [CleanUpStack] returns when the stack holds the values to discard
    and the callstack id has room. *)
Lemma CleanUpStack_returns (n : Z) (E : Eluna) :
  0 <= n + 1 <= lua_gettop (L E) ->
  0 <= callstackid E -> callstackid E + 1 < UINT64_MOD ->
  exists E', CleanUpStack n E = (Ok tt, E').
Proof.
  intros Hn Hlo Hhi.
  unfold CleanUpStack, bind, onL_checked, gets, lua_pop, lua_settop.
  destruct (Z.leb_spec 0 (- (n + 1) - 1)) as [|_]; [lia|].
  destruct (Z.leb_spec (- (- (n + 1) - 1 + 1)) (lua_gettop (L E))) as [_|];
    [|lia].
  simpl. destruct (event_level E =? 0); [|eexists; reflexivity].
  rewrite InvalidateObjects_run. simpl.
  rewrite Z.mod_small by lia.
  destruct (Z.eqb_spec (callstackid E + 1) 0); [lia|].
  eexists; reflexivity.
Qed.

(** A stack on which the two assertions of [ExecuteCall] hold is ready
    for the call. *)
Lemma call_ready_of_checks (params : Z) (E : Eluna) :
  (0 <? lua_gettop (L E) - params) = true ->
  lua_isfunction (L E) (lua_gettop (L E) - params) = true ->
  exists below f args, call_ready E below f args params.
Proof.
  intros Hbase Hfn. apply Z.ltb_lt in Hbase.
  unfold lua_isfunction, index2value in Hfn.
  destruct (Z.ltb_spec 0 (lua_gettop (L E) - params)) as [_|]; [|lia].
  set (i := Z.to_nat (lua_gettop (L E) - params - 1)) in *.
  destruct (stack (L E) !! i) as [f|] eqn:Hi; [|discriminate].
  exists (take i (stack (L E))), f, (drop (S i) (stack (L E))).
  split; [symmetry; apply take_drop_middle; exact Hi|].
  split; [exact Hfn|].
  apply lookup_lt_Some in Hi. rewrite length_drop.
  unfold lua_gettop in *. lia.
Qed.

(** When they do not hold, [ExecuteCall] does not get to the call: it
    stops at an assertion, or at the error that the text of the value
    found raises; the counters are as they were. *)
Lemma ExecuteCall_of_asserts (callee : M (list LuaValue)) (params res : Z)
  (E : Eluna) :
  (0 <? lua_gettop (L E) - params)
  && lua_isfunction (L E) (lua_gettop (L E) - params) = false ->
  exists r E',
    ExecuteCall_of host callee params res E = (r, E')
    /\ (forall b, r <> Ok b)
    /\ callstackid E' = callstackid E /\ event_level E' = event_level E.
Proof.
  intros Hchecks. unfold ExecuteCall_of.
  cbv beta iota zeta delta [bind gets ASSERT ret onL onL_checked onL_result
                            ELUNA_LOG].
  destruct (0 <? lua_gettop (L E) - params).
  - simpl in Hchecks. rewrite Hchecks. cbn [negb fst snd].
    destruct (luaL_tolstring (lualib host) (lua_gettop (L E) - params) (L E))
      as [[text|e|w] L1]; cbn [fst snd];
      do 2 eexists; (split; [reflexivity|]);
      (split; [discriminate|split; reflexivity]).
  - do 2 eexists. split; [reflexivity|].
    split; [discriminate|split; reflexivity].
Qed.

Lemma ExecuteCall_of_counters (callee : M (list LuaValue)) (params res : Z)
  (E : Eluna) (r : Result bool) (E' : Eluna) :
  0 <= event_level E -> event_level E + 1 < UINT32_MOD ->
  keeps_counters callee (event_level E + 1) ->
  ExecuteCall_of host callee params res E = (r, E') ->
  callstackid E' = callstackid E
  /\ ((forall w, r <> Fault w) -> event_level E' = event_level E).
Proof.
  intros Hlo Hhi Hcallee Hrun.
  destruct ((0 <? lua_gettop (L E) - params)
            && lua_isfunction (L E) (lua_gettop (L E) - params)) eqn:Hchecks.
  - apply andb_prop in Hchecks as [Hbase Hfn].
    destruct (call_ready_of_checks params E Hbase Hfn)
      as (below & f & args & Hready).
    rewrite (ExecuteCall_of_run host callee params res E below f args Hready)
      in Hrun.
    assert (Hlevel : event_level (entered args E) = event_level E + 1).
    { unfold entered. simpl. apply Z.mod_small. lia. }
    destruct (callee (entered args E)) as [r2 E2] eqn:Hbody.
    destruct (Hcallee _ _ _ Hbody Hlevel) as [Hid Hlvl].
    assert (Hback : (forall w, r2 <> Fault w) ->
                    (event_level E2 - 1) mod UINT32_MOD = event_level E).
    { intros Hnf. rewrite (Hlvl Hnf).
      replace (event_level E + 1 - 1) with (event_level E) by lia.
      apply Z.mod_small. lia. }
    destruct r2 as [vs|e|w]; injection Hrun as <- <-; simpl.
    + split; [exact Hid|]. intros _. apply Hback. discriminate.
    + split; [exact Hid|]. intros _. apply Hback. discriminate.
    + split; [exact Hid|]. intros Hnf. destruct (Hnf w eq_refl).
  - destruct (ExecuteCall_of_asserts callee params res E Hchecks)
      as (r0 & E0 & Hstop & _ & Hid & Hlvl).
    rewrite Hstop in Hrun. injection Hrun as <- <-.
    split; [exact Hid|]. intros _. exact Hlvl.
Qed.

Lemma depth_nonneg (s : Script) : 0 <= depth s.
Proof. induction s; simpl; lia. Qed.

(** Every script keeps the counters while it runs nested. *)
Lemma run_keeps_counters (s : Script) :
  forall level, 0 < level -> level + depth s < UINT32_MOD ->
                keeps_counters (run host s) level.
Proof.
  induction s as [vs|e|v k IHk|name v k IHk|params res body IHbody k IHk|n k IHk];
    intros level Hpos Hdepth E r E' Hrun Hlevel; simpl in Hrun, Hdepth.
  - injection Hrun as <- <-. split; [reflexivity|intros _; exact Hlevel].
  - injection Hrun as <- <-. split; [reflexivity|intros _; exact Hlevel].
  - unfold bind, onL in Hrun.
    exact (IHk level Hpos Hdepth _ _ _ Hrun Hlevel).
  - unfold bind, onL in Hrun.
    exact (IHk level Hpos Hdepth _ _ _ Hrun Hlevel).
  - unfold bind in Hrun.
    pose proof (depth_nonneg body) as Hdb. pose proof (depth_nonneg k) as Hdk.
    destruct (ExecuteCall_of host (run host body) params res E)
      as [r1 E1] eqn:Hcall.
    apply ExecuteCall_of_counters in Hcall; [|lia|lia|].
    + destruct Hcall as [Hid1 Hlvl1].
      destruct r1 as [b|e|w].
      * assert (Hl1 : event_level E1 = level)
          by (rewrite Hlvl1 by discriminate; exact Hlevel).
        destruct (IHk level Hpos ltac:(lia) _ _ _ Hrun Hl1) as [Hid2 Hlvl2].
        split; [congruence|exact Hlvl2].
      * injection Hrun as <- <-. split; [exact Hid1|].
        intros _. rewrite Hlvl1 by discriminate. exact Hlevel.
      * injection Hrun as <- <-. split; [exact Hid1|].
        intros Hnf. destruct (Hnf w eq_refl).
    + rewrite Hlevel. apply IHbody; lia.
  - unfold bind in Hrun.
    destruct (CleanUpStack n E) as [r1 E1] eqn:Hclean.
    apply CleanUpStack_counters in Hclean.
    destruct Hclean as (Hlvl1 & Hid1 & _).
    specialize (Hid1 ltac:(lia)).
    destruct r1 as [[]|e|w].
    + destruct (IHk level Hpos Hdepth _ _ _ Hrun ltac:(congruence))
        as [Hid2 Hlvl2].
      split; [congruence|exact Hlvl2].
    + injection Hrun as <- <-. split; [exact Hid1|]. intros _. congruence.
    + injection Hrun as <- <-. split; [exact Hid1|]. intros _. congruence.
Qed.

(** C2: [ExecuteCall] runs the function one nesting level deeper and
    takes the level back; nothing that happens inside, a nested dispatch
    and its cleanup included, advances the callstack id.
    [CleanUpStack] advances it exactly when the nesting level is 0 at
    cleanup time, and then by one. *)
Theorem dispatch_epoch_spec (body : Script) (params res n : Z) (E : Eluna) :
  counters_in_range E ->
  event_level E + 1 + depth body < UINT32_MOD ->
  (forall args, event_level (entered args E) = event_level E + 1)
  /\ (forall below f args,
        call_ready E below f args params ->
        ExecuteCall host body params res E
        = match run host body (entered args E) with
          | (Ok vs, E2) => (Ok true, left (below ++ adjust_results res vs) E2)
          | (LuaError e, E2) =>
              (Ok false,
               left_failed host (below ++ replicate (Z.to_nat res) LNil)
                 (reported host e E2) E2)
          | (Fault w, E2) => (Fault w, E2)
          end)
  /\ (forall r E', ExecuteCall host body params res E = (r, E') ->
        callstackid E' = callstackid E
        /\ ((forall w, r <> Fault w) -> event_level E' = event_level E))
  /\ (forall r E', CleanUpStack n E = (r, E') ->
        event_level E' = event_level E
        /\ (event_level E <> 0 -> callstackid E' = callstackid E)
        /\ (event_level E = 0 -> r = Ok tt ->
            callstackid E' = callstackid E + 1))
  /\ (0 <= n + 1 <= lua_gettop (L E) -> callstackid E + 1 < UINT64_MOD ->
      exists E', CleanUpStack n E = (Ok tt, E')).
Proof.
  intros [Hid Hlevel] Hdepth.
  pose proof (depth_nonneg body) as Hd.
  split; [|split; [|split; [|split]]].
  - intros args. unfold entered. simpl. apply Z.mod_small. lia.
  - intros below f args Hready.
    apply (ExecuteCall_of_run host (run host body) params res E below f args
             Hready).
  - intros r E' Hrun. unfold ExecuteCall in Hrun.
    apply ExecuteCall_of_counters in Hrun; [exact Hrun|lia|lia|].
    apply run_keeps_counters; lia.
  - intros r E' Hclean. apply CleanUpStack_counters in Hclean.
    destruct Hclean as (H1 & H2 & H3).
    split; [exact H1|]. split; [exact H2|].
    intros H0 Hr. apply H3; assumption.
  - intros Hn Hroom. apply CleanUpStack_returns; [exact Hn|lia|exact Hroom].
Qed.

End Epoch.

(** C2 on a dispatch that nests another: the handler raises an event,
    whose handler runs and whose hook cleans up at nesting level 1; the
    callstack id stays 2 until the outer hook cleans up at level 0. *)
Lemma dispatch_epoch_witness :
  let W := Sample.world false in
  let E := Sample.with_stack [LNumber (of_Z 1); LFunction 1] Sample.E0 in
  exists E1 E2,
    ExecuteCall W nested_dispatch 0 0 E = (Ok true, E1)
    /\ callstackid E1 = 2 /\ event_level E1 = 0
    /\ CleanUpStack 0 E1 = (Ok tt, E2)
    /\ callstackid E2 = 3.
Proof.
  intros W E.
  set (E1 := snd (ExecuteCall W nested_dispatch 0 0 E)).
  set (E2 := snd (CleanUpStack 0 E1)).
  assert (Hrun : ExecuteCall W nested_dispatch 0 0 E = (Ok true, E1))
    by (vm_compute; reflexivity).
  assert (Hclean : CleanUpStack 0 E1 = (Ok tt, E2))
    by (vm_compute; reflexivity).
  destruct (dispatch_epoch_spec W nested_dispatch 0 0 0 E)
    as (_ & _ & Hcall & _).
  { split; vm_compute; split; congruence. }
  { vm_compute. reflexivity. }
  destruct (Hcall _ _ Hrun) as [Hid Hlvl].
  destruct (dispatch_epoch_spec W nested_dispatch 0 0 0 E1)
    as (_ & _ & _ & Hcleanup & _).
  { split; vm_compute; split; congruence. }
  { vm_compute. reflexivity. }
  destruct (Hcleanup _ _ Hclean) as (_ & _ & Hadv).
  exists E1, E2.
  split; [exact Hrun|]. split; [exact Hid|].
  split; [apply Hlvl; discriminate|].
  split; [exact Hclean|].
  rewrite Hadv; [rewrite Hid; reflexivity|apply Hlvl; discriminate|reflexivity].
Defined.

(* ===================================================================== *)
(** * Proofs: running the script batch *)
(* ===================================================================== *)

Section Batch.

Context (host : Host).


Lemma bind_run {A B} (m : M A) (k : A -> M B) (E : Eluna) :
  bind m k E
  = match m E with
    | (Ok a, E') => k a E'
    | (LuaError e, E') => (LuaError e, E')
    | (Fault w, E') => (Fault w, E')
    end.
Proof. reflexivity. Qed.


Lemma lua_pushvalue_top (St : lua_State) (pre : list LuaValue) (v : LuaValue) :
  stack St = pre ++ [v] -> lua_pushvalue (-1) St = Some (push v St).
Proof.
  intros Hst. unfold lua_pushvalue. rewrite (index2value_top _ _ _ Hst).
  reflexivity.
Qed.

(** The call of [require] in the loop body: the stack is ready. *)
Lemma require_call_ready (it : LuaScript) (E : Eluna) (base : list LuaValue)
  (req : LuaValue) :
  batch_ready E base req ->
  call_ready
    (set_L (lua_pushstring (Some (filename it)) (push req (L E))) E)
    (base ++ [req]) req [LString (c_str (filename it))] 1.
Proof.
  intros [Hst Hreq]. split; [|split; [exact Hreq|reflexivity]].
  simpl. rewrite Hst. rewrite <- !app_assoc. reflexivity.
Qed.

Lemma requiring_pushed (it : LuaScript) (E : Eluna) (req : LuaValue) :
  entered [LString (c_str (filename it))]
    (set_L (lua_pushstring (Some (filename it)) (push req (L E))) E)
  = requiring it E.
Proof.
  unfold requiring, entered. destruct E as [? ? ? ? ? ? ? ? [] ?]. reflexivity.
Qed.

(** The call of [require] for a script, on "Stack: require": the three
    ways [require] can end. *)
Lemma call_require_run (it : LuaScript) (E : Eluna) (base : list LuaValue)
  (req : LuaValue) :
  batch_ready E base req ->
  call_require host it E
  = match require host (requiring it E) with
    | (Ok vs, E2) => (Ok true, left (base ++ [req]) E2)
    | (LuaError e, E2) =>
        (Ok false, left_failed host (base ++ [req]) (reported host e E2) E2)
    | (Fault w, E2) => (Fault w, E2)
    end.
Proof.
  intros Hready. unfold call_require.
  unfold bind at 1. unfold onL_checked at 1.
  rewrite (lua_pushvalue_top _ base req (proj1 Hready)).
  unfold bind at 1. unfold onL at 1.
  rewrite (ExecuteCall_of_run host _ 1 0 _ (base ++ [req]) req
             [LString (c_str (filename it))]
             (require_call_ready it E base req Hready)).
  change (L (set_L (push req (L E)) E)) with (push req (L E)).
  change (set_L (lua_pushstring (Some (filename it)) (push req (L E)))
            (set_L (push req (L E)) E))
    with (set_L (lua_pushstring (Some (filename it)) (push req (L E))) E).
  rewrite requiring_pushed.
  destruct (require host (requiring it E)) as [[vs|e|w] E2]; [| |reflexivity].
  - unfold adjust_results. simpl. rewrite app_nil_r. reflexivity.
  - simpl. rewrite app_nil_r. reflexivity.
Qed.

Lemma for_this_map_filter (boundMapId : Z) (it : LuaScript) :
  for_this_map boundMapId it ->
  negb (mapId it =? -1) && negb (mapId it =? boundMapId) = false.
Proof.
  intros [-> | ->].
  - reflexivity.
  - rewrite Z.eqb_refl. apply andb_false_r.
Qed.

Lemma other_map_filter (boundMapId : Z) (it : LuaScript) :
  ~ for_this_map boundMapId it ->
  negb (mapId it =? -1) && negb (mapId it =? boundMapId) = true.
Proof.
  unfold for_this_map. intros Hother.
  destruct (Z.eqb_spec (mapId it) (-1)) as [?|_]; [tauto|].
  destruct (Z.eqb_spec (mapId it) boundMapId) as [?|_]; [tauto|].
  reflexivity.
Qed.



(** One pass of the loop for a script that is to be loaded, through the
    call of [require]. *)
Lemma RunScripts_body_call (boundMapId : Z) (it : LuaScript)
  (loaded : gmap string string) (count : Z) (E : Eluna) :
  for_this_map boundMapId it -> loaded !! filename it = None ->
  RunScripts_body host boundMapId it (loaded, count) E
  = match call_require host it E with
    | (Ok true, E1) =>
        (Ok (<[filename it := filepath it]> loaded, (count + 1) mod UINT32_MOD),
         add_log (LogDebug (loaded_message it)) E1)
    | (Ok false, E1) => (Ok (<[filename it := filepath it]> loaded, count), E1)
    | (LuaError e, E1) => (LuaError e, E1)
    | (Fault w, E1) => (Fault w, E1)
    end.
Proof.
  intros Hmap Hnew. unfold RunScripts_body.
  rewrite (for_this_map_filter _ _ Hmap), Hnew.
  unfold call_require, bind, onL_checked, onL, ret, ELUNA_LOG.
  destruct (lua_pushvalue (-1) (L E)) as [L1|]; [|reflexivity].
  destruct (ExecuteCall_of host (require host) 1 0 _) as [[[]|e|w] E1];
    reflexivity.
Qed.

(** One pass of the loop for a script that is to be loaded. *)
Lemma RunScripts_body_require (boundMapId : Z) (it : LuaScript)
  (loaded : gmap string string) (count : Z) (E : Eluna)
  (base : list LuaValue) (req : LuaValue) :
  for_this_map boundMapId it -> loaded !! filename it = None ->
  batch_ready E base req ->
  RunScripts_body host boundMapId it (loaded, count) E
  = match require host (requiring it E) with
    | (Ok vs, E2) =>
        (Ok (<[filename it := filepath it]> loaded, (count + 1) mod UINT32_MOD),
         add_log (LogDebug (loaded_message it)) (left (base ++ [req]) E2))
    | (LuaError e, E2) =>
        (Ok (<[filename it := filepath it]> loaded, count),
         left_failed host (base ++ [req]) (reported host e E2) E2)
    | (Fault w, E2) => (Fault w, E2)
    end.
Proof.
  intros Hmap Hnew Hready.
  rewrite (RunScripts_body_call _ _ _ _ _ Hmap Hnew).
  rewrite (call_require_run it E base req Hready).
  destruct (require host (requiring it E)) as [[vs|e|w] E2]; reflexivity.
Qed.

(** *** The map [loaded] and the scripts tried so far *)






(** The loop never passes a Lua error on: no script failure escapes. *)
Lemma RunScripts_body_no_error (boundMapId : Z) (it : LuaScript)
  (locals : BatchLocals) (E : Eluna) (base : list LuaValue) (req : LuaValue) :
  batch_ready E base req ->
  forall e, fst (RunScripts_body host boundMapId it locals E) <> LuaError e.
Proof.
  intros Hready e. destruct locals as [loaded count].
  destruct (decide (for_this_map boundMapId it)) as [Hmap|Hother].
  - destruct (loaded !! filename it) as [from|] eqn:Hl.
    + unfold RunScripts_body. rewrite (for_this_map_filter _ _ Hmap), Hl.
      discriminate.
    + rewrite (RunScripts_body_require _ _ _ _ _ base req Hmap Hl Hready).
      destruct (require host (requiring it E)) as [[vs|e'|w] E2]; discriminate.
  - unfold RunScripts_body. rewrite (other_map_filter _ _ Hother).
    discriminate.
Qed.


End Batch.



(* ===================================================================== *)
(** * Proofs: values pushed and read back *)
(* ===================================================================== *)

Section ValueRoundTrip.

Context (host : Host).

Lemma classify_of_Z (n : Z) : classify (of_Z n) = DFin (Qmake n 1).
Proof.
  destruct n as [|p|p]; cbn; [reflexivity| |];
    f_equal; f_equal; lia.
Qed.

Lemma Qtrunc_integer (n : Z) : Qtrunc (Qmake n 1) = n.
Proof. unfold Qtrunc. cbn. apply Z.quot_1_r. Qed.

Lemma number_at_pushed (d : double) (E : Eluna) :
  number_at (pushed (LNumber d) E) (-1) d.
Proof.
  unfold number_at, pushed. cbn [L set_L].
  apply (index2value_top _ (stack (L E))). reflexivity.
Qed.

Lemma above_integer (max n : Z) : max < n -> above max (of_Z n).
Proof.
  intros Hlt. right. exists (Qmake n 1). split; [apply classify_of_Z|].
  unfold Qlt. cbn. lia.
Qed.

Lemma below_integer (min n : Z) : n < min -> below min (of_Z n).
Proof.
  intros Hlt. right. exists (Qmake n 1). split; [apply classify_of_Z|].
  unfold Qlt. cbn. lia.
Qed.

(** X1: an integer that [Push(int)] or [Push(unsigned int)] has pushed
    (a value of one of the two types) is read back unchanged by
    [CHECKVAL<T>] for each of the six integer types [T] whose range
    holds it; a type whose range does not hold it raises the argument
    error that names the bound passed. *)
Theorem Push_CHECKVAL_integer (k : IntKind) (n : Z) (E : Eluna) :
  INT_MIN <= n <= UINT_MAX ->
  let E1 := pushed (LNumber (of_Z n)) E in
  Push_int n E = (Ok tt, E1)
  /\ Push_unsigned_int n E = (Ok tt, E1)
  /\ (minT k <= n <= maxT k -> CHECKVAL host (cint k) E1 (-1) = Ok n)
  /\ (maxT k < n ->
      CHECKVAL host (cint k) E1 (-1)
      = luaL_argerror (-1) (too_large (maxT k)))
  /\ (n < minT k ->
      CHECKVAL host (cint k) E1 (-1)
      = luaL_argerror (-1) (too_small (minT k))).
Proof.
  intros _ E1. split; [reflexivity|]. split; [reflexivity|].
  pose proof (number_at_pushed (of_Z n) E) as Hn. fold E1 in Hn.
  split; [|split].
  - intros Hin.
    destruct (CHECKVAL_integer_in_range host k E1 (-1) (of_Z n) (Qmake n 1) Hn
                (classify_of_Z n)) as [Hok _].
    + unfold Qbetween, Qle. cbn. lia.
    + rewrite Hok, Qtrunc_integer. reflexivity.
  - intros Hgt. apply (CHECKVAL_integer_above host k E1 (-1) (of_Z n) Hn).
    apply above_integer, Hgt.
  - intros Hlt. apply (CHECKVAL_integer_below host k E1 (-1) (of_Z n) Hn).
    apply below_integer, Hlt.
Qed.

Lemma index2value_pushed (v : LuaValue) (E : Eluna) :
  index2value (L (pushed v E)) (-1) = Some v.
Proof.
  unfold pushed. cbn [L set_L].
  apply (index2value_top _ (stack (L E))). reflexivity.
Qed.

(** A C string holds no NUL, and a string without a NUL is its own C
    string. *)
Lemma c_str_no_nul (s : string) : has_nul (c_str s) = false.
Proof.
  induction s as [|c rest IH]; [reflexivity|]. cbn [c_str].
  destruct (Ascii.eqb c Ascii.zero) eqn:Hc; [reflexivity|].
  cbn [has_nul]. rewrite Hc. exact IH.
Qed.

Lemma c_str_id (s : string) : has_nul s = false -> c_str s = s.
Proof.
  induction s as [|c rest IH]; [reflexivity|]. cbn [has_nul c_str].
  destruct (Ascii.eqb c Ascii.zero); [discriminate|].
  intros Hrest. rewrite (IH Hrest). reflexivity.
Qed.

Lemma c_str_c_str (s : string) : c_str (c_str s) = c_str s.
Proof. apply c_str_id, c_str_no_nul. Qed.

(** What follows the first NUL is not part of the C string. *)
Lemma c_str_cut (s1 s2 : string) :
  has_nul s1 = false -> c_str (s1 +:+ String Ascii.zero s2) = s1.
Proof.
  induction s1 as [|c rest IH]; [reflexivity|].
  cbn [has_nul]. change (String c rest +:+ String Ascii.zero s2)
    with (String c (rest +:+ String Ascii.zero s2)).
  cbn [c_str]. destruct (Ascii.eqb c Ascii.zero); [discriminate|].
  intros Hrest. rewrite (IH Hrest). reflexivity.
Qed.

(** X2: a boolean and a double that [Push] has pushed are read back
    unchanged by [CHECKVAL<bool>] and [CHECKVAL<double>].  A string
    goes to Lua through a [const char*] and comes back through one:
    [Push] pushes its text up to the first NUL, [CHECKVAL<std::string>]
    reads a Lua string up to its first NUL, so the round trip yields
    the text up to the first NUL, which is the string itself when it
    holds no NUL.  The nil of [Push()] and of a null [const char*]
    makes a check with a default return the default; a pushed boolean
    is no number for [CHECKVAL<double>]. *)
Theorem Push_CHECKVAL_scalar (E : Eluna) :
  (forall b, Push_bool b E = (Ok tt, pushed (LBoolean b) E)
             /\ CHECKVAL host bool (pushed (LBoolean b) E) (-1) = Ok b)
  /\ (forall d, Push_double d E = (Ok tt, pushed (LNumber d) E)
                /\ CHECKVAL host double (pushed (LNumber d) E) (-1) = Ok d)
  /\ (forall s, Push_string s E = (Ok tt, pushed (LString (c_str s)) E)
                /\ Push_char_ptr (Some s) E
                   = (Ok tt, pushed (LString (c_str s)) E)
                /\ CHECKVAL host string (pushed (LString (c_str s)) E) (-1)
                   = Ok (c_str s)
                /\ (has_nul s = false -> c_str s = s)
                /\ (forall rest, has_nul s = false ->
                      c_str (s +:+ String Ascii.zero rest) = s))
  /\ (forall t, CHECKVAL host string (pushed (LString t) E) (-1)
                = Ok (c_str t))
  /\ (Push_nil E = (Ok tt, pushed LNil E)
      /\ Push_char_ptr None E = (Ok tt, pushed LNil E)
      /\ forall (T : Type) (check : CheckVal host T) (def : T),
           CHECKVAL_def host T (pushed LNil E) (-1) def = Ok def)
  /\ (forall b, CHECKVAL host double (pushed (LBoolean b) E) (-1)
                = luaL_argerror (-1) "number expected, got boolean").
Proof.
  split; [|split; [|split; [|split; [|split]]]].
  - intros b. split; [reflexivity|].
    unfold CHECKVAL, CHECKVAL_bool, lua_toboolean.
    rewrite index2value_pushed. destruct b; reflexivity.
  - intros d. split; [reflexivity|].
    unfold CHECKVAL, CHECKVAL_double, luaL_checknumber.
    rewrite index2value_pushed. reflexivity.
  - intros s. split; [reflexivity|]. split; [reflexivity|].
    split; [|split; [apply c_str_id|intros rest; apply c_str_cut]].
    unfold CHECKVAL, CHECKVAL_string, luaL_checkstring.
    rewrite index2value_pushed. cbn. rewrite c_str_c_str. reflexivity.
  - intros t. unfold CHECKVAL, CHECKVAL_string, luaL_checkstring.
    rewrite index2value_pushed. reflexivity.
  - split; [reflexivity|]. split; [reflexivity|].
    intros T check def. unfold CHECKVAL_def, lua_isnoneornil.
    rewrite index2value_pushed. reflexivity.
  - intros b. unfold CHECKVAL, CHECKVAL_double, luaL_checknumber, luaL_typename.
    rewrite index2value_pushed. reflexivity.
Qed.

Lemma lua_isnumber_number (E : Eluna) (narg : Z) (d : double) :
  number_at E narg d -> lua_isnumber (lualib host) (L E) narg = true.
Proof. unfold number_at, lua_isnumber. intros ->. reflexivity. Qed.

(** X3: a number given where a 64-bit value is expected.
    [CHECKVAL<unsigned long long>] checks it as a [uint32]: a number
    above 4294967295 or below 0 raises the range error, one in between
    is returned truncated.  [CHECKVAL<long long>] truncates a number
    that a [long long] holds and raises no range error; its conversion
    of a NaN is undefined. *)
Theorem CHECKVAL_64bit_number (E : Eluna) (narg : Z) (d : double) :
  number_at E narg d ->
  CHECKVAL host unsigned_long_long E narg
  = CHECKVAL host (cint unsigned_int) E narg
  /\ (above UINT_MAX d ->
      CHECKVAL host unsigned_long_long E narg
      = luaL_argerror narg (too_large UINT_MAX))
  /\ (below 0 d ->
      CHECKVAL host unsigned_long_long E narg
      = luaL_argerror narg (too_small 0))
  /\ (forall q, classify d = DFin q -> Qbetween 0 UINT_MAX q ->
        CHECKVAL host unsigned_long_long E narg = Ok (Qtrunc q))
  /\ (forall q, classify d = DFin q -> LLONG_MIN <= Qtrunc q <= LLONG_MAX ->
        CHECKVAL host long_long E narg = Ok (Qtrunc q))
  /\ (classify d = DNaN ->
      exists why, CHECKVAL host long_long E narg = Fault why).
Proof.
  intros Hn.
  assert (Hu : CHECKVAL host unsigned_long_long E narg
               = CHECKVAL host (cint unsigned_int) E narg).
  { unfold CHECKVAL at 1. unfold CHECKVAL_unsigned_long_long.
    rewrite (lua_isnumber_number E narg d Hn). reflexivity. }
  assert (Hl : CHECKVAL host long_long E narg
               = match static_cast_long_long d with
                 | Some n => Ok n
                 | None =>
                     Fault "static_cast<long long>: the value has no long long"
                 end).
  { unfold CHECKVAL at 1. unfold CHECKVAL_long_long.
    rewrite (lua_isnumber_number E narg d Hn).
    unfold CHECKVAL, CHECKVAL_double.
    rewrite (luaL_checknumber_number host E narg d Hn). reflexivity. }
  split; [exact Hu|]. rewrite Hu.
  split; [apply (CHECKVAL_integer_above host unsigned_int E narg d Hn)|].
  split; [apply (CHECKVAL_integer_below host unsigned_int E narg d Hn)|].
  split; [|split].
  - intros q Hq Hb.
    apply (CHECKVAL_integer_in_range host unsigned_int E narg d q Hn Hq Hb).
  - intros q Hq [Hlo Hhi]. rewrite Hl. unfold static_cast_long_long.
    rewrite Hq. cbv zeta.
    apply Z.leb_le in Hlo. apply Z.leb_le in Hhi. rewrite Hlo, Hhi.
    reflexivity.
  - intros Hnan. rewrite Hl. unfold static_cast_long_long. rewrite Hnan.
    eexists; reflexivity.
Qed.

(** X4: a 64-bit integer and a guid go to Lua boxed and come back
    unchanged, whatever the value: [Push(long long)] with
    [CHECKVAL<long long>], [Push(unsigned long long)] with
    [CHECKVAL<unsigned long long>], [Push(ObjectGuid)] with
    [CHECKVAL<ObjectGuid>], also through the [long] overloads.  A boxed
    value of the other signedness is a type mismatch. *)
Theorem Push_CHECKVAL_boxed (n : Z) (E : Eluna) :
  let E_ll := pushed (pushed_value (arg_long_long n) 0) E in
  let E_ull := pushed (pushed_value (arg_unsigned_long_long n) 0) E in
  let E_guid := pushed (pushed_value (arg_ObjectGuid n) 0) E in
  (Push_long_long n E = (Ok tt, E_ll)
   /\ Push_long n E = (Ok tt, E_ll)
   /\ CHECKVAL host long_long E_ll (-1) = Ok n
   /\ CHECKVAL host unsigned_long_long E_ll (-1)
      = luaL_argerror (-1)
          "bad argument : unsigned long long expected, got long long")
  /\ (Push_uint64 n E = (Ok tt, E_ull)
      /\ Push_unsigned_long n E = (Ok tt, E_ull)
      /\ CHECKVAL host unsigned_long_long E_ull (-1) = Ok n
      /\ CHECKVAL host long_long E_ull (-1)
         = luaL_argerror (-1)
             "bad argument : long long expected, got unsigned long long")
  /\ (Push_ObjectGuid n E = (Ok tt, E_guid)
      /\ CHECKVAL host ObjectGuid E_guid (-1) = Ok n).
Proof.
  assert (Hchk : forall name ref,
            CHECKTYPE (pushed (LUserdata (mkElunaObject name ref 0)) E) (-1)
              (Some name) true
            = Ok (Some (mkElunaObject name ref 0))).
  { intros name ref. unfold CHECKTYPE, lua_islightuserdata, lua_touserdata.
    rewrite index2value_pushed. cbn [GetTypeName].
    rewrite String.eqb_refl. reflexivity. }
  assert (Hnum : forall o,
            lua_isnumber (lualib host) (L (pushed (LUserdata o) E)) (-1)
            = false).
  { intros o. unfold lua_isnumber. rewrite index2value_pushed. reflexivity. }
  intros E_ll E_ull E_guid. subst E_ll E_ull E_guid. cbn [pushed_value].
  repeat split.
  - unfold CHECKVAL, CHECKVAL_long_long. rewrite Hnum.
    unfold ElunaTemplate_Check_named. rewrite Hchk. reflexivity.
  - unfold CHECKVAL, CHECKVAL_unsigned_long_long. rewrite Hnum.
    unfold ElunaTemplate_Check_named, CHECKTYPE, lua_islightuserdata,
      lua_touserdata.
    rewrite index2value_pushed. reflexivity.
  - unfold CHECKVAL, CHECKVAL_unsigned_long_long. rewrite Hnum.
    unfold ElunaTemplate_Check_named. rewrite Hchk. reflexivity.
  - unfold CHECKVAL, CHECKVAL_long_long. rewrite Hnum.
    unfold ElunaTemplate_Check_named, CHECKTYPE, lua_islightuserdata,
      lua_touserdata.
    rewrite index2value_pushed. reflexivity.
  - unfold CHECKVAL, CHECKVAL_ObjectGuid.
    unfold ElunaTemplate_Check_named. rewrite Hchk. reflexivity.
Qed.

End ValueRoundTrip.

(** X3 at a concrete argument: 2^32 is refused as an
    [unsigned long long] and accepted as a [long long]. *)
Lemma CHECKVAL_64bit_number_witness :
  let W := Sample.world false in
  let E := Sample.with_stack [LNumber (of_Z 4294967296)] Sample.E0 in
  CHECKVAL W unsigned_long_long E 1
  = luaL_argerror 1 "value must be less than or equal to 4294967295"
  /\ CHECKVAL W long_long E 1 = Ok 4294967296.
Proof.
  intros W E.
  destruct (CHECKVAL_64bit_number W E 1 (of_Z 4294967296) eq_refl)
    as (_ & Habove & _ & _ & Hll & _).
  split.
  - rewrite Habove; [reflexivity|].
    right. exists (Qmake 4294967296 1). split; reflexivity.
  - apply (Hll (Qmake 4294967296 1)); [reflexivity|].
    split; vm_compute; discriminate.
Defined.

(** X1 at concrete values: 255 comes back as a [uint8], 256 does not,
    and -1 is below the range of every unsigned type. *)
Lemma Push_CHECKVAL_integer_witness :
  let W := Sample.world false in
  CHECKVAL W (cint unsigned_char) (snd (Push_int 255 Sample.E0)) (-1) = Ok 255
  /\ CHECKVAL W (cint unsigned_char) (snd (Push_int 256 Sample.E0)) (-1)
     = luaL_argerror (-1) "value must be less than or equal to 255"
  /\ CHECKVAL W (cint unsigned_int) (snd (Push_int (-1) Sample.E0)) (-1)
     = luaL_argerror (-1) "value must be greater than or equal to 0".
Proof.
  intros W.
  destruct (Push_CHECKVAL_integer W unsigned_char 255 Sample.E0)
    as (_ & _ & Hin & _); [split; const_le|].
  destruct (Push_CHECKVAL_integer W unsigned_char 256 Sample.E0)
    as (_ & _ & _ & Habove & _); [split; const_le|].
  destruct (Push_CHECKVAL_integer W unsigned_int (-1) Sample.E0)
    as (_ & _ & _ & _ & Hbelow); [split; const_le|].
  split; [apply Hin; split; const_le|].
  split; [apply Habove; const_le|apply Hbelow; const_le].
Defined.

(* ===================================================================== *)
(** * Proofs: the pushes of a hook *)
(* ===================================================================== *)

Section HookPushes.

(** Every overload of [Push] puts one value on the stack and changes
    nothing else. *)
Lemma Push_pushed (a : PushArg) (E : Eluna) :
  Push a E = (Ok tt, pushed (pushed_value a (callstackid E)) E).
Proof.
  destruct a as [| | | | | | | | | | |[s|]|[o|]|[o|]|[o|]|[o|]|[o|]| |T [o|]];
    try reflexivity;
    destruct o as [[] guid]; reflexivity.
Qed.

Lemma HookPush_run (a : PushArg) (E : Eluna) :
  HookPush a E
  = (Ok tt,
     set_push_counter ((push_counter E + 1) mod UINT8_MOD)
       (pushed (pushed_value a (callstackid E)) E)).
Proof. unfold HookPush, bind. rewrite Push_pushed. reflexivity. Qed.

(** The engine after [vs] were pushed and counted. *)
Lemma hook_pushed_nil (E : Eluna) :
  0 <= push_counter E < UINT8_MOD ->
  set_push_counter ((push_counter E + 0) mod UINT8_MOD)
    (set_L (set_stack (stack (L E) ++ []) (L E)) E) = E.
Proof.
  intros Hc. rewrite Z.add_0_r, Z.mod_small by exact Hc.
  rewrite app_nil_r. destruct E as [? ? ? ? ? ? ? ? [] ?]. reflexivity.
Qed.

(** X5: the [HookPush] calls of a hook put the values on the stack in
    order, one each, and count them in [push_counter] modulo 256 (the
    counter is a [uint8]); nothing else of the engine changes.  After
    256 pushes the counter is back where it started. *)
Theorem HookPush_counts (values : list PushArg) (E : Eluna) :
  0 <= push_counter E < UINT8_MOD ->
  for_each values HookPush E
  = (Ok tt,
     set_push_counter
       ((push_counter E + Z.of_nat (length values)) mod UINT8_MOD)
       (set_L (set_stack
                 (stack (L E)
                  ++ map (fun a => pushed_value a (callstackid E)) values)
                 (L E)) E)).
Proof.
  revert E. induction values as [|a values IH]; intros E Hc.
  - cbn [for_each length map Z.of_nat]. unfold ret.
    rewrite hook_pushed_nil by exact Hc. reflexivity.
  - cbn [for_each]. unfold bind at 1. rewrite HookPush_run.
    rewrite IH.
    + f_equal. destruct E as [? ? ? c ? ? ? ? [st ? ? ? ?] ?].
      unfold set_push_counter, set_L, set_stack, pushed, push. cbn.
      f_equal.
      * rewrite Zplus_mod_idemp_l. f_equal. lia.
      * rewrite <- app_assoc. reflexivity.
    + cbn. apply Z.mod_pos_bound. reflexivity.
Qed.

End HookPushes.

(** X5 on a hook that pushes a player and two numbers, with the counter
    at 255: the counter wraps to 2. *)
Lemma HookPush_counts_witness :
  let player := mkObject TYPEID_PLAYER 42 in
  let E := set_push_counter 255 Sample.E0 in
  exists E',
    for_each [arg_Unit (Some player); arg_int 7; arg_bool true] HookPush E
    = (Ok tt, E')
    /\ stack (L E')
       = [LUserdata (mkElunaObject "Player" (RefObject player) 2);
          LNumber (of_Z 7); LBoolean true]
    /\ push_counter E' = 2.
Proof.
  intros player E.
  pose proof (HookPush_counts
                [arg_Unit (Some player); arg_int 7; arg_bool true] E) as H.
  eexists. split; [apply H; split; const_le|]. split; reflexivity.
Defined.

(* ===================================================================== *)
(** * Proofs: the life of the binding stores *)
(* ===================================================================== *)

Section BindingStores.

Context (host : Host).

Ltac case_tests :=
  repeat match goal with
         | |- context [if negb ?b then _ else _] => destruct b eqn:?; cbn [negb]
         | |- context [if ?b then _ else _] => destruct b eqn:?
         | H : context [if ?b then _ else _] |- _ => destruct b eqn:?
         end.

Ltac to_arith :=
  repeat match goal with
         | H : (_ <=? _) = _ |- _ =>
             first [apply Z.leb_le in H | apply Z.leb_gt in H]
         | H : (_ <? _) = _ |- _ =>
             first [apply Z.ltb_lt in H | apply Z.ltb_ge in H]
         end.

(** The map of stores [CreateBindStores] leaves. *)
Lemma CreateBindStores_run (E : Eluna) :
  exists bm,
    CreateBindStores E = (Ok tt, set_bindingMaps bm E)
    /\ (forall regtype, (forall raw, regtype <> REGTYPE_UNKNOWN raw) ->
          bm !! regtype = Some (Some (BindingMap.empty (key_type_of regtype))))
    /\ (forall raw, bm !! REGTYPE_UNKNOWN raw = None
                    \/ bm !! REGTYPE_UNKNOWN raw = Some None).
Proof.
  unfold CreateBindStores.
  rewrite DestroyBindStores_then.
  rewrite !CreateBinding_then, CreateBinding_run.
  eexists. split; [reflexivity|]. split.
  - intros regtype Hnamed.
    destruct regtype; try (destruct (Hnamed raw eq_refl));
      repeat (rewrite lookup_insert_ne by discriminate);
      rewrite lookup_insert_eq; reflexivity.
  - intros raw. repeat (rewrite lookup_insert_ne by discriminate).
    rewrite lookup_fmap. destruct (bindingMaps E !! REGTYPE_UNKNOWN raw);
      [right|left]; reflexivity.
Qed.

Lemma GetBinding_set_bindingMaps K type bm E :
  GetBinding K type (set_bindingMaps bm E)
  = match bm !! type with
    | Some (Some m) =>
        if decide (BindingMap.keyType m = K) then Some m else None
    | _ => None
    end.
Proof. reflexivity. Qed.

(** X6: [CreateBindStores] replaces the stores by empty ones, whatever
    was registered before: each of the eighteen registration types has
    an empty store of the key type [Register] files it under,
    [GetBinding] with any other key type is null (the [dynamic_cast]
    fails), an integer that is no registration type has no store, and no
    store holds a binding.  Nothing but the stores changes. *)
Theorem CreateBindStores_resets (E : Eluna) :
  exists bm,
    CreateBindStores E = (Ok tt, set_bindingMaps bm E)
    /\ (forall regtype, (forall raw, regtype <> REGTYPE_UNKNOWN raw) ->
          GetBinding (key_type_of regtype) regtype (set_bindingMaps bm E)
          = Some (BindingMap.empty (key_type_of regtype))
          /\ forall K, K <> key_type_of regtype ->
                       GetBinding K regtype (set_bindingMaps bm E) = None)
    /\ (forall raw K,
          GetBinding K (REGTYPE_UNKNOWN raw) (set_bindingMaps bm E) = None)
    /\ (forall regtype K m key,
          GetBinding K regtype (set_bindingMaps bm E) = Some m ->
          BindingMap.bindings_for key m = []).
Proof.
  destruct (CreateBindStores_run E) as (bm & Hrun & Hnamed & Hunknown).
  exists bm. split; [exact Hrun|].
  split; [|split].
  - intros regtype Hreg. rewrite !GetBinding_set_bindingMaps.
    setoid_rewrite GetBinding_set_bindingMaps.
    rewrite (Hnamed regtype Hreg). cbn [BindingMap.keyType BindingMap.empty].
    split.
    + destruct (decide _) as [_|Hne]; [reflexivity|destruct Hne; reflexivity].
    + intros K HK. destruct (decide _) as [Heq|_]; [|reflexivity].
      destruct HK. symmetry. exact Heq.
  - intros raw K. rewrite GetBinding_set_bindingMaps.
    destruct (Hunknown raw) as [-> | ->]; reflexivity.
  - intros regtype K m key. rewrite GetBinding_set_bindingMaps.
    destruct regtype;
      try (rewrite Hnamed by discriminate;
           destruct (decide _); [|discriminate];
           intros [= <-]; reflexivity).
    destruct (Hunknown raw) as [-> | ->]; discriminate.
Qed.

(** X7: after [DestroyBindStores] every store pointer is null:
    [GetBinding] returns null for every registration type and key type.
    A registration that passes the validation of [Register] then calls
    through the null pointer, and one that does not pass still raises
    its error and releases the callable. *)
Theorem DestroyBindStores_nulls (E : Eluna) :
  exists bm,
    DestroyBindStores E = (Ok tt, set_bindingMaps bm E)
    /\ (forall K regtype, GetBinding K regtype (set_bindingMaps bm E) = None)
    /\ (forall regtype entry guid instanceId event_id functionRef shots,
          let E' := set_bindingMaps bm E in
          if accepted host regtype entry guid event_id then
            Register host regtype entry guid instanceId event_id
              functionRef shots E'
            = (Fault "null BindingMap", E')
          else
            exists msg,
              Register host regtype entry guid instanceId event_id
                functionRef shots E'
              = (LuaError (LString msg),
                 set_L (luaL_unref functionRef (L E')) E')).
Proof.
  exists ((fun _ => None) <$> bindingMaps E).
  split; [reflexivity|].
  assert (Hnull : forall K regtype,
            GetBinding K regtype
              (set_bindingMaps ((fun _ => None) <$> bindingMaps E) E) = None).
  { intros K regtype. rewrite GetBinding_set_bindingMaps, lookup_fmap.
    destruct (bindingMaps E !! regtype); reflexivity. }
  split; [exact Hnull|].
  intros regtype entry guid instanceId event_id functionRef shots E'.
  assert (Hcall : forall K key,
            (bindingID <- call_binding K regtype
                            (BindingMap.Insert key functionRef shots) ;;
             createCancelCallback bindingID regtype ;;;
             ret 1) E' = (Fault "null BindingMap", E')).
  { intros K key. unfold bind at 1. unfold call_binding.
    subst E'. rewrite Hnull. reflexivity. }
  unfold accepted, accepted_as_claimed, known_combination, template_exists,
    guid_given, opcode_exists.
  destruct regtype; unfold Register; cbn [event_count];
    unfold RegisterBasicBinding, RegisterEntryBinding, RegisterUniqueBinding;
    case_tests; cbn [andb negb] in *;
    try apply Hcall;
    try (eexists; apply unref_and_error_run);
    try discriminate; to_arith; try lia.
Qed.

End BindingStores.

(* ===================================================================== *)
(** * Proofs: cancelling a registration *)
(* ===================================================================== *)

Section Cancelling.

Context (host : Host).

Ltac case_tests :=
  repeat match goal with
         | |- context [if negb ?b then _ else _] => destruct b eqn:?; cbn [negb]
         | |- context [if ?b then _ else _] => destruct b eqn:?
         | H : context [if ?b then _ else _] |- _ => destruct b eqn:?
         end.

Ltac to_arith :=
  repeat match goal with
         | H : (_ <=? _) = _ |- _ =>
             first [apply Z.leb_le in H | apply Z.leb_gt in H]
         | H : (_ <? _) = _ |- _ =>
             first [apply Z.ltb_lt in H | apply Z.ltb_ge in H]
         end.

(** A registration that passes the validation is filed. *)
Lemma Register_accepted (regtype : RegisterTypes)
  (entry guid instanceId event_id functionRef shots : Z) (E : Eluna)
  (m : BindingMap.t) :
  accepted host regtype entry guid event_id = true ->
  GetBinding (key_type_of regtype) regtype E = Some m ->
  Register host regtype entry guid instanceId event_id functionRef shots E
  = (Ok 1,
     registered regtype (key_of regtype entry guid instanceId event_id)
       functionRef shots m E).
Proof.
  intros Hacc Hm. revert Hacc.
  unfold accepted, accepted_as_claimed, known_combination, template_exists,
    guid_given, opcode_exists, key_of.
  destruct regtype; unfold Register; cbn [event_count key_type_of] in *;
    intros Hacc; case_tests; cbn [andb negb] in *; try discriminate;
    try (apply (call_binding_Insert _ _ _ _ _ _ _ Hm));
    to_arith; try lia.
Qed.

(** What [Remove] leaves under a key. *)
Lemma bindings_for_Remove (bid : Z) (key : Key) (m : BindingMap.t) :
  BindingMap.bindings_for key (BindingMap.Remove bid m)
  = filter (fun b => negb (BindingMap.id b =? bid))
      (BindingMap.bindings_for key m).
Proof.
  unfold BindingMap.bindings_for, BindingMap.Remove. cbn.
  rewrite lookup_fmap. destruct (BindingMap.bindings _ !! key); reflexivity.
Qed.

Lemma filter_other_ids (bid : Z) (bs : list BindingMap.Binding) :
  (forall b, b ∈ bs -> BindingMap.id b <> bid) ->
  filter (fun b => negb (BindingMap.id b =? bid)) bs = bs.
Proof.
  induction bs as [|b bs IH]; intros Hne; [reflexivity|].
  rewrite filter_cons.
  destruct (decide _) as [_|Hno].
  - f_equal. apply IH. intros b' Hb'. apply Hne. right. exact Hb'.
  - destruct Hno. apply Is_true_true. apply negb_true_iff, Z.eqb_neq.
    apply Hne. left.
Qed.

(** The check of the first upvalue of a cancellation callback. *)
Lemma cancel_callback_id (bindingID : Z) (regtype : RegisterTypes) (E : Eluna) :
  CHECKVAL host unsigned_long_long
    (upvalue_frame (upvalues_of (cancel_callback bindingID regtype)) E) 1
  = Ok bindingID.
Proof. reflexivity. Qed.

(** The store after [Insert] keeps ids bounded. *)
Lemma Insert_ids_bounded key functionRef shots m :
  store_ids_bounded m ->
  store_ids_bounded (snd (BindingMap.Insert key functionRef shots m)).
Proof.
  intros Hwf k b.
  unfold BindingMap.Insert, BindingMap.bindings_for. cbn.
  destruct (decide (k = key)) as [->|Hne].
  - rewrite lookup_insert_eq. cbn. rewrite elem_of_app, list_elem_of_singleton.
    intros [Hold | ->]; [|cbn; lia].
    specialize (Hwf key b Hold). lia.
  - rewrite lookup_insert_ne by congruence. intros Hb.
    specialize (Hwf k b Hb). lia.
Qed.

(** X8: the callback [Register] returns cancels exactly the
    registration it was returned for.  After an accepted registration
    the value on top of the stack is the closure of [cancelBinding]
    over the new binding id and the store; calling it returns no value
    and leaves under every key of the store the bindings that were
    there before the registration; calling it once more changes
    nothing.  The store's id counter is not taken back. *)
Theorem cancelBinding_undoes_Register (regtype : RegisterTypes)
  (entry guid instanceId event_id functionRef shots : Z) (E : Eluna)
  (m : BindingMap.t) :
  accepted host regtype entry guid event_id = true ->
  GetBinding (key_type_of regtype) regtype E = Some m ->
  store_ids_bounded m ->
  exists (E1 E2 : Eluna) (callback : LuaValue) (m2 : BindingMap.t),
    Register host regtype entry guid instanceId event_id functionRef shots E
    = (Ok 1, E1)
    /\ stack (L E1) = stack (L E) ++ [callback]
    /\ cancelBinding host (upvalues_of callback) E1 = (Ok 0, E2)
    /\ L E2 = L E1
    /\ GetBinding (key_type_of regtype) regtype E2 = Some m2
    /\ (forall key, BindingMap.bindings_for key m2
                    = BindingMap.bindings_for key m)
    /\ BindingMap.maxBindingID m2 = BindingMap.maxBindingID m + 1
    /\ store_ids_bounded m2
    /\ (forall other, other <> regtype ->
          bindingMaps E2 !! other = bindingMaps E !! other)
    /\ cancelBinding host (upvalues_of callback) E2 = (Ok 0, E2).
Proof.
  intros Hacc Hm Hwf.
  set (key := key_of regtype entry guid instanceId event_id).
  set (bid := BindingMap.maxBindingID m + 1).
  set (m1 := snd (BindingMap.Insert key functionRef shots m)).
  set (m2 := BindingMap.Remove bid m1).
  set (E1 := registered regtype key functionRef shots m E).
  set (E2 := set_bindingMaps (<[regtype := Some m2]> (bindingMaps E1)) E1).
  assert (Hkt : BindingMap.keyType m = key_type_of regtype).
  { apply GetBinding_Some in Hm. apply Hm. }
  assert (Hcancel1 : cancelBinding host
                       (upvalues_of (cancel_callback bid regtype)) E1
                     = (Ok 0, E2)).
  { unfold cancelBinding, bind. rewrite cancel_callback_id.
    cbn [upvalues_of cancel_callback lookup list_lookup].
    unfold call_binding_ptr.
    replace (bindingMaps E1 !! regtype) with (Some (Some m1))
      by (subst E1; unfold registered; cbn; rewrite lookup_insert_eq;
          reflexivity).
    reflexivity. }
  assert (Hfor : forall k, BindingMap.bindings_for k m2
                           = BindingMap.bindings_for k m).
  { intros k. subst m2. rewrite bindings_for_Remove.
    destruct (Insert_exactly_one key functionRef shots m) as (_ & Hkey & Hoth).
    fold m1 in Hkey, Hoth.
    destruct (decide (k = key)) as [->|Hne].
    - rewrite Hkey, filter_app. fold bid. cbn [BindingMap.id].
      rewrite filter_cons, filter_nil.
      destruct (decide _) as [Hyes|_].
      + apply Is_true_true, negb_true_iff, Z.eqb_neq in Hyes. cbn in Hyes.
        destruct Hyes. reflexivity.
      + rewrite app_nil_r. apply filter_other_ids.
        intros b Hb. specialize (Hwf key b Hb). subst bid. lia.
    - rewrite (Hoth k Hne). apply filter_other_ids.
      intros b Hb. specialize (Hwf k b Hb). subst bid. lia. }
  exists E1, E2, (cancel_callback bid regtype), m2.
  split; [apply (Register_accepted _ _ _ _ _ _ _ _ _ Hacc Hm)|].
  split; [reflexivity|].
  split; [exact Hcancel1|].
  split; [reflexivity|].
  split.
  { subst E2. apply GetBinding_set_bindingMaps_eq. exact Hkt. }
  split; [exact Hfor|].
  split; [reflexivity|].
  split.
  { intros k b. rewrite Hfor. intros Hb. specialize (Hwf k b Hb).
    subst m2 m1. cbn. lia. }
  split.
  { intros other Hother. subst E2 E1. unfold registered. cbn.
    rewrite !lookup_insert_ne by congruence. reflexivity. }
  unfold cancelBinding, bind. rewrite cancel_callback_id.
  cbn [upvalues_of cancel_callback lookup list_lookup].
  unfold call_binding_ptr.
  replace (bindingMaps E2 !! regtype) with (Some (Some m2))
    by (subst E2; cbn; rewrite lookup_insert_eq; reflexivity).
  cbn [fst snd]. f_equal.
  assert (Hidem : BindingMap.Remove bid m2 = m2).
  { subst m2. unfold BindingMap.Remove. cbn. f_equal.
    rewrite <- map_fmap_compose. apply map_fmap_ext.
    intros k bs _. cbn.
    rewrite list_filter_filter. apply list_filter_iff.
    intros b. tauto. }
  rewrite Hidem. subst E2. cbn. rewrite insert_insert_eq.
  reflexivity.
Qed.

End Cancelling.

Lemma empty_ids_bounded (K : KeyType) : store_ids_bounded (BindingMap.empty K).
Proof.
  intros key b. unfold BindingMap.bindings_for, BindingMap.empty. cbn.
  rewrite lookup_empty. cbn. intros Hb. apply elem_of_nil in Hb. destruct Hb.
Qed.

(** X8 on an engine with fresh stores: a creature event is registered
    and cancelled again. *)
Lemma cancelBinding_undoes_Register_witness :
  let W := Sample.world false in
  let E := SampleRegister.E in
  exists (E1 E2 : Eluna) (callback : LuaValue) (m2 : BindingMap.t),
    Register W REGTYPE_CREATURE 1 0 0 5 4 0 E = (Ok 1, E1)
    /\ stack (L E1) = [callback]
    /\ cancelBinding W (upvalues_of callback) E1 = (Ok 0, E2)
    /\ GetBinding (EntryKeyOf CreatureEvents) REGTYPE_CREATURE E2 = Some m2
    /\ BindingMap.bindings_for (EntryKey 5 1) m2 = []
    /\ BindingMap.maxBindingID m2 = 1.
Proof.
  intros W E.
  assert (Hm : GetBinding (key_type_of REGTYPE_CREATURE) REGTYPE_CREATURE E
               = Some (BindingMap.empty (EntryKeyOf CreatureEvents))).
  { refine (CreateBindStores_stores Sample.E0 REGTYPE_CREATURE _).
    intros raw; discriminate. }
  destruct (cancelBinding_undoes_Register W REGTYPE_CREATURE 1 0 0 5 4 0 E
              (BindingMap.empty (EntryKeyOf CreatureEvents))
              eq_refl Hm (empty_ids_bounded _))
    as (E1 & E2 & callback & m2 & Hreg & Hst & Hcancel & _ & Hget & Hfor
        & Hmax & _).
  exists E1, E2, callback, m2.
  split; [exact Hreg|]. split; [exact Hst|]. split; [exact Hcancel|].
  split; [exact Hget|]. split; [|exact Hmax].
  rewrite Hfor. reflexivity.
Defined.

(* ===================================================================== *)
(** * Proofs: which creatures and maps get a script AI *)
(* ===================================================================== *)

Section ScriptAIs.

Context (host : Host).

Lemma ask_binding_run {A} K type (method : BindingMap.t -> A) m E :
  GetBinding K type E = Some m ->
  ask_binding K type method E = (Ok (method m), E).
Proof. intros Hm. unfold ask_binding. rewrite Hm. reflexivity. Qed.

(** The loop of [GetAI] over a list of event ids. *)
Lemma GetAI_loop_run (creature : Creature.t) (mE mU : BindingMap.t)
  (E : Eluna) (ids : list Z) :
  GetBinding (EntryKeyOf CreatureEvents) REGTYPE_CREATURE E = Some mE ->
  GetBinding (UniqueObjectKeyOf CreatureEvents) REGTYPE_CREATURE_UNIQUE E
  = Some mU ->
  let bound i :=
    BindingMap.HasBindingsFor (EntryKey i (Creature.GetEntry creature)) mE
    || BindingMap.HasBindingsFor
         (UniqueObjectKey i (Creature.GET_GUID creature)
            (Creature.GetInstanceId creature)) mU in
  GetAI_loop creature ids E
  = (Ok (if existsb bound ids then Some creature else None), E).
Proof.
  intros HE HU bound. induction ids as [|i ids IH]; [reflexivity|].
  cbn [GetAI_loop existsb]. unfold bind.
  rewrite (ask_binding_run _ _ _ mE E HE).
  unfold bound at 1.
  destruct (BindingMap.HasBindingsFor (EntryKey _ _) mE); [reflexivity|].
  rewrite (ask_binding_run _ _ _ mU E HU).
  destruct (BindingMap.HasBindingsFor (UniqueObjectKey _ _ _) mU);
    [reflexivity|].
  cbn [orb]. exact IH.
Qed.

Lemma GetInstanceData_loop_run (map : Map) (mM mI : BindingMap.t)
  (E : Eluna) (ids : list Z) :
  GetBinding InstanceKey REGTYPE_MAP E = Some mM ->
  GetBinding InstanceKey REGTYPE_INSTANCE E = Some mI ->
  let bound i :=
    BindingMap.HasBindingsFor (EntryKey i (GetId map)) mM
    || BindingMap.HasBindingsFor (EntryKey i (GetId map)) mI in
  GetInstanceData_loop map ids E
  = (Ok (if existsb bound ids then Some map else None), E).
Proof.
  intros HM HI bound. induction ids as [|i ids IH]; [reflexivity|].
  cbn [GetInstanceData_loop existsb]. unfold bind.
  rewrite (ask_binding_run _ _ _ mM E HM).
  unfold bound at 1.
  destruct (BindingMap.HasBindingsFor (EntryKey _ _) mM); [reflexivity|].
  rewrite (ask_binding_run _ _ _ mI E HI).
  destruct (BindingMap.HasBindingsFor (EntryKey _ _) mI); [reflexivity|].
  cbn [orb]. exact IH.
Qed.

Lemma existsb_seqZ (bound : Z -> bool) (count : Z) :
  existsb bound (seqZ 1 (count - 1)) = true
  <-> exists i, 1 <= i < count /\ bound i = true.
Proof.
  rewrite existsb_exists. split.
  - intros (i & Hin & Hb). exists i. split; [|exact Hb].
    apply list_elem_of_In, elem_of_seqZ in Hin. lia.
  - intros (i & Hi & Hb). exists i. split; [|exact Hb].
    apply list_elem_of_In, elem_of_seqZ. lia.
Qed.

(** X9: [GetAI] builds a script AI for a creature exactly when some
    creature event (ids 1 to CREATURE_EVENT_COUNT - 1) has a binding
    under the creature's entry in the REGTYPE_CREATURE store or under
    its guid and instance id in the REGTYPE_CREATURE_UNIQUE store; it
    returns null otherwise and changes nothing.  A binding of event 0
    does not count. *)
Theorem GetAI_spec (creature : Creature.t) (mE mU : BindingMap.t)
  (E : Eluna) :
  GetBinding (EntryKeyOf CreatureEvents) REGTYPE_CREATURE E = Some mE ->
  GetBinding (UniqueObjectKeyOf CreatureEvents) REGTYPE_CREATURE_UNIQUE E
  = Some mU ->
  (creature_scripted host creature mE mU ->
   GetAI host creature E = (Ok (Some creature), E))
  /\ (~ creature_scripted host creature mE mU ->
      GetAI host creature E = (Ok None, E)).
Proof.
  intros HE HU. unfold GetAI.
  rewrite (GetAI_loop_run creature mE mU E _ HE HU). cbv zeta.
  match goal with |- context [existsb ?f ?l] =>
    pose proof (existsb_seqZ f (CREATURE_EVENT_COUNT (events host))) as Hex;
    destruct (existsb f l) end.
  - split; [reflexivity|]. intros Hno. destruct Hno.
    destruct Hex as [Hex _]. destruct (Hex eq_refl) as (i & Hi & Hb).
    exists i. split; [exact Hi|]. apply orb_true_iff in Hb. exact Hb.
  - split; [|reflexivity]. intros (i & Hi & Hb).
    destruct Hex as [_ Hex]. 
    assert (false = true) as Habs; [|discriminate].
    apply Hex. exists i. split; [exact Hi|]. apply orb_true_iff. exact Hb.
Qed.

(** X10: [GetInstanceData] builds a script AI for a map exactly when
    some instance event (ids 1 to INSTANCE_EVENT_COUNT - 1) has a
    binding under the map's id, [map->GetId()], in the REGTYPE_MAP store
    or in the REGTYPE_INSTANCE store; it returns null otherwise and
    changes nothing. *)
Theorem GetInstanceData_spec (map : Map) (mM mI : BindingMap.t) (E : Eluna) :
  GetBinding InstanceKey REGTYPE_MAP E = Some mM ->
  GetBinding InstanceKey REGTYPE_INSTANCE E = Some mI ->
  (map_scripted host map mM mI ->
   GetInstanceData host map E = (Ok (Some map), E))
  /\ (~ map_scripted host map mM mI ->
      GetInstanceData host map E = (Ok None, E)).
Proof.
  intros HM HI. unfold GetInstanceData.
  rewrite (GetInstanceData_loop_run map mM mI E _ HM HI). cbv zeta.
  match goal with |- context [existsb ?f ?l] =>
    pose proof (existsb_seqZ f (INSTANCE_EVENT_COUNT (events host))) as Hex;
    destruct (existsb f l) end.
  - split; [reflexivity|]. intros Hno. destruct Hno.
    destruct Hex as [Hex _]. destruct (Hex eq_refl) as (i & Hi & Hb).
    exists i. split; [exact Hi|]. apply orb_true_iff in Hb. exact Hb.
  - split; [|reflexivity]. intros (i & Hi & Hb).
    destruct Hex as [_ Hex].
    assert (false = true) as Habs; [|discriminate].
    apply Hex. exists i. split; [exact Hi|]. apply orb_true_iff. exact Hb.
Qed.

Lemma existsb_ext_in {A} (f g : A -> bool) (l : list A) :
  (forall x, In x l -> f x = g x) -> existsb f l = existsb g l.
Proof.
  induction l as [|x l IH]; intros Hfg; [reflexivity|].
  cbn [existsb]. rewrite (Hfg x (or_introl eq_refl)). f_equal.
  apply IH. intros y Hy. apply Hfg. right. exact Hy.
Qed.

Lemma GetBinding_registered_eq regtype key functionRef shots m E :
  GetBinding (BindingMap.keyType m) regtype
    (registered regtype key functionRef shots m E)
  = Some (snd (BindingMap.Insert key functionRef shots m)).
Proof.
  unfold registered, GetBinding. cbn. rewrite lookup_insert_eq. cbn.
  destruct (decide _) as [_|Hne]; [reflexivity|destruct Hne; reflexivity].
Qed.

Lemma GetBinding_registered_ne K other regtype key functionRef shots m E :
  other <> regtype ->
  GetBinding K other (registered regtype key functionRef shots m E)
  = GetBinding K other E.
Proof.
  intros Hne. unfold registered, GetBinding. cbn.
  rewrite lookup_insert_ne by congruence. reflexivity.
Qed.

Lemma HasBindingsFor_Insert key functionRef shots m :
  BindingMap.HasBindingsFor key
    (snd (BindingMap.Insert key functionRef shots m)) = true.
Proof.
  unfold BindingMap.HasBindingsFor.
  destruct (Insert_exactly_one key functionRef shots m) as (_ & -> & _).
  destruct (BindingMap.bindings_for key m); reflexivity.
Qed.

Lemma HasBindingsFor_Insert_other k key functionRef shots m :
  k <> key ->
  BindingMap.HasBindingsFor k
    (snd (BindingMap.Insert key functionRef shots m))
  = BindingMap.HasBindingsFor k m.
Proof.
  intros Hne. unfold BindingMap.HasBindingsFor.
  destruct (Insert_exactly_one key functionRef shots m) as (_ & _ & Hoth).
  rewrite (Hoth k Hne). reflexivity.
Qed.

(** X11: registering makes the creature scripted.  After
    [Register(REGTYPE_CREATURE, entry, ..., event_id, ...)] for an
    event id of 1 or more, [GetAI] builds an AI for every creature of
    that entry; after [Register(REGTYPE_CREATURE_UNIQUE, ..., guid,
    instanceId, event_id, ...)] it builds one for the creature with
    that guid and instance id.  A registration for event id 0 is filed
    but never makes [GetAI] build an AI: its loop starts at 1. *)
Theorem Register_then_GetAI (creature : Creature.t) (unique : bool)
  (event_id functionRef shots : Z) (mE mU : BindingMap.t) (E : Eluna) :
  let regtype := if unique then REGTYPE_CREATURE_UNIQUE else REGTYPE_CREATURE in
  let entry := Creature.GetEntry creature in
  let guid := Creature.GET_GUID creature in
  let instanceId := Creature.GetInstanceId creature in
  accepted host regtype entry guid event_id = true ->
  GetBinding (EntryKeyOf CreatureEvents) REGTYPE_CREATURE E = Some mE ->
  GetBinding (UniqueObjectKeyOf CreatureEvents) REGTYPE_CREATURE_UNIQUE E
  = Some mU ->
  exists E1,
    Register host regtype entry guid instanceId event_id functionRef shots E
    = (Ok 1, E1)
    /\ (1 <= event_id -> GetAI host creature E1 = (Ok (Some creature), E1))
    /\ (event_id <= 0 -> GetAI host creature E1
                         = (fst (GetAI host creature E), E1)).
Proof.
  intros regtype entry guid instanceId Hacc HE HU.
  assert (Hcount : event_id < CREATURE_EVENT_COUNT (events host)).
  { revert Hacc. unfold accepted, accepted_as_claimed, known_combination.
    subst regtype. destruct unique; cbn [event_count];
      destruct (Z.ltb_spec event_id (CREATURE_EVENT_COUNT (events host)));
      [trivial|discriminate|trivial|discriminate]. }
  pose proof (GetAI_loop_run creature mE mU E
                (seqZ 1 (CREATURE_EVENT_COUNT (events host) - 1)) HE HU)
    as Hbefore. cbv zeta in Hbefore. fold (GetAI host creature) in Hbefore.
  destruct unique; subst regtype.
  - (* by guid and instance *)
    set (key := UniqueObjectKey event_id guid instanceId).
    set (E1 := registered REGTYPE_CREATURE_UNIQUE key functionRef shots mU E).
    assert (HU1 : GetBinding (UniqueObjectKeyOf CreatureEvents)
                    REGTYPE_CREATURE_UNIQUE E1
                  = Some (snd (BindingMap.Insert key functionRef shots mU))).
    { apply GetBinding_Some in HU. destruct HU as [_ <-].
      apply GetBinding_registered_eq. }
    assert (HE1 : GetBinding (EntryKeyOf CreatureEvents) REGTYPE_CREATURE E1
                  = Some mE).
    { subst E1. rewrite GetBinding_registered_ne by discriminate. exact HE. }
    exists E1. split; [apply (Register_accepted _ _ _ _ _ _ _ _ _ _ Hacc HU)|].
    pose proof (GetAI_loop_run creature mE _ E1
                  (seqZ 1 (CREATURE_EVENT_COUNT (events host) - 1)) HE1 HU1)
      as Hafter. cbv zeta in Hafter. fold (GetAI host creature) in Hafter.
    split.
    + intros Hev. rewrite Hafter.
      match goal with |- context [existsb ?f ?l] =>
        assert (existsb f l = true) as -> end; [|reflexivity].
      apply existsb_seqZ. exists event_id. split; [lia|].
      apply orb_true_iff. right. apply HasBindingsFor_Insert.
    + intros Hev. rewrite Hafter, Hbefore. cbn [fst]. do 2 f_equal.
      match goal with
      | |- (if existsb ?f ?l then _ else _) = (if existsb ?g _ then _ else _) =>
          rewrite (existsb_ext_in f g l); [reflexivity|]
      end.
      intros i Hi.
      apply list_elem_of_In, elem_of_seqZ in Hi.
      rewrite HasBindingsFor_Insert_other; [reflexivity|].
      subst key. intros [= ->]. lia.
  - (* by entry *)
    set (key := EntryKey event_id entry).
    set (E1 := registered REGTYPE_CREATURE key functionRef shots mE E).
    assert (HE1 : GetBinding (EntryKeyOf CreatureEvents) REGTYPE_CREATURE E1
                  = Some (snd (BindingMap.Insert key functionRef shots mE))).
    { apply GetBinding_Some in HE. destruct HE as [_ <-].
      apply GetBinding_registered_eq. }
    assert (HU1 : GetBinding (UniqueObjectKeyOf CreatureEvents)
                    REGTYPE_CREATURE_UNIQUE E1 = Some mU).
    { subst E1. rewrite GetBinding_registered_ne by discriminate. exact HU. }
    exists E1. split; [apply (Register_accepted _ _ _ _ _ _ _ _ _ _ Hacc HE)|].
    pose proof (GetAI_loop_run creature _ mU E1
                  (seqZ 1 (CREATURE_EVENT_COUNT (events host) - 1)) HE1 HU1)
      as Hafter. cbv zeta in Hafter. fold (GetAI host creature) in Hafter.
    split.
    + intros Hev. rewrite Hafter.
      match goal with |- context [existsb ?f ?l] =>
        assert (existsb f l = true) as -> end; [|reflexivity].
      apply existsb_seqZ. exists event_id. split; [lia|].
      apply orb_true_iff. left. apply HasBindingsFor_Insert.
    + intros Hev. rewrite Hafter, Hbefore. cbn [fst]. do 2 f_equal.
      match goal with
      | |- (if existsb ?f ?l then _ else _) = (if existsb ?g _ then _ else _) =>
          rewrite (existsb_ext_in f g l); [reflexivity|]
      end.
      intros i Hi.
      apply list_elem_of_In, elem_of_seqZ in Hi.
      rewrite HasBindingsFor_Insert_other; [reflexivity|].
      subst key. intros [= ->]. lia.
Qed.

End ScriptAIs.

(** X9 on the sample stores: a creature of entry 1 gets an AI, one of
    entry 2 does not. *)
Lemma GetAI_witness :
  let W := Sample.world false in
  GetAI W SampleAI.creature SampleAI.E = (Ok (Some SampleAI.creature), SampleAI.E)
  /\ GetAI W SampleAI.other SampleAI.E = (Ok None, SampleAI.E).
Proof.
  intros W.
  destruct (GetAI_spec W SampleAI.creature SampleAI.store_entry
              SampleAI.store_unique SampleAI.E eq_refl eq_refl) as [Hyes _].
  destruct (GetAI_spec W SampleAI.other SampleAI.store_entry
              SampleAI.store_unique SampleAI.E eq_refl eq_refl) as [_ Hno].
  split.
  - apply Hyes. exists 5. split; [split; const_le|]. left. reflexivity.
  - apply Hno. intros (i & _ & [Hb | Hb]).
    + unfold BindingMap.HasBindingsFor, BindingMap.bindings_for,
        SampleAI.store_entry, BindingMap.Insert in Hb. cbn in Hb.
      rewrite lookup_insert_ne in Hb by discriminate.
      rewrite lookup_empty in Hb. discriminate.
    + unfold BindingMap.HasBindingsFor, BindingMap.bindings_for,
        SampleAI.store_unique, BindingMap.empty in Hb. cbn in Hb.
      rewrite lookup_empty in Hb. discriminate.
Defined.

(** X10 on the sample engine of the instance store, whose map-event
    store binds event 2 under the ids 5 and 6: a map of id 5 gets an AI;
    the map of id 33 does not, although its instance id 5 has bindings. *)
Lemma GetInstanceData_witness :
  let W := Sample.world false in
  let E := SampleInstance.E1 in
  GetInstanceData W (mkMap true 5 1) E = (Ok (Some (mkMap true 5 1)), E)
  /\ GetInstanceData W SampleInstance.map5 E = (Ok None, E).
Proof.
  intros W E.
  destruct (GetInstanceData_spec W (mkMap true 5 1) SampleInstance.store_map
              SampleInstance.store_instance E eq_refl eq_refl) as [Hyes _].
  destruct (GetInstanceData_spec W SampleInstance.map5 SampleInstance.store_map
              SampleInstance.store_instance E eq_refl eq_refl) as [_ Hno].
  split.
  - apply Hyes. exists 2. split; [split; const_le|]. left. reflexivity.
  - apply Hno. intros (i & _ & [Hb | Hb]).
    + unfold BindingMap.HasBindingsFor, BindingMap.bindings_for,
        SampleInstance.store_map, BindingMap.Insert in Hb. cbn in Hb.
      rewrite !lookup_insert_ne in Hb by discriminate.
      rewrite lookup_empty in Hb. discriminate.
    + unfold BindingMap.HasBindingsFor, BindingMap.bindings_for,
        SampleInstance.store_instance, BindingMap.Insert in Hb. cbn in Hb.
      rewrite !lookup_insert_ne in Hb by discriminate.
      rewrite lookup_empty in Hb. discriminate.
Defined.

(** X11 on fresh stores: a registration for event 5 of entry 1 makes
    the creature scripted, one for event 0 does not. *)
Lemma Register_then_GetAI_witness :
  let W := Sample.world false in
  let E := SampleAI.E_fresh in
  (exists E1,
     Register W REGTYPE_CREATURE 1 100 0 5 4 0 E = (Ok 1, E1)
     /\ GetAI W SampleAI.creature E1 = (Ok (Some SampleAI.creature), E1))
  /\ (exists E1,
        Register W REGTYPE_CREATURE 1 100 0 0 4 0 E = (Ok 1, E1)
        /\ GetAI W SampleAI.creature E1 = (Ok None, E1)).
Proof.
  intros W E. split.
  - destruct (Register_then_GetAI W SampleAI.creature false 5 4 0
                (BindingMap.empty (EntryKeyOf CreatureEvents))
                SampleAI.store_unique E eq_refl eq_refl eq_refl)
      as (E1 & Hreg & Hyes & _).
    exists E1. split; [exact Hreg|]. apply Hyes. discriminate.
  - destruct (Register_then_GetAI W SampleAI.creature false 0 4 0
                (BindingMap.empty (EntryKeyOf CreatureEvents))
                SampleAI.store_unique E eq_refl eq_refl eq_refl)
      as (E1 & Hreg & _ & Hno).
    exists E1. split; [exact Hreg|]. rewrite Hno by reflexivity.
    reflexivity.
Defined.

(* ===================================================================== *)
(** * Proofs: pushing the instance data *)
(* ===================================================================== *)

Section PushData.

Lemma HasInstanceData_true (map : Map) (ref : Z) (E : Eluna) :
  stored_ref map E = Some ref -> HasInstanceData map E = true.
Proof. intros H. apply HasInstanceData_stored. rewrite H. eauto. Qed.

Lemma HasInstanceData_false (map : Map) (E : Eluna) :
  stored_ref map E = None -> HasInstanceData map E = false.
Proof.
  intros H. destruct (HasInstanceData map E) eqn:Hhas; [|reflexivity].
  apply HasInstanceData_stored in Hhas. rewrite H in Hhas.
  destruct Hhas as [? [=]].
Qed.

(** The part of [PushInstanceData] after the reload check, on an engine
    that holds a reference for the map. *)
Lemma PushInstanceData_stored (ai : ElunaInstanceAI) (inc : bool) (E : Eluna)
  (ref : Z) (t : Z) :
  stored_ref (instance ai) E = Some ref ->
  registry_get (L E) ref = LTable t ->
  PushInstanceData ai inc E = (Ok tt, counted inc (pushed (LTable t) E)).
Proof.
  intros Href Hreg. unfold PushInstanceData, bind, gets.
  rewrite (HasInstanceData_true _ _ _ Href). cbn [negb]. unfold ret at 1.
  unfold stored_ref in Href.
  destruct (Instanceable (instance ai)); cbn [negb];
    unfold subscript; rewrite Href; unfold onL, lua_rawgeti_registry;
    rewrite Hreg; fold (pushed (LTable t) E);
    unfold lua_istable; rewrite index2value_pushed; cbn [is_table];
    unfold ASSERT, counted; destruct inc; reflexivity.
Qed.

(** What [CreateInstanceData] leaves for the map it was called for. *)
Lemma CreateInstanceData_stored (map : Map) (E : Eluna)
  (rest : list LuaValue) (t : Z) :
  stack (L E) = rest ++ [LTable t] ->
  data_refs_wf E ->
  exists (ref : Z) (E1 : Eluna),
    CreateInstanceData map E = (Ok tt, E1)
    /\ stack (L E1) = rest
    /\ push_counter E1 = push_counter E
    /\ stored_ref map E1 = Some ref
    /\ registry_get (L E1) ref = LTable t.
Proof.
  intros Hst [Hlive _].
  set (r := fresh (dom (registry (L E)))).
  assert (Hfresh : registry (L E) !! r = None).
  { apply not_elem_of_dom. apply is_fresh. }
  exists (Z.pos r). eexists.
  split; [apply (CreateInstanceData_run _ _ _ _ Hst)|].
  cbv zeta. fold r. rewrite L_store_ref. cbn [L set_L].
  split; [destruct (stored_ref map E) as [[]|]; reflexivity|].
  split; [unfold store_ref; destruct (Instanceable map); reflexivity|].
  split; [rewrite stored_ref_store_ref, decide_True by reflexivity;
          reflexivity|].
  destruct (stored_ref map E) as [old|] eqn:Hold; cbn [release registry_get].
  - destruct (Hlive map old Hold) as (p & -> & Hp). cbn [luaL_unref].
    cbn [registry set_registry].
    rewrite lookup_delete_ne, lookup_insert_eq; [reflexivity|].
    intros ->. rewrite Hfresh in Hp. destruct Hp as [? [=]].
  - cbn [registry set_registry]. rewrite lookup_insert_eq. reflexivity.
Qed.

(** X12: the table given to [CreateInstanceData] for a map is the one
    [PushInstanceData] pushes for an AI of that map: it is pushed back
    on the stack, the AI's [Reload] is not run, and the push counter
    goes up by one (modulo 256) exactly when [incrementCounter] is
    set. *)
Theorem PushInstanceData_after_Create (map : Map) (E : Eluna)
  (rest : list LuaValue) (t : Z) :
  stack (L E) = rest ++ [LTable t] ->
  data_refs_wf E ->
  exists E1,
    CreateInstanceData map E = (Ok tt, E1)
    /\ forall (ai : ElunaInstanceAI) (incrementCounter : bool),
         instance ai = map ->
         exists E2,
           PushInstanceData ai incrementCounter E1 = (Ok tt, E2)
           /\ stack (L E2) = rest ++ [LTable t]
           /\ push_counter E2
              = (if incrementCounter
                 then (push_counter E + 1) mod UINT8_MOD
                 else push_counter E)
           /\ E2 = counted incrementCounter (pushed (LTable t) E1).
Proof.
  intros Hst Hwf.
  destruct (CreateInstanceData_stored map E rest t Hst Hwf)
    as (ref & E1 & Hrun & Hst1 & Hpc & Href & Hreg).
  exists E1. split; [exact Hrun|].
  intros ai inc <-. eexists.
  split; [apply (PushInstanceData_stored ai inc E1 ref t Href Hreg)|].
  split; [|split; [|reflexivity]].
  - unfold counted, pushed. destruct inc; cbn; rewrite Hst1; reflexivity.
  - unfold counted, pushed. destruct inc; cbn; rewrite Hpc; reflexivity.
Qed.

(** X13: when the map has no instance data (the engine was reloaded),
    [PushInstanceData] runs the AI's [Reload] first and pushes the table
    that [Reload] has filed for the map.  If [Reload] files nothing,
    the lookup [refs[id]] inserts the reference 0, which names no table,
    and the assertion fails. *)
Theorem PushInstanceData_reloads (ai : ElunaInstanceAI)
  (incrementCounter : bool) (E E1 : Eluna) :
  HasInstanceData (instance ai) E = false ->
  Reload ai E = (Ok tt, E1) ->
  (forall ref t, stored_ref (instance ai) E1 = Some ref ->
                 registry_get (L E1) ref = LTable t ->
     PushInstanceData ai incrementCounter E
     = (Ok tt, counted incrementCounter (pushed (LTable t) E1)))
  /\ (stored_ref (instance ai) E1 = None ->
      exists E',
        PushInstanceData ai incrementCounter E
        = (Fault "lua_istable(L, -1)", E')
        /\ stored_ref (instance ai) E' = Some 0
        /\ stack (L E') = stack (L E1) ++ [LNil]).
Proof.
  intros Hno Hreload. split.
  - intros ref t Href Hreg.
    pose proof (PushInstanceData_stored ai incrementCounter E1 ref t Href Hreg)
      as Hpush.
    unfold PushInstanceData in *. unfold bind at 1. unfold gets at 1.
    rewrite Hno. cbn [negb]. unfold bind at 1. rewrite Hreload.
    unfold bind at 1 in Hpush. unfold gets at 1 in Hpush.
    rewrite (HasInstanceData_true _ _ _ Href) in Hpush. cbn [negb] in Hpush.
    unfold bind at 1 in Hpush. unfold ret at 1 in Hpush.
    exact Hpush.
  - intros Hnone.
    unfold PushInstanceData. unfold bind at 1. unfold gets at 1.
    rewrite Hno. cbn [negb]. unfold bind at 1. rewrite Hreload.
    unfold stored_ref in *.
    destruct (Instanceable (instance ai)); cbn [negb];
      unfold bind, subscript; rewrite Hnone;
      unfold onL, gets, lua_rawgeti_registry; cbn [registry_get];
      match goal with
      | |- context [set_L (push LNil (L ?X)) ?X] => fold (pushed LNil X)
      end;
      unfold lua_istable; rewrite index2value_pushed; cbn [is_table];
      unfold ASSERT;
      eexists; (split; [reflexivity|]); cbn;
      rewrite lookup_insert_eq; split; reflexivity.
Qed.

End PushData.

(** X12 on the sample engine: the table 11 is filed for instance 5 and
    pushed back. *)
Lemma PushInstanceData_after_Create_witness :
  exists E1 E2,
    CreateInstanceData SampleInstance.map5 SampleInstance.E1 = (Ok tt, E1)
    /\ PushInstanceData SampleReload.idle true E1 = (Ok tt, E2)
    /\ stack (L E2) = [LTable 11]
    /\ push_counter E2 = 1.
Proof.
  assert (Hwf : data_refs_wf SampleInstance.E1).
  { split.
    - intros map ref. unfold stored_ref, SampleInstance.E1. cbn.
      destruct (Instanceable map).
      + destruct (decide (GetInstanceId map = 5)) as [->|Hne].
        * rewrite lookup_insert_eq. intros [= <-].
          exists 1%positive. split; [reflexivity|].
          cbn. rewrite lookup_insert_eq. eauto.
        * rewrite lookup_insert_ne by congruence.
          rewrite lookup_empty. discriminate.
      + rewrite lookup_empty. discriminate.
    - intros m1 m2 ref. unfold stored_ref, data_id, SampleInstance.E1. cbn.
      destruct (Instanceable m1), (Instanceable m2);
        rewrite ?lookup_empty; try discriminate.
      destruct (decide (GetInstanceId m1 = 5)) as [->|Hne1];
        [|rewrite lookup_insert_ne by congruence;
          rewrite lookup_empty; discriminate].
      destruct (decide (GetInstanceId m2 = 5)) as [->|Hne2];
        [reflexivity|].
      rewrite (lookup_insert_ne _ 5 (GetInstanceId m2)) by congruence.
      rewrite lookup_empty. discriminate. }
  destruct (PushInstanceData_after_Create SampleInstance.map5
              SampleInstance.E1 [] 11 eq_refl Hwf) as (E1 & Hcreate & Hpush).
  destruct (Hpush SampleReload.idle true eq_refl)
    as (E2 & Hrun & Hst & Hpc & _).
  exists E1, E2. split; [exact Hcreate|]. split; [exact Hrun|].
  split; [exact Hst|exact Hpc].
Defined.

(** X13 on an engine that lost its data: an AI whose [Reload] files the
    table 12 gets it pushed; an AI whose [Reload] does nothing fails
    the assertion. *)
Lemma PushInstanceData_reloads_witness :
  (exists E2,
     PushInstanceData SampleReload.reloading false SampleReload.E_lost
     = (Ok tt, E2)
     /\ stack (L E2) = [LTable 12])
  /\ (exists E',
        PushInstanceData SampleReload.idle false SampleReload.E_lost
        = (Fault "lua_istable(L, -1)", E')).
Proof.
  split.
  - destruct (PushInstanceData_reloads SampleReload.reloading false
                SampleReload.E_lost
                (snd (Reload SampleReload.reloading SampleReload.E_lost))
                eq_refl eq_refl) as [Hyes _].
    eexists. split; [apply (Hyes 1 12); reflexivity|reflexivity].
  - destruct (PushInstanceData_reloads SampleReload.idle false
                SampleReload.E_lost SampleReload.E_lost eq_refl eq_refl)
      as [_ Hno].
    destruct (Hno eq_refl) as (E' & Hrun & _).
    exists E'. exact Hrun.
Defined.

(* ===================================================================== *)
(** * Proofs: calling one handler of an event *)
(* ===================================================================== *)

Section OneHandler.

Context (host : Host).

Lemma entered_with_stack (args st : list LuaValue) (E : Eluna) :
  entered args (set_L (set_stack st (L E)) E) = entered args E.
Proof. destruct E as [? ? ? ? ? ? ? ? [] ?]. reflexivity. Qed.

(** The loop of [CallOneFunction] that copies the arguments: the values
    [todo] that follow [pre ++ done] in the original stack are pushed in
    order. *)
Lemma copy_arguments (pre post : list LuaValue) :
  forall (todo done : list LuaValue) (E : Eluna),
    stack (L E) = (pre ++ (done ++ todo) ++ post) ++ done ->
    for_each (seqZ (Z.of_nat (length pre + length done) + 1)
                (Z.of_nat (length todo)))
      (fun argument_index =>
         onL_checked "lua_pushvalue" (lua_pushvalue argument_index)) E
    = (Ok tt, set_L (set_stack (stack (L E) ++ todo) (L E)) E).
Proof.
  induction todo as [|v todo IH]; intros done E Hst.
  - cbn. unfold ret. rewrite app_nil_r.
    destruct E as [? ? ? ? ? ? ? ? [] ?]. reflexivity.
  - rewrite seqZ_cons by (cbn [length]; lia). cbn [for_each].
    unfold bind at 1, onL_checked at 1, lua_pushvalue.
    assert (Hidx : index2value (L E) (Z.of_nat (length pre + length done) + 1)
                   = Some v).
    { rewrite <- length_app.
      apply (index2value_pos _ (pre ++ done) (todo ++ post ++ done)).
      rewrite Hst. rewrite <- !app_assoc. reflexivity. }
    rewrite Hidx.
    replace (Z.succ (Z.of_nat (length pre + length done) + 1))
      with (Z.of_nat (length pre + length (done ++ [v])) + 1)
      by (rewrite length_app; cbn [length]; lia).
    replace (Z.pred (Z.of_nat (length (v :: todo))))
      with (Z.of_nat (length todo)) by (cbn [length]; lia).
    rewrite (IH (done ++ [v])).
    + f_equal. destruct E as [? ? ? ? ? ? ? ? [st ? ? ? ?] ?]. cbn.
      rewrite <- app_assoc. reflexivity.
    + cbn. rewrite Hst. rewrite <- !app_assoc. reflexivity.
Qed.

(** [CallOneFunction] on a stack that [SetupStack] has prepared. *)
Lemma CallOneFunction_run (body : Script)
  (number_of_functions number_of_arguments number_of_results : Z)
  (E : Eluna) (below : list LuaValue) (event_id : LuaValue)
  (args fs : list LuaValue) (f : LuaValue) :
  stack (L E) = below ++ (event_id :: args) ++ fs ++ [f] ->
  is_function f = true ->
  number_of_functions = Z.of_nat (length fs) + 1 ->
  number_of_arguments = Z.of_nat (length args) ->
  0 <= number_of_results ->
  let st := below ++ (event_id :: args) ++ fs in
  CallOneFunction host body number_of_functions number_of_arguments
    number_of_results E
  = match run host body (entered (event_id :: args) E) with
    | (Ok vs, E2) =>
        (Ok (Z.of_nat (length st) + 1),
         left (st ++ adjust_results number_of_results vs) E2)
    | (LuaError e, E2) =>
        (Ok (Z.of_nat (length st) + 1),
         left_failed host
           (st ++ replicate (Z.to_nat number_of_results) LNil)
           (reported host e E2) E2)
    | (Fault w, E2) => (Fault w, E2)
    end.
Proof.
  intros Hst Hf -> -> Hres st.
  unfold CallOneFunction.
  destruct (Z.ltb_spec 0 (Z.of_nat (length fs) + 1)) as [_|?]; [|lia].
  destruct (Z.ltb_spec 0 (Z.of_nat (length args) + 1)) as [_|?]; [|lia].
  destruct (Z.leb_spec 0 number_of_results) as [_|?]; [|lia].
  cbn [andb]. unfold bind at 1. unfold ASSERT at 1.
  unfold bind at 1. unfold gets at 1.
  assert (Htop : lua_gettop (L E)
                 = Z.of_nat (length below) + (Z.of_nat (length args) + 1)
                   + Z.of_nat (length fs) + 1).
  { unfold lua_gettop. rewrite Hst, !length_app. cbn [length]. lia. }
  replace (lua_gettop (L E) - (Z.of_nat (length fs) + 1) + 1 - 1
           - (Z.of_nat (length args) + 1) + 1)
    with (Z.of_nat (length below + length (@nil LuaValue)) + 1)
    by (rewrite Htop; cbn [length]; lia).
  replace (Z.of_nat (length args) + 1)
    with (Z.of_nat (length (event_id :: args))) by (cbn [length]; lia).
  unfold bind at 1.
  rewrite (copy_arguments below (fs ++ [f]) (event_id :: args) [] E)
    by (rewrite app_nil_r; exact Hst).
  set (E' := set_L (set_stack (stack (L E) ++ event_id :: args) (L E)) E).
  assert (Hready : call_ready E' st f (event_id :: args)
                     (Z.of_nat (length (event_id :: args)))).
  { split; [|split; [exact Hf|reflexivity]].
    subst E' st. cbn [L set_L stack set_stack]. rewrite Hst.
    rewrite <- !app_assoc. reflexivity. }
  unfold bind at 1. unfold ExecuteCall.
  rewrite (ExecuteCall_of_run host _ _ _ E' st f (event_id :: args) Hready).
  subst E'. rewrite entered_with_stack.
  assert (Hidx : lua_gettop (L E) - 1 + 1 = Z.of_nat (length st) + 1).
  { rewrite Htop. subst st. rewrite !length_app. cbn [length]. lia. }
  destruct (run host body (entered (event_id :: args) E)) as [[vs|e|w] E2];
    unfold ret; rewrite ?Hidx; reflexivity.
Qed.

(** X14: [CallOneFunction] on the stack "event id, arguments,
    functions" calls the topmost function on a copy of the event id and
    the arguments.  The function is replaced by exactly
    [number_of_results] results, nils if it raised an error (which is
    logged and does not reach the caller); the event id, the arguments
    and the functions below stay in place; the value returned is the
    stack index of the first result, the slot the function was in. *)
Theorem CallOneFunction_spec (body : Script)
  (number_of_functions number_of_arguments number_of_results : Z)
  (E : Eluna) (below : list LuaValue) (event_id : LuaValue)
  (args fs : list LuaValue) (f : LuaValue) :
  stack (L E) = below ++ (event_id :: args) ++ fs ++ [f] ->
  is_function f = true ->
  number_of_functions = Z.of_nat (length fs) + 1 ->
  number_of_arguments = Z.of_nat (length args) ->
  0 <= number_of_results ->
  let st := below ++ (event_id :: args) ++ fs in
  (forall vs E2,
     run host body (entered (event_id :: args) E) = (Ok vs, E2) ->
     exists E',
       CallOneFunction host body number_of_functions number_of_arguments
         number_of_results E = (Ok (lua_gettop (L E)), E')
       /\ stack (L E') = st ++ adjust_results number_of_results vs
       /\ length (adjust_results number_of_results vs)
          = Z.to_nat number_of_results
       /\ log E' = log E2)
  /\ (forall e E2,
        run host body (entered (event_id :: args) E) = (LuaError e, E2) ->
        exists E',
          CallOneFunction host body number_of_functions number_of_arguments
            number_of_results E = (Ok (lua_gettop (L E)), E')
          /\ stack (L E')
             = st ++ replicate (Z.to_nat number_of_results) LNil
          /\ log E'
             = log E2 ++ [LogError (error_text host
                                      (reported host e E2))])
  /\ (forall e,
        fst (CallOneFunction host body number_of_functions
               number_of_arguments number_of_results E) <> LuaError e).
Proof.
  intros Hst Hf Hnf Hna Hres st.
  pose proof (CallOneFunction_run body _ _ _ E below event_id args fs f
                Hst Hf Hnf Hna Hres) as Hrun.
  cbv zeta in Hrun. fold st in Hrun.
  assert (Htop : Z.of_nat (length st) + 1 = lua_gettop (L E)).
  { unfold lua_gettop. rewrite Hst. subst st. rewrite !length_app.
    cbn [length]. lia. }
  rewrite Htop in Hrun.
  split; [|split].
  - intros vs E2 Hbody. rewrite Hbody in Hrun. eexists.
    split; [exact Hrun|]. split; [reflexivity|].
    split; [apply adjust_results_length, Hres|reflexivity].
  - intros e E2 Hbody. rewrite Hbody in Hrun. eexists.
    split; [exact Hrun|].
    destruct (left_failed_fields host
                (st ++ replicate (Z.to_nat number_of_results) LNil)
                (reported host e E2) E2) as (Hs & Hl & _).
    split; [exact Hs|exact Hl].
  - intros e. rewrite Hrun.
    destruct (run host body (entered (event_id :: args) E)) as [[vs|e'|w] E2];
      cbn; discriminate.
Qed.

Lemma lua_pop_run (St : lua_State) (below popped : list LuaValue) (n : Z) :
  stack St = below ++ popped -> Z.of_nat (length popped) = n ->
  lua_pop n St = Some (set_stack below St).
Proof.
  intros Hst Hn. unfold lua_pop, lua_settop, lua_gettop.
  rewrite Hst, length_app.
  destruct (Z.leb_spec 0 (- n - 1)) as [?|_]; [lia|].
  destruct (Z.leb_spec (- (- n - 1 + 1))
              (Z.of_nat (length below + length popped))) as [_|?]; [|lia].
  replace (Z.to_nat (Z.of_nat (length below + length popped) + (- n - 1) + 1))
    with (length below) by lia.
  rewrite take_app_length. reflexivity.
Qed.

Lemma CleanUpStack_run (n : Z) (E : Eluna) (below popped : list LuaValue) :
  stack (L E) = below ++ popped -> Z.of_nat (length popped) = n + 1 ->
  CleanUpStack n E
  = (if event_level E =? 0 then InvalidateObjects else ret tt)
      (set_L (set_stack below (L E)) E).
Proof.
  intros Hst Hn. unfold CleanUpStack, bind, onL_checked.
  rewrite (lua_pop_run (L E) below popped (n + 1) Hst Hn).
  unfold gets. cbn [event_level set_L]. 
  destruct E as [? ? lvl ? ? ? ? ? ? ?]. cbn. reflexivity.
Qed.

(** X15: the dispatch of an event to its one handler is neutral on the
    stack and ends the call stack exactly at the outermost level.
    [CallOneFunction(1, n, 0)] followed by [CleanUpStack(n)], on the
    values [below] and a stack "event id, n arguments, function",
    leaves [below]; the nesting level is as before; the callstack id
    goes up by one if the dispatch ran at nesting level 0 and stays as
    it was inside another dispatch, whether the handler returned or
    raised an error. *)
Theorem dispatch_one_handler (body : Script) (E : Eluna)
  (below : list LuaValue) (event_id : LuaValue) (args : list LuaValue)
  (f : LuaValue) (r : Result (list LuaValue)) (E2 : Eluna) :
  stack (L E) = below ++ (event_id :: args) ++ [f] ->
  is_function f = true ->
  counters_in_range E ->
  event_level E + 1 + depth body < UINT32_MOD ->
  callstackid E + 1 < UINT64_MOD ->
  run host body (entered (event_id :: args) E) = (r, E2) ->
  (forall w, r <> Fault w) ->
  let n := Z.of_nat (length args) in
  exists E3,
    (CallOneFunction host body 1 n 0 ;;; CleanUpStack n) E = (Ok tt, E3)
    /\ stack (L E3) = below
    /\ event_level E3 = event_level E
    /\ callstackid E3
       = (if event_level E =? 0 then callstackid E + 1 else callstackid E).
Proof.
  intros Hst Hf [Hcid Hlvl] Hdepth Hmax Hbody Hnofault n.
  pose proof (depth_nonneg body) as Hd0.
  pose proof (CallOneFunction_run body 1 n 0 E below event_id args [] f
                Hst Hf eq_refl eq_refl (Z.le_refl 0)) as Hcall.
  cbv zeta in Hcall. rewrite Hbody in Hcall. rewrite app_nil_r in Hcall.
  assert (Hentered : event_level (entered (event_id :: args) E)
                     = event_level E + 1).
  { unfold entered. destruct E as [? ? lvl ? ? ? ? ? ? ?].
    cbn [event_level set_L set_event_level] in *.
    apply Z.mod_small. lia. }
  destruct (run_keeps_counters host body (event_level E + 1)
              ltac:(lia) ltac:(lia) _ _ _ Hbody Hentered) as [Hc2 Hl2].
  specialize (Hl2 Hnofault).
  assert (Hc2' : callstackid E2 = callstackid E).
  { rewrite Hc2. destruct E as [? ? ? ? ? ? ? ? ? ?]. reflexivity. }
  assert (Hback : (event_level E2 - 1) mod UINT32_MOD = event_level E).
  { rewrite Hl2. replace (event_level E + 1 - 1) with (event_level E) by lia.
    apply Z.mod_small. exact Hlvl. }
  assert (Hclean : forall Ex,
            stack (L Ex) = below ++ event_id :: args ->
            event_level Ex = event_level E ->
            callstackid Ex = callstackid E ->
            exists E3,
              CleanUpStack n Ex = (Ok tt, E3)
              /\ stack (L E3) = below
              /\ event_level E3 = event_level E
              /\ callstackid E3
                 = (if event_level E =? 0 then callstackid E + 1
                    else callstackid E)).
  { intros Ex Hsx Hlx Hcx.
    rewrite (CleanUpStack_run n Ex below (event_id :: args) Hsx)
      by (subst n; cbn [length]; lia).
    rewrite Hlx. destruct (event_level E =? 0).
    - rewrite InvalidateObjects_run.
      replace (callstackid (set_L (set_stack below (L Ex)) Ex))
        with (callstackid E)
        by (rewrite <- Hcx; destruct Ex; reflexivity).
      rewrite (Z.mod_small (callstackid E + 1)) by lia.
      destruct (Z.eqb_spec (callstackid E + 1) 0) as [?|_]; [lia|].
      eexists. split; [reflexivity|].
      split; [destruct Ex; reflexivity|].
      split; [rewrite <- Hlx; destruct Ex; reflexivity|reflexivity].
    - unfold ret. eexists. split; [reflexivity|].
      split; [destruct Ex; reflexivity|].
      split; [rewrite <- Hlx; destruct Ex; reflexivity|].
      rewrite <- Hcx. destruct Ex; reflexivity. }
  unfold bind. rewrite Hcall.
  destruct r as [vs|e|w]; [| |destruct (Hnofault w eq_refl)].
  - apply Hclean.
    + unfold left. cbn [L set_L stack set_stack].
      unfold adjust_results. cbn. rewrite app_nil_r. reflexivity.
    + unfold left. cbn. exact Hback.
    + unfold left. cbn. exact Hc2'.
  - destruct (left_failed_fields host
                ((below ++ event_id :: args) ++ replicate (Z.to_nat 0) LNil)
                (reported host e E2) E2) as (Hs & _ & _ & Hl & Hc & _).
    cbv zeta in Hs, Hl, Hc. apply Hclean.
    + rewrite Hs. cbn. rewrite app_nil_r. reflexivity.
    + rewrite Hl. exact Hback.
    + rewrite Hc. exact Hc2'.
Qed.

End OneHandler.

(** X14 at a concrete dispatch: two handlers are set up for an event
    with one argument; the topmost one is called for one result and
    raises an error. *)
Lemma CallOneFunction_witness :
  let W := Sample.world false in
  let E := Sample.with_stack
             [LNumber (of_Z 3); LString "arg"; LFunction 8; LFunction 9]
             Sample.E0 in
  exists E',
    CallOneFunction W (SError (LString "boom")) 2 1 1 E = (Ok 4, E')
    /\ stack (L E')
       = [LNumber (of_Z 3); LString "arg"; LFunction 8; LNil]
    /\ log E' = [LogError (Some "boom")].
Proof.
  intros W E.
  destruct (CallOneFunction_spec W (SError (LString "boom")) 2 1 1 E
              [] (LNumber (of_Z 3)) [LString "arg"] [LFunction 8] (LFunction 9)
              eq_refl eq_refl eq_refl eq_refl ltac:(discriminate))
    as (_ & Hfail & _).
  destruct (Hfail (LString "boom")
              (entered [LNumber (of_Z 3); LString "arg"] E) eq_refl)
    as (E' & Hrun & Hst & Hlog).
  exists E'. split; [exact Hrun|]. split; [exact Hst|exact Hlog].
Defined.

(** X15 at a concrete dispatch at nesting level 0: the stack is empty
    again and the callstack id went from 2 to 3. *)
Lemma dispatch_one_handler_witness :
  let W := Sample.world false in
  let E := Sample.with_stack
             [LNumber (of_Z 3); LString "arg"; LFunction 9] Sample.E0 in
  exists E3,
    (CallOneFunction W (SReturn [LBoolean true]) 1 1 0 ;;; CleanUpStack 1) E
    = (Ok tt, E3)
    /\ stack (L E3) = []
    /\ event_level E3 = 0
    /\ callstackid E3 = 3.
Proof.
  intros W E.
  destruct (dispatch_one_handler W (SReturn [LBoolean true]) E
              [] (LNumber (of_Z 3)) [LString "arg"] (LFunction 9)
              (Ok [LBoolean true])
              (entered [LNumber (of_Z 3); LString "arg"] E)
              eq_refl eq_refl)
    as (E3 & Hrun & Hst & Hlvl & Hcid).
  - split; split; const_le.
  - const_le.
  - const_le.
  - reflexivity.
  - discriminate.
  - exists E3. split; [exact Hrun|]. split; [exact Hst|].
    split; [exact Hlvl|exact Hcid].
Defined.

(* ===================================================================== *)
(** * Proofs: handles and the callstack id *)
(* ===================================================================== *)

Section Handles.

(** X16: the callstack ids 0 and 1 are reserved (LuaEngine.h) and
    [InvalidateObjects] never yields them.  From an id of 2 or more it
    returns with the id one higher, still below 2^64, or, at the last
    id, it fails its overflow assertion.  A handle stamped with the id
    that was current is valid before and no longer valid after; a
    handle stamped 0 stays valid. *)
Theorem InvalidateObjects_reserved (E : Eluna) :
  2 <= callstackid E < UINT64_MOD ->
  (callstackid E + 1 < UINT64_MOD ->
   InvalidateObjects E = (Ok tt, set_callstackid (callstackid E + 1) E))
  /\ (callstackid E + 1 = UINT64_MOD ->
      exists E', InvalidateObjects E = (Fault "Callstackid overflow", E'))
  /\ (forall E', InvalidateObjects E = (Ok tt, E') ->
        2 < callstackid E' < UINT64_MOD
        /\ callstackid E' = callstackid E + 1
        /\ (forall o, obj_callstackid o = callstackid E ->
                      IsValid E o = true /\ IsValid E' o = false)
        /\ (forall o, obj_callstackid o = 0 ->
                      IsValid E o = true /\ IsValid E' o = true)).
Proof.
  intros Hc. rewrite InvalidateObjects_run.
  split; [|split].
  - intros Hlt. rewrite Z.mod_small by lia.
    destruct (Z.eqb_spec (callstackid E + 1) 0); [lia|reflexivity].
  - intros ->. rewrite Z.mod_same by (unfold UINT64_MOD; lia).
    eexists. reflexivity.
  - intros E' Hrun.
    destruct (Z.eqb_spec ((callstackid E + 1) mod UINT64_MOD) 0)
      as [|Hnz]; [discriminate|].
    injection Hrun as <-.
    assert (Hlt : callstackid E + 1 < UINT64_MOD).
    { destruct (Z.lt_ge_cases (callstackid E + 1) UINT64_MOD) as [?|Hge];
        [assumption|].
      destruct Hnz. replace (callstackid E + 1) with UINT64_MOD by lia.
      apply Z.mod_same. unfold UINT64_MOD. lia. }
    cbn [callstackid set_callstackid]. rewrite Z.mod_small by lia.
    split; [lia|]. split; [reflexivity|]. unfold IsValid.
    cbn [callstackid set_callstackid].
    split.
    + intros o ->. rewrite Z.eqb_refl, orb_true_r.
      split; [reflexivity|].
      destruct (Z.eqb_spec (callstackid E) 0); [lia|].
      destruct (Z.eqb_spec (callstackid E) (callstackid E + 1)); [lia|].
      reflexivity.
    + intros o ->. split; reflexivity.
Qed.

Lemma lua_touserdata_pushed (o : ElunaObject) (E : Eluna) :
  lua_touserdata (L (pushed (LUserdata o) E)) (-1) = Some o.
Proof. unfold lua_touserdata. rewrite index2value_pushed. reflexivity. Qed.

Lemma IsValid_current (T : Wrapper) (o : Object) (E : Eluna) (v : LuaValue) :
  IsValid (pushed v E)
    (mkElunaObject (tname T) (RefObject o) (callstackid E)) = true.
Proof.
  unfold IsValid. cbn [obj_callstackid].
  replace (callstackid (pushed v E)) with (callstackid E)
    by (destruct E; reflexivity).
  rewrite Z.eqb_refl. apply orb_true_r.
Qed.

(** X17: an object that [Push] has pushed is read back by the check of
    the same static type, within the same call stack: what the [Unit]
    overload of [Push] pushed passes [CHECKOBJ<Unit>], what the
    [WorldObject] overload pushed passes [CHECKOBJ<WorldObject>], what
    the [Object] overload pushed passes [CHECKOBJ<Object>], each
    returning the object, whatever its type tag; a pet or a temporary
    summon comes back through [CHECKOBJ<Unit>] and
    [CHECKOBJ<Creature>].  What the [Object] overload pushed for an
    object with none of the four named type tags does not pass
    [CHECKOBJ<WorldObject>]. *)
Theorem Push_CHECKOBJ_round_trip (o : Object) (E : Eluna) (error : bool) :
  let after (a : PushArg) := pushed (pushed_value a (callstackid E)) E in
  (Push (arg_Unit (Some o)) E = (Ok tt, after (arg_Unit (Some o)))
   /\ CHECKOBJ W_Unit (after (arg_Unit (Some o))) (-1) error
      = Ok (Some (RefObject o)))
  /\ (Push (arg_WorldObject (Some o)) E
      = (Ok tt, after (arg_WorldObject (Some o)))
      /\ CHECKOBJ W_WorldObject (after (arg_WorldObject (Some o))) (-1) error
         = Ok (Some (RefObject o)))
  /\ (Push (arg_Object (Some o)) E = (Ok tt, after (arg_Object (Some o)))
      /\ CHECKOBJ W_Object (after (arg_Object (Some o))) (-1) error
         = Ok (Some (RefObject o)))
  /\ (Push (arg_Pet (Some o)) E = (Ok tt, after (arg_Pet (Some o)))
      /\ Push (arg_TempSummon (Some o)) E = (Ok tt, after (arg_Pet (Some o)))
      /\ CHECKOBJ W_Unit (after (arg_Pet (Some o))) (-1) error
         = Ok (Some (RefObject o))
      /\ CHECKOBJ W_Creature (after (arg_Pet (Some o))) (-1) error
         = Ok (Some (RefObject o)))
  /\ (forall tag, GetTypeId o = TYPEID_OTHER tag ->
        CHECKOBJ W_WorldObject (after (arg_Object (Some o))) (-1) false
        = Ok None).
Proof.
  intros after.
  assert (Hacc : forall T U,
            T ∈ [W_Unit; W_WorldObject; W_Object] -> U ∈ chain_of T ->
            CHECKOBJ T (pushed (wrapper_of U o E) E) (-1) error
            = Ok (Some (RefObject o))).
  { intros T U HT HU. unfold wrapper_of.
    apply (CHECKOBJ_accepts T U _ (-1) error
             (mkElunaObject (tname U) (RefObject o) (callstackid E)) HT HU
             (lua_touserdata_pushed _ E) eq_refl (IsValid_current U o E _)). }
  subst after. cbv beta.
  split; [|split; [|split; [|split]]].
  - split; [apply Push_pushed|]. destruct o as [tag guid].
    destruct tag; apply Hacc; cbn; set_solver.
  - split; [apply Push_pushed|]. destruct o as [tag guid].
    destruct tag; apply Hacc; cbn; set_solver.
  - split; [apply Push_pushed|]. destruct o as [tag guid].
    destruct tag; apply Hacc; cbn; set_solver.
  - split; [apply Push_pushed|].
    split; [apply (Push_pushed (arg_TempSummon (Some o)))|].
    split; [apply (Hacc W_Unit W_Creature); cbn; set_solver|].
    cbn [pushed_value].
    unfold CHECKOBJ, ElunaTemplate_Check, CHECKTYPE, lua_islightuserdata.
    rewrite lua_touserdata_pushed, index2value_pushed. cbn [GetTypeName].
    rewrite String.eqb_refl. cbn [negb].
    rewrite (IsValid_current W_Creature o E). reflexivity.
  - intros tag Htag.
    destruct o as [tag' guid]. cbn in Htag. subst tag'.
    cbn [pushed_value class_of_Object GetTypeId tname].
    unfold CHECKOBJ. rewrite CHECKOBJ_WorldObject_chain.
    rewrite check_chain_mismatch; [reflexivity|].
    intros o' Ho' U HU.
    rewrite lua_touserdata_pushed in Ho'. injection Ho' as <-.
    cbn [GetTypeName tname]. set_unfold.
    destruct HU as [->|[->|[->|[->|[->|[->|[]]]]]]]; discriminate.
Qed.

(** X18: [CHECKOBJ<ElunaObject>] accepts every full userdata, whatever
    its class and without looking at its callstack id: a handle that
    was invalidated still passes.  A light userdata and any other value
    are refused: with error reporting an argument error is raised that
    names what was found, without it the check returns null. *)
Theorem CHECKOBJ_ElunaObject_spec (E : Eluna) (narg : Z) :
  (forall o error, index2value (L E) narg = Some (LUserdata o) ->
     CHECKOBJ_ElunaObject E narg error = Ok (Some o))
  /\ (forall p, index2value (L E) narg = Some (LLightUserdata p) ->
        CHECKOBJ_ElunaObject E narg true
        = luaL_argerror narg
            "bad argument : userdata expected, got lightuserdata"
        /\ CHECKOBJ_ElunaObject E narg false = Ok None)
  /\ ((forall o, index2value (L E) narg <> Some (LUserdata o)) ->
      (forall p, index2value (L E) narg <> Some (LLightUserdata p)) ->
      CHECKOBJ_ElunaObject E narg true
      = luaL_argerror narg
          ("bad argument : ElunaObject expected, got "
           +:+ luaL_typename (L E) narg)
      /\ CHECKOBJ_ElunaObject E narg false = Ok None).
Proof.
  unfold CHECKOBJ_ElunaObject, CHECKTYPE, lua_islightuserdata, lua_touserdata.
  split; [|split].
  - intros o error ->. reflexivity.
  - intros p ->. split; reflexivity.
  - intros Hu Hl.
    destruct (index2value (L E) narg) as [[]|] eqn:Hv;
      try (split; reflexivity).
    + destruct (Hu o eq_refl).
    + destruct (Hl p eq_refl).
Qed.

End Handles.

(** X16 on a fresh engine, whose callstack id is 2, and on one at the
    last id. *)
Lemma InvalidateObjects_reserved_witness :
  InvalidateObjects Sample.E0 = (Ok tt, set_callstackid 3 Sample.E0)
  /\ (exists E',
        InvalidateObjects (set_callstackid (UINT64_MOD - 1) Sample.E0)
        = (Fault "Callstackid overflow", E')).
Proof.
  split.
  - destruct (InvalidateObjects_reserved Sample.E0) as (Hnext & _).
    + split; const_le.
    + apply Hnext. const_le.
  - destruct (InvalidateObjects_reserved
                (set_callstackid (UINT64_MOD - 1) Sample.E0))
      as (_ & Hlast & _).
    + split; const_le.
    + apply Hlast. reflexivity.
Defined.

(* ===================================================================== *)
(** * Proofs: the script batch as a whole *)
(* ===================================================================== *)

Section WholeBatch.

Context (host : Host).

Lemma batch_ready_log (E : Eluna) (base : list LuaValue) (req : LuaValue)
  (e : LogEntry) :
  batch_ready E base req -> batch_ready (add_log e E) base req.
Proof. intros H. destruct E. exact H. Qed.

Lemma boundMap_add_log (e : LogEntry) (E : Eluna) :
  boundMap (add_log e E) = boundMap E.
Proof. destruct E. reflexivity. Qed.

(** [PrecompiledLoader] returns or raises an error. *)
Lemma PrecompiledLoader_no_fault (S : lua_State) (w : string) :
  fst (PrecompiledLoader host S) <> Fault w.
Proof.
  unfold PrecompiledLoader.
  destruct (lua_tostring (lualib host) 1 S) as [[modname|] S1];
    [|discriminate].
  destruct (List.find _ (GetLuaScripts host)) as [it|]; [|discriminate].
  destruct (luaL_loadbuffer host it); discriminate.
Qed.

Lemma luaL_checkstring_no_fault (S : lua_State) (narg : Z) (w : string) :
  luaL_checkstring (lualib host) S narg <> Fault w.
Proof.
  unfold luaL_checkstring.
  destruct (index2value S narg) as [v|]; [|discriminate].
  destruct (tostring (lualib host) v); discriminate.
Qed.

Lemma findloader_no_fault (name : string) (E : Eluna) (w : string) :
  fst (findloader host name E) <> Fault w.
Proof.
  unfold findloader. rewrite bind_run. unfold call_with at 1.
  unfold c_function. rewrite bind_run. unfold onL_result at 1.
  pose proof (PrecompiledLoader_no_fault
                (L (set_L (set_stack [LString name] (L E)) E))) as Hpl.
  destruct (PrecompiledLoader host _) as [[n|e|w'] S1]; cbn [fst snd] in *.
  - unfold gets.
    destruct (is_function _); [discriminate|].
    destruct (package_searchers host name); discriminate.
  - discriminate.
  - destruct (Hpl w' eq_refl).
Qed.

(** When no chunk and no loader ends the process, [require] does not
    either. *)
Lemma require_never_faults (E : Eluna) :
  chunks_never_fault host -> forall w, fst (require host E) <> Fault w.
Proof.
  intros Hnf w. unfold require.
  rewrite bind_run.
  pose proof (luaL_checkstring_no_fault (L E) 1) as Harg.
  destruct (luaL_checkstring (lualib host) (L E) 1) as [arg|e|w'];
    [|discriminate|destruct (Harg w' eq_refl)].
  rewrite bind_run. unfold gets at 1.
  destruct (truthy _); [discriminate|].
  rewrite bind_run.
  pose proof (findloader_no_fault (c_str arg) E) as Hfind.
  destruct (findloader host (c_str arg) E) as [[found|e|w'] E1];
    [|discriminate|destruct (Hfind w' eq_refl)].
  rewrite bind_run. unfold call_with at 1.
  pose proof (Hnf (fst found)
                (set_L (set_stack [LString (c_str arg); snd found] (L E1)) E1))
    as Hbody.
  destruct (run host (function_body host (fst found)) _) as [[vs|e|w'] E2];
    [|discriminate|destruct (Hbody w' eq_refl)].
  rewrite bind_run.
  destruct (default LNil (head vs)) eqn:Hv;
    cbv beta iota delta [ret onL];
    rewrite bind_run; unfold gets at 1;
    match goal with
    | |- context [match ?d with LNil => _ | _ => _ end] =>
        destruct d; discriminate
    end.
Qed.

(** One script of the batch: the loop's stack is kept, the bound map is
    kept and the count goes up by at most one. *)
Lemma RunScripts_body_keeps (boundMapId : Z) (it : LuaScript)
  (loaded : gmap string string) (count : Z) (E : Eluna)
  (base : list LuaValue) (req : LuaValue) :
  chunks_never_fault host ->
  batch_ready E base req -> 0 <= count ->
  exists loaded' count' E',
    RunScripts_body host boundMapId it (loaded, count) E
    = (Ok (loaded', count'), E')
    /\ batch_ready E' base req
    /\ 0 <= count' <= count + 1.
Proof.
  intros Hnf Hready Hcount.
  destruct (decide (for_this_map boundMapId it)) as [Hmap|Hother].
  - destruct (loaded !! filename it) as [from|] eqn:Hloaded.
    + (* a duplicate *)
      exists loaded, count, (add_log (LogError (Some (duplicate_message it from))) E).
      split; [|split; [apply batch_ready_log, Hready|lia]].
      unfold RunScripts_body.
      destruct Hmap as [Hm|Hm]; rewrite Hm.
      * cbn [Z.eqb negb andb]. rewrite Hloaded. reflexivity.
      * rewrite Z.eqb_refl. cbn [negb]. rewrite andb_false_r.
        rewrite Hloaded. reflexivity.
    + (* required *)
      rewrite (RunScripts_body_require host boundMapId it loaded count E
                 base req Hmap Hloaded Hready).
      pose proof (require_never_faults (requiring it E) Hnf) as Hrun.
      destruct (require host (requiring it E))
        as [[vs|e|w] E2]; [| |destruct (Hrun w eq_refl)].
      * eexists _, _, _. split; [reflexivity|].
        split; [split; [reflexivity|apply Hready]|].
        pose proof (Z.mod_pos_bound (count + 1) UINT32_MOD eq_refl).
        pose proof (Z.mod_le (count + 1) UINT32_MOD ltac:(lia) eq_refl).
        lia.
      * eexists _, _, _. split; [reflexivity|].
        split; [|lia].
        destruct (left_failed_fields host (base ++ [req])
                    (reported host e E2) E2) as (Hs & _).
        split; [exact Hs|apply Hready].
  - (* tagged for another map *)
    exists loaded, count, (add_log (LogDebug (tagged_message it boundMapId)) E).
    split; [|split; [apply batch_ready_log, Hready|lia]].
    unfold RunScripts_body, for_this_map in *.
    destruct (Z.eqb_spec (mapId it) (-1)) as [?|_]; [tauto|].
    destruct (Z.eqb_spec (mapId it) boundMapId) as [?|_]; [tauto|].
    reflexivity.
Qed.

Lemma RunScripts_loop_keeps (boundMapId : Z) (scripts : list LuaScript) :
  forall (loaded : gmap string string) (count : Z) (E : Eluna)
         (base : list LuaValue) (req : LuaValue),
    chunks_never_fault host ->
    batch_ready E base req -> 0 <= count ->
    exists loaded' count' E',
      RunScripts_loop host boundMapId scripts (loaded, count) E
      = (Ok (loaded', count'), E')
      /\ batch_ready E' base req
      /\ 0 <= count' <= count + Z.of_nat (length scripts).
Proof.
  induction scripts as [|it rest IH]; intros loaded count E base req Hnf Hr Hc.
  - exists loaded, count, E. split; [reflexivity|]. split; [exact Hr|].
    cbn [length]. lia.
  - destruct (RunScripts_body_keeps boundMapId it loaded count E base req
                Hnf Hr Hc) as (l1 & c1 & E1 & Hbody & Hr1 & Hc1).
    destruct (IH l1 c1 E1 base req Hnf Hr1 ltac:(lia))
      as (l2 & c2 & E2 & Hloop & Hr2 & Hc2).
    exists l2, c2, E2. cbn [RunScripts_loop]. unfold bind. rewrite Hbody.
    split; [exact Hloop|]. split; [exact Hr2|].
    cbn [length]. lia.
Qed.

(** X19: [RunScripts] as a whole.  When the global [require] is a
    function and no chunk ends the process, [RunScripts] goes through
    the whole list, whatever fails to load, and ends in the hook
    [OnLuaStateOpen]: the hook starts on the stack that [RunScripts]
    was entered with, after a closing log line that reports a count
    between 0 and the number of scripts. *)
Theorem RunScripts_reaches_hook (OnLuaStateOpen : M unit) (E : Eluna)
  (req : LuaValue) :
  globals (L E) !! "require" = Some req ->
  is_function req = true ->
  chunks_never_fault host ->
  exists (E1 : Eluna) (count : Z),
    RunScripts host OnLuaStateOpen E = OnLuaStateOpen E1
    /\ stack (L E1) = stack (L E)
    /\ 0 <= count <= Z.of_nat (length (GetLuaScripts host))
    /\ last (log E1)
       = Some (LogInfo (executed_message count (GetBoundMapId E)
                          (GetBoundInstanceId E))).
Proof.
  intros Hreq Hfn Hnf.
  set (El := add_log (LogDebug ("[Eluna]: Running scripts for state: " +:+
                                pretty (GetBoundMapId E) +:+
                                ", instance: " +:+
                                pretty (GetBoundInstanceId E))) E).
  set (E0 := set_L (lua_getglobal "require" (L El)) El).
  assert (Hready : batch_ready E0 (stack (L E)) req).
  { subst E0 El. unfold batch_ready, lua_getglobal.
    replace (globals (L (add_log _ E))) with (globals (L E))
      by (destruct E; reflexivity).
    rewrite Hreq.
    destruct E as [? ? ? ? ? ? ? ? [] ?]. split; [reflexivity|exact Hfn]. }
  destruct (RunScripts_loop_keeps (GetBoundMapId E) (GetLuaScripts host)
              ∅ 0 E0 (stack (L E)) req Hnf Hready (Z.le_refl 0))
    as (loaded & count & E' & Hloop & [Hst _] & Hcount).
  eexists _, count.
  split.
  - unfold RunScripts, bind, gets, ELUNA_LOG, onL. fold El. fold E0.
    rewrite Hloop. unfold onL_checked.
    rewrite (lua_pop_one (L E') (stack (L E)) req Hst). cbn [snd].
    reflexivity.
  - split; [destruct E'; reflexivity|]. split; [lia|].
    destruct E' as [? ? ? ? ? ? ? ? ? lg]. cbn [log add_log set_L].
    rewrite last_snoc. reflexivity.
Qed.

End WholeBatch.

(** X19 on the sample batch of four scripts, of which one loads. *)
Lemma RunScripts_reaches_hook_witness :
  let W := Sample.world false in
  exists E1,
    RunScripts W (ret tt) Sample.E0 = (Ok tt, E1)
    /\ stack (L E1) = []
    /\ last (log E1)
       = Some (LogInfo
                 "[Eluna]: Executed 1 Lua scripts for map: -1, instance: 0").
Proof.
  intros W.
  assert (Hnf : chunks_never_fault W).
  { intros f E w. cbn [function_body W Sample.world]. unfold Sample.body.
    destruct f as [| | | | |[| [ | | ] | ]| | |]; cbn; try discriminate.
    all: repeat match goal with
                | |- context [match ?p with _ => _ end] => destruct p
                end; cbn; discriminate. }
  destruct (RunScripts_reaches_hook W (ret tt) Sample.E0 (LFunction 2)
              eq_refl eq_refl Hnf) as (E1 & count & Hrun & Hst & _ & _).
  exists E1. split; [exact Hrun|]. split; [exact Hst|].
  assert (HE1 : E1 = snd (RunScripts W (ret tt) Sample.E0))
    by (rewrite Hrun; reflexivity).
  rewrite HE1. vm_compute. reflexivity.
Defined.

(* ===================================================================== *)
(** * Proofs: the loader of precompiled scripts *)
(* ===================================================================== *)

Section PrecompiledScripts.

Context (host : Host).

Lemma lua_tostring_string (S : lua_State) (idx : Z) (s : string) :
  index2value S idx = Some (LString s) ->
  lua_tostring (lualib host) idx S = (Some s, S).
Proof. unfold lua_tostring. intros ->. reflexivity. Qed.

Lemma find_no_script (modname : string) (scripts : list LuaScript) :
  (forall s, s ∈ scripts -> filename s <> modname) ->
  List.find (fun script => String.eqb (filename script) modname) scripts
  = None.
Proof.
  induction scripts as [|s rest IH]; intros Hno; [reflexivity|].
  cbn [List.find].
  destruct (String.eqb_spec (filename s) modname) as [Heq|_].
  - destruct (Hno s ltac:(left) Heq).
  - apply IH. intros s' Hs'. apply Hno. right. exact Hs'.
Qed.

Lemma find_first (modname : string) (pre post : list LuaScript)
  (it : LuaScript) :
  (forall s, s ∈ pre -> filename s <> modname) ->
  filename it = modname ->
  List.find (fun script => String.eqb (filename script) modname)
    (pre ++ it :: post) = Some it.
Proof.
  intros Hpre Hit. induction pre as [|s pre IH]; cbn [app List.find].
  - rewrite Hit, String.eqb_refl. reflexivity.
  - destruct (String.eqb_spec (filename s) modname) as [Heq|_].
    + destruct (Hpre s ltac:(left) Heq).
    + apply IH. intros s' Hs'. apply Hpre. right. exact Hs'.
Qed.

Lemma c_results_pushed2 (a b : LuaValue) (S : lua_State) :
  c_results 2 (push b (push a S)) = [a; b].
Proof.
  unfold c_results, push. cbn [stack set_stack].
  rewrite <- app_assoc. cbn [app].
  rewrite length_app. cbn [length].
  replace (length (stack S) + 2 - Z.to_nat 2)%nat with (length (stack S))
    by lia.
  apply drop_app_length.
Qed.

Lemma c_results_pushed1 (a : LuaValue) (S : lua_State) :
  c_results 1 (push a S) = [a].
Proof.
  unfold c_results, push. cbn [stack set_stack].
  rewrite length_app. cbn [length].
  replace (length (stack S) + 1 - Z.to_nat 1)%nat with (length (stack S))
    by lia.
  apply drop_app_length.
Qed.

(** X20: [PrecompiledLoader] for a module that is not there.  When its
    first argument is no string and no number it returns nothing.  The
    module name is read as a C string, up to its first NUL: when no
    script of the loader has that text as its file name, the loader
    returns one value, the message that names the module, and raises no
    error, so that [require] can go on to its other loaders. *)
Theorem PrecompiledLoader_not_found (S : lua_State) :
  ((forall s, index2value S 1 <> Some (LString s)) ->
   (forall d, index2value S 1 <> Some (LNumber d)) ->
   PrecompiledLoader host S = (Ok 0, S))
  /\ (forall modname,
        index2value S 1 = Some (LString modname) ->
        (forall s, s ∈ GetLuaScripts host -> filename s <> c_str modname) ->
        exists S',
          PrecompiledLoader host S = (Ok 1, S')
          /\ c_results 1 S'
             = [LString (no_precompiled_script (c_str modname))]
          /\ stack S'
             = stack S ++ [LString (no_precompiled_script (c_str modname))]).
Proof.
  split.
  - intros Hs Hd. unfold PrecompiledLoader, lua_tostring.
    destruct (index2value S 1) as [[]|]; try reflexivity.
    + destruct (Hd d eq_refl).
    + destruct (Hs s eq_refl).
  - intros modname Harg Hno. unfold PrecompiledLoader.
    rewrite (lua_tostring_string S 1 modname Harg).
    cbv zeta. rewrite (find_no_script (c_str modname) _ Hno).
    eexists. split; [reflexivity|].
    split; [apply c_results_pushed1|reflexivity].
Qed.

(** X21: [PrecompiledLoader] finds a script by its file name alone.
    Of the loader's scripts it takes the first, in list order, whose
    file name is the module name (read as a C string, up to its first
    NUL), whatever map the script is tagged for and whatever scripts of
    the same name follow.  If that script's bytecode loads, the loader
    returns two values, the compiled chunk and the script's file path;
    if it does not, the loader raises the load error. *)
Theorem PrecompiledLoader_first_match (S : lua_State) (modname : string)
  (pre post : list LuaScript) (it : LuaScript) :
  index2value S 1 = Some (LString modname) ->
  GetLuaScripts host = pre ++ it :: post ->
  (forall s, s ∈ pre -> filename s <> c_str modname) ->
  filename it = c_str modname ->
  (forall filefunction, luaL_loadbuffer host it = inl filefunction ->
     exists S',
       PrecompiledLoader host S = (Ok 2, S')
       /\ c_results 2 S' = [filefunction; LString (c_str (filepath it))]
       /\ stack S' = stack S ++ [filefunction; LString (c_str (filepath it))])
  /\ (forall errmsg, luaL_loadbuffer host it = inr errmsg ->
        fst (PrecompiledLoader host S) = LuaError errmsg).
Proof.
  intros Harg Hscripts Hpre Hit.
  assert (Hfind : List.find
                    (fun script => String.eqb (filename script) (c_str modname))
                    (GetLuaScripts host) = Some it).
  { rewrite Hscripts. apply find_first; assumption. }
  split.
  - intros f Hload. unfold PrecompiledLoader.
    rewrite (lua_tostring_string S 1 modname Harg). cbv zeta.
    rewrite Hfind, Hload.
    eexists. split; [reflexivity|].
    split; [apply c_results_pushed2|].
    unfold lua_pushstring, push. cbn [stack set_stack].
    rewrite <- app_assoc. reflexivity.
  - intros errmsg Hload. unfold PrecompiledLoader.
    rewrite (lua_tostring_string S 1 modname Harg). cbv zeta.
    rewrite Hfind, Hload.
    reflexivity.
Qed.

End PrecompiledScripts.

(** X21 on the sample scripts: of the two scripts named [a] the first
    is loaded; the script [b], tagged for map 530, is found whatever
    map the engine is bound to; a module name that goes on after a NUL
    finds the script named by the text before it. *)
Lemma PrecompiledLoader_first_match_witness :
  let W := Sample.world false in
  let S name := set_stack [LString name] Sample.L0 in
  c_results 2 (snd (PrecompiledLoader W (S "a")))
  = [LFunction 101; LString "scripts/a.lua"]
  /\ c_results 2 (snd (PrecompiledLoader W (S "b")))
     = [LFunction 102; LString "scripts/530/b.lua"]
  /\ c_results 2 (snd (PrecompiledLoader W (S ("a" +:+ String Ascii.zero "b"))))
     = [LFunction 101; LString "scripts/a.lua"].
Proof.
  intros W S. split; [|split].
  - destruct (PrecompiledLoader_first_match W (S "a") "a" []
                (tl Sample.scripts) (hd (mkLuaScript "" "" "" "" 0) Sample.scripts)
                eq_refl eq_refl) as [Hok _].
    + intros s Hs. apply elem_of_nil in Hs. destruct Hs.
    + reflexivity.
    + destruct (Hok _ eq_refl) as (S' & Hrun & Hres & _).
      rewrite Hrun. exact Hres.
  - destruct (PrecompiledLoader_first_match W (S "b") "b"
                [hd (mkLuaScript "" "" "" "" 0) Sample.scripts]
                (tl (tl Sample.scripts))
                (hd (mkLuaScript "" "" "" "" 0) (tl Sample.scripts))
                eq_refl eq_refl) as [Hok _].
    + intros s Hs. apply list_elem_of_singleton in Hs. subst s. discriminate.
    + reflexivity.
    + destruct (Hok _ eq_refl) as (S' & Hrun & Hres & _).
      rewrite Hrun. exact Hres.
  - destruct (PrecompiledLoader_first_match W
                (S ("a" +:+ String Ascii.zero "b"))
                ("a" +:+ String Ascii.zero "b") []
                (tl Sample.scripts) (hd (mkLuaScript "" "" "" "" 0) Sample.scripts)
                eq_refl eq_refl) as [Hok _].
    + intros s Hs. apply elem_of_nil in Hs. destruct Hs.
    + reflexivity.
    + destruct (Hok _ eq_refl) as (S' & Hrun & Hres & _).
      rewrite Hrun. exact Hres.
Defined.

(* ===================================================================== *)
(** * Proofs: edges of the protected call and of freeing an instance *)
(* ===================================================================== *)

Section CallEdges.

Context (host : Host).

(** X22: [ExecuteCall(params, LUA_MULTRET)].  With a negative result
    count the loop that pushes nils does not run: a function that
    returns leaves all of its results on the stack, a function that
    raises an error leaves none, and its error is logged as for any
    other call. *)
Theorem ExecuteCall_multret (body : Script) (params : Z) (E : Eluna)
  (below : list LuaValue) (f : LuaValue) (args : list LuaValue) :
  call_ready E below f args params ->
  (forall vs E2, run host body (entered args E) = (Ok vs, E2) ->
     exists E',
       ExecuteCall host body params LUA_MULTRET E = (Ok true, E')
       /\ stack (L E') = below ++ vs)
  /\ (forall e E2, run host body (entered args E) = (LuaError e, E2) ->
        exists E',
          ExecuteCall host body params LUA_MULTRET E = (Ok false, E')
          /\ stack (L E') = below
          /\ log E'
             = log E2 ++ [LogError (error_text host
                                      (reported host e E2))]).
Proof.
  intros Hready.
  pose proof (ExecuteCall_of_run host (run host body) params LUA_MULTRET E
                below f args Hready) as Hrun.
  fold (ExecuteCall host body params LUA_MULTRET) in Hrun.
  split.
  - intros vs E2 Hbody. rewrite Hbody in Hrun. eexists.
    split; [exact Hrun|]. reflexivity.
  - intros e E2 Hbody. rewrite Hbody in Hrun. eexists.
    split; [exact Hrun|].
    destruct (left_failed_fields host
                (below ++ replicate (Z.to_nat LUA_MULTRET) LNil)
                (reported host e E2) E2) as (Hs & Hl & _).
    split; [|exact Hl].
    rewrite Hs. cbn. apply app_nil_r.
Qed.

(** X23: [ExecuteCall] never calls a value that is no function.  When
    the stack does not hold [params] values above a function slot the
    first assertion fails and the engine is as it was.  When the value
    below the arguments is no function, [luaL_tolstring] makes a text
    of it, which stays on the stack: the value's plain text when it has
    no [__tostring] metamethod, the result of that metamethod when it
    has one.  The text is logged in the error that says the registered
    value is no function, and the second assertion fails.  A
    [__tostring] that raises an error, or returns what is no string,
    makes [ExecuteCall] raise a Lua error to its caller, with nothing
    logged.  In every case what calling the value would do does not
    matter: nothing of it is run. *)
Theorem ExecuteCall_refuses (callee : M (list LuaValue)) (params res : Z)
  (E : Eluna) :
  let base := lua_gettop (L E) - params in
  let refused (text : string) : Result bool * Eluna :=
    (Fault "stack probably corrupt",
     add_log (LogError (Some (not_a_function_message text)))
       (pushed (LString text) E)) in
  (base <= 0 ->
   ExecuteCall_of host callee params res E = (Fault "base > 0", E))
  /\ (0 < base -> lua_isfunction (L E) base = false ->
      (forall v, index2value (L E) base = Some v ->
                 metafield (lualib host) v "__tostring" = LNil) ->
      ExecuteCall_of host callee params res E
      = refused (plain_text (lualib host) (L E) base))
  /\ (forall v metamethod,
        0 < base -> index2value (L E) base = Some v -> is_function v = false ->
        metafield (lualib host) v "__tostring" = metamethod ->
        metamethod <> LNil ->
        (forall r text,
           callmeta (lualib host) metamethod v = Ok r ->
           tostring (lualib host) r = Some text ->
           ExecuteCall_of host callee params res E = refused text)
        /\ (forall r,
              callmeta (lualib host) metamethod v = Ok r ->
              tostring (lualib host) r = None ->
              ExecuteCall_of host callee params res E
              = (luaL_error "'__tostring' must return a string",
                 pushed r E))
        /\ (forall e,
              callmeta (lualib host) metamethod v = LuaError e ->
              ExecuteCall_of host callee params res E = (LuaError e, E))).
Proof.
  intros base refused.
  assert (Hstep : 0 < base -> lua_isfunction (L E) base = false ->
            ExecuteCall_of host callee params res E
            = match luaL_tolstring (lualib host) base (L E) with
              | (Ok text, S') =>
                  (Fault "stack probably corrupt",
                   add_log (LogError (Some (not_a_function_message text)))
                     (set_L S' E))
              | (LuaError e, S') => (LuaError e, set_L S' E)
              | (Fault w, S') => (Fault w, set_L S' E)
              end).
  { intros Hbase Hfn. unfold ExecuteCall_of.
    cbv beta iota zeta delta [bind gets ASSERT ret onL onL_checked onL_result
                              ELUNA_LOG].
    fold base.
    destruct (Z.ltb_spec 0 base) as [_|]; [|lia].
    rewrite Hfn. cbn [negb fst snd].
    destruct (luaL_tolstring (lualib host) base (L E)) as [[text|e|w] S'];
      reflexivity. }
  split; [|split].
  - intros Hbase. unfold ExecuteCall_of, bind, gets, ASSERT. fold base.
    destruct (Z.ltb_spec 0 base); [lia|reflexivity].
  - intros Hbase Hfn Hplain. rewrite (Hstep Hbase Hfn).
    unfold luaL_tolstring.
    destruct (index2value (L E) base) as [v|] eqn:Hv; [|reflexivity].
    rewrite (Hplain v eq_refl). reflexivity.
  - intros v metamethod Hbase Hv Hfn Hmeta Hsome.
    assert (Hfn' : lua_isfunction (L E) base = false)
      by (unfold lua_isfunction; rewrite Hv; exact Hfn).
    assert (Htol : luaL_tolstring (lualib host) base (L E)
                   = match callmeta (lualib host) metamethod v with
                     | Ok r =>
                         match tostring (lualib host) r with
                         | Some text => (Ok text, push (LString text) (L E))
                         | None =>
                             (luaL_error "'__tostring' must return a string",
                              push r (L E))
                         end
                     | LuaError e => (LuaError e, L E)
                     | Fault w => (Fault w, L E)
                     end).
    { unfold luaL_tolstring. rewrite Hv, Hmeta.
      destruct metamethod; try reflexivity. destruct (Hsome eq_refl). }
    rewrite (Hstep Hbase Hfn'), Htol.
    split; [|split].
    + intros r text -> ->. reflexivity.
    + intros r -> ->. reflexivity.
    + intros e ->. destruct E. reflexivity.
Qed.

(** [FreeInstanceId] on an engine that holds nothing of the instance. *)
Lemma FreeInstanceId_nothing (instanceId : Z) (ids : list Z) (E : Eluna)
  (m1 m2 : BindingMap.t) :
  GetBinding InstanceKey REGTYPE_MAP E = Some m1 ->
  GetBinding InstanceKey REGTYPE_INSTANCE E = Some m2 ->
  (forall i, i ∈ ids ->
     BindingMap.bindings_for (EntryKey i instanceId) m1 = []
     /\ BindingMap.bindings_for (EntryKey i instanceId) m2 = []) ->
  instanceDataRefs E !! instanceId = None ->
  for_each ids (FreeInstanceId_body instanceId) E = (Ok tt, E).
Proof.
  intros H1 H2 Hnone Hdata.
  induction ids as [|i ids IH]; [reflexivity|].
  cbn [for_each]. unfold bind.
  rewrite (FreeInstanceId_body_run instanceId i E m1 m2 H1 H2).
  destruct (Hnone i ltac:(left)) as [Hm1 Hm2].
  unfold clear_if_bound.
  rewrite (proj2 (HasBindingsFor_false _ m1) Hm1).
  rewrite (proj2 (HasBindingsFor_false _ m2) Hm2).
  apply GetBinding_Some in H1 as H1'. destruct H1' as [H1' _].
  apply GetBinding_Some in H2 as H2'. destruct H2' as [H2' _].
  rewrite (insert_id (bindingMaps E) REGTYPE_MAP (Some m1) H1').
  rewrite (insert_id (bindingMaps E) REGTYPE_INSTANCE (Some m2) H2').
  rewrite set_bindingMaps_id.
  unfold drop_data. rewrite Hdata.
  apply IH. intros j Hj. apply Hnone. right. exact Hj.
Qed.

(** X24: freeing an instance twice is freeing it once.  After
    [FreeInstanceId(instanceId)] a second call finds no binding and no
    data of the instance and leaves the engine exactly as it is: no
    reference is released a second time. *)
Theorem FreeInstanceId_idempotent (instanceId : Z) (E : Eluna)
  (m1 m2 : BindingMap.t) :
  1 < INSTANCE_EVENT_COUNT (events host) ->
  GetBinding InstanceKey REGTYPE_MAP E = Some m1 ->
  GetBinding InstanceKey REGTYPE_INSTANCE E = Some m2 ->
  exists E',
    FreeInstanceId host instanceId E = (Ok tt, E')
    /\ FreeInstanceId host instanceId E' = (Ok tt, E').
Proof.
  intros Hcount H1 H2. unfold FreeInstanceId.
  set (ids := seqZ 1 (INSTANCE_EVENT_COUNT (events host) - 1)).
  destruct (FreeInstanceId_loop instanceId ids E m1 m2 H1 H2)
    as (E' & m1' & m2' & Hrun & H1' & H2' & _ & _ & Hgone & _ & Hdata).
  exists E'. split; [exact Hrun|].
  apply (FreeInstanceId_nothing instanceId ids E' m1' m2' H1' H2' Hgone).
  destruct Hdata as [-> _].
  - subst ids. intros Hnil.
    assert (1 ∈ seqZ 1 (INSTANCE_EVENT_COUNT (events host) - 1)) as Hin
      by (apply elem_of_seqZ; lia).
    rewrite Hnil in Hin. apply elem_of_nil in Hin. exact Hin.
  - apply lookup_delete_eq.
Qed.

End CallEdges.

(** X22 at a concrete call: three values come back through
    LUA_MULTRET. *)
Lemma ExecuteCall_multret_witness :
  let W := Sample.world false in
  let E := Sample.with_stack [LNumber (of_Z 5); LFunction 1; LString "a"]
             Sample.E0 in
  exists E',
    ExecuteCall W (SReturn [LBoolean true; LNil; LString "r"]) 1 LUA_MULTRET E
    = (Ok true, E')
    /\ stack (L E')
       = [LNumber (of_Z 5); LBoolean true; LNil; LString "r"].
Proof.
  intros W E.
  destruct (ExecuteCall_multret W (SReturn [LBoolean true; LNil; LString "r"])
              1 E [LNumber (of_Z 5)] (LFunction 1) [LString "a"])
    as [Hok _].
  - repeat split.
  - destruct (Hok _ (entered [LString "a"] E) eq_refl) as (E' & Hrun & Hst).
    exists E'. split; [exact Hrun|exact Hst].
Defined.

(** X24 on the sample engine: instance 5 is freed twice. *)
Lemma FreeInstanceId_idempotent_witness :
  let W := Sample.world false in
  exists E',
    FreeInstanceId W 5 SampleInstance.E1 = (Ok tt, E')
    /\ FreeInstanceId W 5 E' = (Ok tt, E').
Proof.
  intros W.
  apply (FreeInstanceId_idempotent W 5 SampleInstance.E1
           SampleInstance.store_map SampleInstance.store_instance).
  - const_le.
  - reflexivity.
  - reflexivity.
Defined.

(** X23 at concrete calls.  A boolean where the function should be is
    logged as [true]; a Player wrapper is logged by what its
    [__tostring] returns; the [__tostring] of a boxed value raises an
    error, which [ExecuteCall] passes on. *)
Lemma ExecuteCall_refuses_witness :
  let player :=
    LUserdata (mkElunaObject "Player" (RefObject (mkObject TYPEID_PLAYER 7)) 2) in
  let boxed := LUserdata (mkElunaObject "unsigned long long" (RefUInt64 9) 0) in
  let called : M (list LuaValue) := ret [LBoolean true] in
  let E1 := Sample.with_stack [LBoolean true; LNil] Sample.E0 in
  let E2 := Sample.with_stack [player] Sample.E0 in
  let E3 := Sample.with_stack [boxed] Sample.E0 in
  (ExecuteCall_of (Sample.world false) called 1 0 E1
   = (Fault "stack probably corrupt",
      add_log
        (LogError (Some "[Eluna]: Cannot execute call: registered value is true, not a function."))
        (pushed (LString "true") E1)))
  /\ (ExecuteCall_of SampleMeta.world called 0 0 E2
      = (Fault "stack probably corrupt",
         add_log
           (LogError (Some "[Eluna]: Cannot execute call: registered value is <Player>, not a function."))
           (pushed (LString "<Player>") E2)))
  /\ ExecuteCall_of SampleMeta.world called 0 0 E3
     = (LuaError (LString "no object"), E3).
Proof.
  intros player boxed called E1 E2 E3.
  split; [|split].
  - destruct (ExecuteCall_refuses (Sample.world false) called 1 0 E1)
      as (_ & Hplain & _).
    apply Hplain; [reflexivity|reflexivity|].
    intros v _. reflexivity.
  - destruct (ExecuteCall_refuses SampleMeta.world called 0 0 E2)
      as (_ & _ & Hmeta).
    destruct (Hmeta player (LFunction 50) eq_refl eq_refl eq_refl eq_refl
                ltac:(discriminate)) as (Hok & _ & _).
    apply (Hok (LString "<Player>") "<Player>"); reflexivity.
  - destruct (ExecuteCall_refuses SampleMeta.world called 0 0 E3)
      as (_ & _ & Hmeta).
    destruct (Hmeta boxed (LFunction 50) eq_refl eq_refl eq_refl eq_refl
                ltac:(discriminate)) as (_ & _ & Hraise).
    apply Hraise. reflexivity.
Defined.

(* ===================================================================== *)
(** * Proofs: requiring a script *)
(* ===================================================================== *)

Section Requiring.

Context (host : Host).

Lemma on_frame_back (args : list LuaValue) (E : Eluna) :
  set_L (set_stack (stack (L E)) (L (on_frame args E))) (on_frame args E) = E.
Proof. destruct E as [? ? ? ? ? ? ? ? [] ?]. reflexivity. Qed.

(** The first searcher finds the first script of the name and loads its
    bytecode. *)
Lemma findloader_precompiled (name : string) (it : LuaScript) (E : Eluna) :
  first_named host (c_str name) it ->
  findloader host (c_str name) E
  = match luaL_loadbuffer host it with
    | inl chunk =>
        if is_function chunk
        then (Ok (chunk, LString (c_str (filepath it))), E)
        else
          match package_searchers host (c_str name) with
          | inl elsewhere => (Ok elsewhere, E)
          | inr reasons =>
              (luaL_error
                 ("module '" +:+ c_str name +:+ "' not found:" +:+
                  default "" (tostring (lualib host) chunk) +:+ reasons), E)
          end
    | inr errmsg =>
        (LuaError errmsg,
         set_L (push errmsg (set_stack [LString (c_str name)] (L E))) E)
    end.
Proof.
  intros (pre & post & Hscripts & Hpre & Hit).
  assert (Hfind : List.find
                    (fun script => String.eqb (filename script) (c_str name))
                    (GetLuaScripts host) = Some it).
  { rewrite Hscripts. apply find_first; assumption. }
  unfold findloader. rewrite bind_run. unfold call_with at 1.
  unfold c_function. rewrite bind_run. unfold onL_result at 1.
  unfold PrecompiledLoader.
  rewrite (lua_tostring_string host _ 1 (c_str name)) by reflexivity.
  cbv zeta. rewrite c_str_c_str, Hfind.
  destruct (luaL_loadbuffer host it) as [chunk|errmsg]; cbn [fst snd].
  - unfold gets at 1. unfold lua_pushstring. cbn [L set_L].
    rewrite c_results_pushed2.
    match goal with
    | |- _ ?X = _ =>
        replace X with E by (destruct E as [? ? ? ? ? ? ? ? [] ?]; reflexivity)
    end.
    change (adjust_results 2 [chunk; LString (c_str (filepath it))])
      with [chunk; LString (c_str (filepath it))].
    cbn [lookup list_lookup default from_option id].
    destruct (is_function chunk); [reflexivity|].
    destruct (package_searchers host (c_str name)); reflexivity.
  - destruct E as [? ? ? ? ? ? ? ? [] ?]; reflexivity.
Qed.

(** X25: what [require] runs.  On a frame that holds the module name,
    read as a C string: a module that [package.loaded] holds is
    returned and nothing is run.  Otherwise [PrecompiledLoader], the
    first searcher, takes the first of the loader's scripts that has
    the name as its file name, whatever map that script is tagged for:
    if its bytecode does not load, [require] raises the load error; if
    it loads, the chunk is called with the name and the script's path.
    An error of the chunk is raised by [require]; a value the chunk
    returns is filed in [package.loaded] and returned; when the chunk
    returns nothing (or nil) and has filed nothing, [true] is filed and
    returned. *)
Theorem require_first_named (E : Eluna) (arg : string) (it : LuaScript) :
  let name := c_str arg in
  stack (L E) = [LString arg] ->
  (forall v, package_loaded (L E) !! name = Some v -> truthy v = true ->
     require host E = (Ok [v], E))
  /\ (package_loaded (L E) !! name = None -> first_named host name it ->
      (forall errmsg, luaL_loadbuffer host it = inr errmsg ->
         fst (require host E) = LuaError errmsg)
      /\ (forall chunk,
            luaL_loadbuffer host it = inl chunk -> is_function chunk = true ->
            let start :=
              on_frame [LString name; LString (c_str (filepath it))] E in
            (forall e E2,
               run host (function_body host chunk) start = (LuaError e, E2) ->
               require host E = (LuaError e, E2))
            /\ (forall v rest E2,
                  run host (function_body host chunk) start
                  = (Ok (v :: rest), E2) ->
                  v <> LNil ->
                  require host E
                  = (Ok [v], filed name v (on_frame [LString arg] E2)))
            /\ (forall vs E2,
                  run host (function_body host chunk) start = (Ok vs, E2) ->
                  default LNil (head vs) = LNil ->
                  package_loaded (L E2) !! name = None ->
                  require host E
                  = (Ok [LBoolean true],
                     filed name (LBoolean true) (on_frame [LString arg] E2))))).
Proof.
  intros name Hst.
  assert (Harg : luaL_checkstring (lualib host) (L E) 1 = Ok arg).
  { unfold luaL_checkstring, index2value. rewrite Hst. reflexivity. }
  split.
  - intros v Hv Htruthy. unfold require.
    rewrite bind_run, Harg. rewrite bind_run. unfold gets at 1.
    fold name. rewrite Hv. cbn [default from_option id]. rewrite Htruthy.
    reflexivity.
  - intros Hnone Hfirst.
    assert (Hstart : require host E
                     = bind (findloader host name) (fun found =>
                         results <- call_with [LString name; snd found]
                                      (run host (function_body host (fst found))) ;;
                         let value := default LNil (head results) in
                         let file (v : LuaValue) : M unit :=
                           onL (fun L => set_package_loaded
                                           (<[name := v]> (package_loaded L)) L) in
                         (match value with LNil => ret tt | _ => file value end) ;;;
                         stored <- gets (fun E =>
                                     default LNil (package_loaded (L E) !! name)) ;;
                         match stored with
                         | LNil => file (LBoolean true) ;;; ret [LBoolean true]
                         | _ => ret [stored]
                         end) E).
    { unfold require. rewrite bind_run, Harg. rewrite bind_run.
      unfold gets at 1. fold name. rewrite Hnone. reflexivity. }
    pose proof (findloader_precompiled arg it E Hfirst) as Hfound.
    fold name in Hfound.
    rewrite Hstart, bind_run, Hfound.
    split.
    + intros errmsg ->. reflexivity.
    + intros chunk -> ->. intros start. cbv beta iota. cbn [fst snd].
      rewrite bind_run. unfold call_with.
      fold (on_frame [LString name; LString (c_str (filepath it))] E).
      fold start.
      split; [|split].
      * intros e E2 ->. reflexivity.
      * intros v rest E2 -> Hv. rewrite Hst. cbn [head default from_option id].
        cbv zeta. rewrite bind_run.
        fold (on_frame [LString arg] E2).
        destruct v; try (destruct (Hv eq_refl));
          (cbv beta iota delta [onL ret];
           rewrite bind_run; unfold gets at 1;
           cbn [L set_L package_loaded set_package_loaded];
           rewrite lookup_insert_eq; reflexivity).
      * intros vs E2 -> Hnil Hnone2. rewrite Hst. cbv zeta.
        rewrite Hnil. rewrite bind_run. unfold ret at 1.
        fold (on_frame [LString arg] E2).
        rewrite bind_run. unfold gets at 1.
        replace (package_loaded (L (on_frame [LString arg] E2)))
          with (package_loaded (L E2)) by reflexivity.
        rewrite Hnone2. reflexivity.
Qed.

End Requiring.

(** X25 on two scripts named [a], the first tagged for map 530.  The
    [require] of [a] runs the chunk of the first.  An engine bound to
    no map skips the first script in the loop of [RunScripts] and calls
    [require] for the second: the chunk that runs is that of the
    script tagged for map 530, and the second script is reported as
    loaded. *)
Lemma require_first_named_witness :
  let W := SampleTagged.world in
  let tagged := mkLuaScript ".lua" "a" "scripts/530/a.lua" "scripts/530" 530 in
  let E := on_frame [LString "a"] Sample.E0 in
  (exists E',
     require W E = (Ok [LBoolean true], E')
     /\ globals (L E') !! "ran" = Some (LString "scripts/530/a.lua")
     /\ package_loaded (L E') !! "a" = Some (LBoolean true))
  /\ (exists E',
        RunScripts W (ret tt) Sample.E0 = (Ok tt, E')
        /\ log E'
           = [ LogDebug "[Eluna]: Running scripts for state: -1, instance: 0";
               LogDebug "[Eluna]: `a` is tagged 530 and will not load for map: -1";
               LogDebug "[Eluna]: Successfully loaded `scripts/a.lua`";
               LogInfo "[Eluna]: Executed 1 Lua scripts for map: -1, instance: 0" ]
        /\ globals (L E') !! "ran" = Some (LString "scripts/530/a.lua")).
Proof.
  intros W tagged E. split.
  - destruct (require_first_named W E "a" tagged eq_refl) as [_ Hrun].
    destruct Hrun as [_ Hload]; [reflexivity| |].
    { exists [], [mkLuaScript ".lua" "a" "scripts/a.lua" "scripts" (-1)].
      split; [reflexivity|]. split; [|reflexivity].
      intros s Hs. apply elem_of_nil in Hs. destruct Hs. }
    destruct (Hload (LFunction 201) eq_refl eq_refl) as (_ & _ & Htrue).
    eexists. split.
    + apply (Htrue []
               (snd (run W (function_body W (LFunction 201))
                       (on_frame [LString "a"; LString "scripts/530/a.lua"] E))));
        reflexivity.
    + split; vm_compute; reflexivity.
  - exists (snd (RunScripts W (ret tt) Sample.E0)).
    split; [|split]; vm_compute; reflexivity.
Defined.
